(** * TuxTray: telemetry sampler, state classifier and animation scheduler

    A shallow embedding of [src/system_monitor.py] and
    [src/animation_engine.py], followed by the properties stated for them.

    Conventions of the embedding.
    - Python floats (percentages, KB/s, [time.time()] seconds) are rationals
      [Q]; comparisons are the boolean comparisons of [Q].  Byte counters and
      millisecond clocks are Python ints, modelled as [Z].
    - Python dictionaries with string keys are [gmap string _];
      [d.get(k, dflt)] is [default dflt (d !! k)].
    - Calls into psutil, the clock and the frame loader are inputs of the
      model functions: each function takes what the collaborator answered
      (a value or an exception) and returns its result with the new object
      state. *)

From Stdlib Require Import ZArith QArith Qround Qminmax String List Lia Lqa.
From stdpp Require Import base option gmap strings list fin_maps.

Local Open Scope string_scope.

(** ** Results and exceptions *)

Module Py.

(** The exceptions the code tells apart or can raise itself.
    [NoSuchObject] is not a Python exception: it marks a reference that the
    model's object store cannot resolve, which no reachable state holds. *)
Inductive exn :=
| AttributeError
| OSError
| IndexError
| OtherException
| NoSuchObject.

(** What a call did: it returned a value or raised. *)
Inductive outcome (A : Type) :=
| Returns (a : A)
| Raises (e : exn).
Arguments Returns {A} a.
Arguments Raises {A} e.

Definition bind {A B : Type} (m : outcome A) (k : A -> outcome B) : outcome B :=
  match m with
  | Returns a => k a
  | Raises e => Raises e
  end.

(** Python's [l[i]] on a list: a negative index counts from the end, an
    index out of range raises [IndexError]. *)
Definition index {A : Type} (l : list A) (i : Z) : outcome A :=
  let n := Z.of_nat (length l) in
  let j := (if i <? 0 then n + i else i)%Z in
  if ((0 <=? j) && (j <? n))%Z
  then match l !! Z.to_nat j with
       | Some x => Returns x
       | None => Raises IndexError
       end
  else Raises IndexError.

End Py.

#[global] Instance outcome_bind : MBind Py.outcome :=
  fun A B k m => Py.bind m k.
#[global] Instance outcome_ret : MRet Py.outcome :=
  fun A a => Py.Returns a.

Import Py(outcome, Returns, Raises, AttributeError, OSError, IndexError,
          OtherException, NoSuchObject).

(** ** Numbers *)

Module Num.

(** [a >= b] on floats. *)
Definition geq (a b : Q) : bool := Qle_bool b a.

(** [a <= b] on floats. *)
Definition leq (a b : Q) : bool := Qle_bool a b.

(** [a > b] on floats. *)
Definition gt (a b : Q) : bool := negb (Qle_bool a b).

(** Python's [min(a, b)]: the first argument unless the second is
    strictly smaller. *)
Definition min (a b : Q) : Q := if gt a b then b else a.

(** Python's [max(a, b)]: the first argument unless the second is
    strictly larger. *)
Definition max (a b : Q) : Q := if gt b a then b else a.

(** Round to the nearest integer, a tie going to the even neighbour. *)
Definition round_half_even (x : Q) : Z :=
  let f := Qfloor x in
  match ((x - inject_Z f) ?= (1 # 2))%Q with
  | Lt => f
  | Gt => (f + 1)%Z
  | Eq => if Z.even f then f else (f + 1)%Z
  end.

(** Python's [round(x, 1)]. *)
Definition round1 (x : Q) : Q := inject_Z (round_half_even (x * 10)) / 10.

End Num.

(** ** system_monitor.py *)

Module SystemMonitor.

(** [@dataclass SystemStats]. *)
Record SystemStats := mkStats {
  cpu_percent : Q;
  ram_percent : Q;
  network_kbps : Q;
  timestamp : Q
}.

(** One per-state sub-dictionary of the composite configuration: its
    numeric cutoffs and its optional ['description'] text. *)
Record EmotionConfig := mkEmotionConfig {
  cutoffs : gmap string Q;
  description : option string
}.

(** The [{}] default of [emotion_thresholds.get(state, {})]. *)
Definition empty_config : EmotionConfig :=
  {| cutoffs := ∅; description := None |}.

(** [cfg.get(key, dflt)] on the numeric cutoffs. *)
Definition get (cfg : gmap string Q) (key : string) (dflt : Q) : Q :=
  default dflt (cfg !! key).

(** [emotion_thresholds.get(state, {})]. *)
Definition get_config (emotion_thresholds : gmap string EmotionConfig)
    (state : string) : EmotionConfig :=
  default empty_config (emotion_thresholds !! state).

(** The threshold dictionary handed to [determine_animation_state]: the
    numeric entries read by the single-metric modes and the per-state
    sub-dictionaries read by the composite mode. *)
Record Thresholds := mkThresholds {
  legacy : gmap string Q;
  composite : gmap string EmotionConfig
}.

(** [determine_emotion_state(stats, emotion_thresholds)]. *)
Definition determine_emotion_state (stats : SystemStats)
    (emotion_thresholds : gmap string EmotionConfig) : string :=
  let cpu := cpu_percent stats in
  let ram := ram_percent stats in
  let network := network_kbps stats in
  let overload_config := cutoffs (get_config emotion_thresholds "overloaded") in
  let any_critical_threshold := get overload_config "any_critical_threshold" 85 in
  if Num.geq cpu (get overload_config "cpu_critical" 90)
     || Num.geq ram (get overload_config "ram_critical" 90)
     || Num.geq network (get overload_config "network_critical_kbps" 2000)
     || Num.geq cpu any_critical_threshold
     || Num.geq ram any_critical_threshold
  then "overloaded"
  else
    let stressed_config := cutoffs (get_config emotion_thresholds "stressed") in
    let high_resources := 0%nat in
    let high_resources :=
      if Num.geq cpu (get stressed_config "cpu_high" 70)
      then (high_resources + 1)%nat else high_resources in
    let high_resources :=
      if Num.geq ram (get stressed_config "ram_high" 75)
      then (high_resources + 1)%nat else high_resources in
    let high_resources :=
      if Num.geq network (get stressed_config "network_high_kbps" 800)
      then (high_resources + 1)%nat else high_resources in
    if (2 <=? high_resources)%nat then "stressed"
    else
      let busy_config := cutoffs (get_config emotion_thresholds "busy") in
      let single_threshold := get busy_config "single_resource_threshold" 60 in
      if Num.geq cpu single_threshold
         || Num.geq ram single_threshold
         || Num.geq network (single_threshold * 10)
      then "busy"
      else
        let calm_config := cutoffs (get_config emotion_thresholds "calm") in
        if Num.leq cpu (get calm_config "cpu_max" 20)
           && Num.leq ram (get calm_config "ram_max" 30)
           && Num.leq network (get calm_config "network_max_kbps" 50)
        then "calm"
        else "active".

(** The last three lines of [determine_animation_state]. *)
Definition usage_state (usage idle_threshold walk_threshold : Q) : string :=
  if Num.geq usage walk_threshold then "run"
  else if Num.geq usage idle_threshold then "walk"
  else "idle".

(** [determine_animation_state(stats, mode, thresholds)]. *)
Definition determine_animation_state (stats : SystemStats) (mode : string)
    (thresholds : Thresholds) : string :=
  if decide (mode = "emotion")
  then determine_emotion_state stats (composite thresholds)
  else if decide (mode = "cpu") then
    usage_state (cpu_percent stats)
      (get (legacy thresholds) "idle" 30) (get (legacy thresholds) "walk" 80)
  else if decide (mode = "ram") then
    usage_state (ram_percent stats)
      (get (legacy thresholds) "idle" 40) (get (legacy thresholds) "walk" 85)
  else if decide (mode = "network") then
    usage_state (network_kbps stats)
      (get (legacy thresholds) "idle_kbps" 100)
      (get (legacy thresholds) "walk_kbps" 1000)
  else "idle".

(** *** Resource stress analysis *)

(** One entry of the list built by [_identify_active_stressors]: the text
    ["High CPU (v%)"], ["High RAM (v%)"] or ["High Network (v KB/s)"],
    kept as its kind and the number [v] printed with one decimal. *)
Inductive Stressor :=
| HighCPU (v : Q)
| HighRAM (v : Q)
| HighNetwork (v : Q).

(** [_identify_active_stressors(stats)]. *)
Definition _identify_active_stressors (stats : SystemStats) : list Stressor :=
  let stressors : list Stressor := [] in
  let stressors :=
    if Num.gt (cpu_percent stats) 70
    then (stressors ++ [HighCPU (Num.round1 (cpu_percent stats))])%list
    else stressors in
  let stressors :=
    if Num.gt (ram_percent stats) 75
    then (stressors ++ [HighRAM (Num.round1 (ram_percent stats))])%list
    else stressors in
  let stressors :=
    if Num.gt (network_kbps stats) 800
    then (stressors ++ [HighNetwork (Num.round1 (network_kbps stats))])%list
    else stressors in
  stressors.

(** The ["resource_levels"] sub-dictionary of the analysis. *)
Record ResourceLevels := mkLevels {
  level_cpu : Q;
  level_ram : Q;
  level_network : Q
}.

(** The dictionary returned by [get_emotion_analysis]. *)
Record EmotionAnalysis := mkAnalysis {
  emotion : string;
  overall_stress : Q;
  resource_levels : ResourceLevels;
  active_stressors : list Stressor;
  analysis_description : string
}.

(** [get_emotion_analysis(stats, emotion_thresholds)]. *)
Definition get_emotion_analysis (stats : SystemStats)
    (emotion_thresholds : gmap string EmotionConfig) : EmotionAnalysis :=
  let emotion := determine_emotion_state stats emotion_thresholds in
  let cpu_stress := Num.min 100 (cpu_percent stats) in
  let ram_stress := Num.min 100 (ram_percent stats) in
  let network_stress := Num.min 100 (network_kbps stats / 20) in
  let overall_stress := ((cpu_stress + ram_stress + network_stress) / 3)%Q in
  {| emotion := emotion;
     overall_stress := Num.round1 overall_stress;
     resource_levels :=
       {| level_cpu := Num.round1 cpu_stress;
          level_ram := Num.round1 ram_stress;
          level_network := Num.round1 network_stress |};
     active_stressors := _identify_active_stressors stats;
     analysis_description :=
       default ("System in " ++ emotion ++ " state")
               (description (get_config emotion_thresholds emotion)) |}.

(** *** Sampling

    [_init_network_baseline] catches [AttributeError] and [OSError] only;
    the three readers catch every [Exception]. *)

(** [psutil.net_io_counters()]: [None], or the cumulative
    [(bytes_sent, bytes_recv)]. *)
Definition net_io_reading : Type := outcome (option (Z * Z)).

(** The fields of a [SystemMonitor] object. *)
Record Monitor := mkMonitor {
  _last_network_io : option (Z * Z);
  _last_network_time : option Q;
  _cpu_percent_cache : Q
}.

(** [_init_network_baseline()], given what [psutil.net_io_counters()] did
    and the clock. An exception other than the two caught ones leaves the
    method. *)
Definition _init_network_baseline (self : Monitor) (net : net_io_reading)
    (now : Q) : outcome Monitor :=
  match net with
  | Returns (Some (bytes_sent, bytes_recv)) =>
      Returns {| _last_network_io := Some (bytes_sent, bytes_recv);
                 _last_network_time := Some now;
                 _cpu_percent_cache := _cpu_percent_cache self |}
  | Returns None => Returns self
  | Raises AttributeError | Raises OSError =>
      Returns {| _last_network_io := None;
                 _last_network_time := None;
                 _cpu_percent_cache := _cpu_percent_cache self |}
  | Raises e => Raises e
  end.

(** [SystemMonitor.__init__()]. *)
Definition __init__ (net : net_io_reading) (now : Q) : outcome Monitor :=
  _init_network_baseline
    {| _last_network_io := None;
       _last_network_time := None;
       _cpu_percent_cache := 0 |} net now.

(** [get_cpu_usage()], given what [psutil.cpu_percent(interval=None)]
    did. *)
Definition get_cpu_usage (self : Monitor) (reading : outcome Q) : Q * Monitor :=
  match reading with
  | Returns cpu_percent =>
      let self :=
        if Num.gt cpu_percent 0
        then {| _last_network_io := _last_network_io self;
                _last_network_time := _last_network_time self;
                _cpu_percent_cache := cpu_percent |}
        else self in
      (_cpu_percent_cache self, self)
  | Raises _ => (_cpu_percent_cache self, self)
  end.

(** [get_ram_usage()], given what [psutil.virtual_memory().percent]
    did. *)
Definition get_ram_usage (self : Monitor) (reading : outcome Q) : Q * Monitor :=
  match reading with
  | Returns percent => (percent, self)
  | Raises _ => (0%Q, self)
  end.

(** [get_network_usage()], given what [psutil.net_io_counters()] did and
    the clock read right after it. *)
Definition get_network_usage (self : Monitor) (net : net_io_reading)
    (current_time : Q) : Q * Monitor :=
  match net with
  | Raises _ => (0%Q, self)
  | Returns net_io =>
      match net_io, _last_network_io self, _last_network_time self with
      | Some (now_sent, now_recv), Some (last_sent, last_recv), Some last_time =>
          let bytes_sent := (now_sent - last_sent)%Z in
          let bytes_recv := (now_recv - last_recv)%Z in
          let total_bytes := (bytes_sent + bytes_recv)%Z in
          let time_elapsed := (current_time - last_time)%Q in
          let self :=
            {| _last_network_io := Some (now_sent, now_recv);
               _last_network_time := Some current_time;
               _cpu_percent_cache := _cpu_percent_cache self |} in
          if Num.gt time_elapsed 0
          then
            let kbps := ((inject_Z total_bytes / 1024) / time_elapsed)%Q in
            (Num.max 0 kbps, self)
          else (0%Q, self)
      | _, _, _ => (0%Q, self)
      end
  end.

(** What the collaborators answer during one [get_system_stats()]. *)
Record Readings := mkReadings {
  read_cpu : outcome Q;
  read_ram : outcome Q;
  read_net : net_io_reading;
  read_net_time : Q;
  read_stamp : Q
}.

(** [get_system_stats()]. *)
Definition get_system_stats (self : Monitor) (r : Readings)
    : SystemStats * Monitor :=
  let '(cpu, self) := get_cpu_usage self (read_cpu r) in
  let '(ram, self) := get_ram_usage self (read_ram r) in
  let '(net, self) := get_network_usage self (read_net r) (read_net_time r) in
  ({| cpu_percent := cpu; ram_percent := ram; network_kbps := net;
      timestamp := read_stamp r |}, self).

(** A series of [get_cpu_usage()] calls on one monitor. *)
Definition cpu_polls (self : Monitor) (readings : list (outcome Q)) : Monitor :=
  foldl (fun self reading => snd (get_cpu_usage self reading)) self readings.

(** A series of [get_network_usage()] calls on one monitor, each with what
    the collaborator answered and the clock reading: the rates returned and
    the monitor left. *)
Fixpoint net_polls (self : Monitor) (samples : list (net_io_reading * Q))
    : list Q * Monitor :=
  match samples with
  | [] => ([], self)
  | (net, current_time) :: later =>
      let '(kbps, self) := get_network_usage self net current_time in
      let '(rates, self) := net_polls self later in
      (kbps :: rates, self)
  end.

(** A series of [get_system_stats()] calls on one monitor. *)
Fixpoint polls (self : Monitor) (readings : list Readings)
    : list SystemStats * Monitor :=
  match readings with
  | [] => ([], self)
  | r :: later =>
      let '(stats, self) := get_system_stats self r in
      let '(samples, self) := polls self later in
      (stats :: samples, self)
  end.

End SystemMonitor.

(** ** animation_engine.py: class Animation *)

(** A frame handle. [NullPixmap] is what [QPixmap()] builds. *)
Inductive QPixmap :=
| NullPixmap
| Pixmap (id : nat).

Module Animation.

(** The fields of an [Animation] object. *)
Record t := mk {
  name : string;
  frames : list QPixmap;
  fps : Z;
  loop : bool;
  frame_duration_ms : Z;
  current_frame : Z;
  last_frame_time : Z
}.

(** [Animation.__init__(name, frames, fps, loop)]. For an integer
    [fps > 0], [int(1000 / fps)] is the integer quotient. *)
Definition __init__ (name : string) (frames : list QPixmap) (fps : Z)
    (loop : bool) : t :=
  {| name := name;
     frames := frames;
     fps := fps;
     loop := loop;
     frame_duration_ms := if (fps >? 0)%Z then (1000 / fps)%Z else 42%Z;
     current_frame := 0;
     last_frame_time := 0 |}.

(** [get_current_frame()]. *)
Definition get_current_frame (self : t) : outcome QPixmap :=
  match frames self with
  | [] => Returns NullPixmap
  | _ :: _ => Py.index (frames self) (current_frame self)
  end.

(** [advance_frame()], given [int(time.time() * 1000)]. *)
Definition advance_frame (self : t) (current_time : Z) : bool * t :=
  if (current_time - last_frame_time self >=? frame_duration_ms self)%Z
  then
    match frames self with
    | _ :: _ =>
        (true,
         {| name := name self;
            frames := frames self;
            fps := fps self;
            loop := loop self;
            frame_duration_ms := frame_duration_ms self;
            current_frame :=
              ((current_frame self + 1) mod Z.of_nat (length (frames self)))%Z;
            last_frame_time := current_time |})
    | [] => (false, self)
    end
  else (false, self).

(** [reset()], given [int(time.time() * 1000)]. *)
Definition reset (self : t) (now : Z) : t :=
  {| name := name self;
     frames := frames self;
     fps := fps self;
     loop := loop self;
     frame_duration_ms := frame_duration_ms self;
     current_frame := 0;
     last_frame_time := now |}.

(** The two mutating methods, as calls with their clock reading. *)
Inductive call :=
| Reset (now : Z)
| AdvanceFrame (current_time : Z).

Definition step (self : t) (c : call) : t :=
  match c with
  | Reset now => reset self now
  | AdvanceFrame current_time => snd (advance_frame self current_time)
  end.

(** Any interleaving of the two methods on one object. *)
Definition run (self : t) (calls : list call) : t := foldl step self calls.

End Animation.

(** ** animation_engine.py: class AnimationEngine *)

Module AnimationEngine.

(** What the asset collaborator delivers for one entry of a skin's
    ["animations"] configuration: the frames [_load_animation_frames]
    returned and the entry's optional ["fps"] and ["loop"]. *)
Record Asset := mkAsset {
  asset_name : string;
  asset_frames : list QPixmap;
  asset_fps : option Z;
  asset_loop : option bool
}.

(** What [_load_skin] finds on disk and in the configuration: [None] when
    the skin directory or its configuration entry is missing. *)
Definition SkinAssets : Type := option (list Asset).

(** The fields of an [AnimationEngine] object. [Animation] objects are
    shared between the catalog and [current_animation], so they live in a
    store [heap] and are referred to by their position in it.
    [frame_changed] lists the frames emitted through the signal, oldest
    first; [config_current_skin] is [self.config.current_skin];
    [timer_active] is [self.timer.isActive()]. *)
Record t := mk {
  heap : list Animation.t;
  animations : gmap string (gmap string nat);
  current_skin : string;
  current_animation_name : string;
  current_animation : option nat;
  timer_active : bool;
  config_current_skin : string;
  frame_changed : list QPixmap
}.

Definition set_heap (h : list Animation.t) (self : t) : t :=
  mk h (animations self) (current_skin self) (current_animation_name self)
     (current_animation self) (timer_active self) (config_current_skin self)
     (frame_changed self).

Definition set_animations (m : gmap string (gmap string nat)) (self : t) : t :=
  mk (heap self) m (current_skin self) (current_animation_name self)
     (current_animation self) (timer_active self) (config_current_skin self)
     (frame_changed self).

Definition set_current_skin (skin : string) (self : t) : t :=
  mk (heap self) (animations self) skin (current_animation_name self)
     (current_animation self) (timer_active self) (config_current_skin self)
     (frame_changed self).

Definition set_current (ref : nat) (animation_name : string) (self : t) : t :=
  mk (heap self) (animations self) (current_skin self) animation_name
     (Some ref) (timer_active self) (config_current_skin self)
     (frame_changed self).

Definition set_timer_active (b : bool) (self : t) : t :=
  mk (heap self) (animations self) (current_skin self)
     (current_animation_name self) (current_animation self) b
     (config_current_skin self) (frame_changed self).

Definition set_config_current_skin (skin : string) (self : t) : t :=
  mk (heap self) (animations self) (current_skin self)
     (current_animation_name self) (current_animation self)
     (timer_active self) skin (frame_changed self).

(** [self.frame_changed.emit(frame)]. *)
Definition emit (frame : QPixmap) (self : t) : t :=
  mk (heap self) (animations self) (current_skin self)
     (current_animation_name self) (current_animation self)
     (timer_active self) (config_current_skin self)
     (frame_changed self ++ [frame])%list.

(** The object a reference denotes. *)
Definition deref (self : t) (ref : nat) : outcome Animation.t :=
  match heap self !! ref with
  | Some a => Returns a
  | None => Raises NoSuchObject
  end.

(** The loop of [_load_skin]: one [Animation] object per entry that has
    frames, entered in the skin's dictionary under the entry's name. *)
Definition load_entry (acc : gmap string nat * list Animation.t) (entry : Asset)
    : gmap string nat * list Animation.t :=
  let '(animations, heap) := acc in
  match asset_frames entry with
  | _ :: _ =>
      let fps := default 24%Z (asset_fps entry) in
      let loop := default true (asset_loop entry) in
      let animation :=
        Animation.__init__ (asset_name entry) (asset_frames entry) fps loop in
      (<[asset_name entry := length heap]> animations, (heap ++ [animation])%list)
  | [] => acc
  end.

(** [_load_skin(skin_name)]. *)
Definition _load_skin (self : t) (skin_name : string) (assets : SkinAssets)
    : bool * t :=
  match assets with
  | None => (false, self)
  | Some entries =>
      let '(animations, heap) := foldl load_entry (∅, heap self) entries in
      if decide (animations = ∅) then (false, self)
      else
        (true,
         set_current_skin skin_name
           (set_animations (<[skin_name := animations]> (AnimationEngine.animations self))
              (set_heap heap self)))
  end.

(** [AnimationEngine.__init__(config_manager)], given the configured skin
    and what loading it finds. *)
Definition __init__ (configured_skin : string) (assets : SkinAssets) : t :=
  snd (_load_skin
         {| heap := [];
            animations := ∅;
            current_skin := "";
            current_animation_name := "idle";
            current_animation := None;
            timer_active := false;
            config_current_skin := configured_skin;
            frame_changed := [] |}
         configured_skin assets).

(** [set_animation(animation_name)], given the clock read by [reset]. *)
Definition set_animation (self : t) (animation_name : string) (now : Z)
    : outcome (bool * t) :=
  match animations self !! current_skin self with
  | None => Returns (false, self)
  | Some skin_animations =>
      match skin_animations !! animation_name with
      | Some ref =>
          a ← deref self ref;
          let new_animation := Animation.reset a now in
          let self := set_heap (<[ref := new_animation]> (heap self)) self in
          let self := set_current ref animation_name self in
          frame ← Animation.get_current_frame new_animation;
          Returns (true, emit frame self)
      | None => Returns (false, self)
      end
  end.

(** [set_skin(skin_name)]. *)
Definition set_skin (self : t) (skin_name : string) (assets : SkinAssets)
    (now : Z) : outcome (bool * t) :=
  let '(loaded, self) :=
    match animations self !! skin_name with
    | Some _ => (true, self)
    | None => _load_skin self skin_name assets
    end in
  if negb loaded then Returns (false, self)
  else
    let self := set_current_skin skin_name self in
    let self := set_config_current_skin skin_name self in
    '(_, self) ← set_animation self (current_animation_name self) now;
    Returns (true, self).

(** [... or self.set_animation(animation_name)]: evaluated only when the
    left operand was false. *)
Definition or_set_animation (left : bool * t) (animation_name : string)
    (now : Z) : outcome (bool * t) :=
  if fst left then Returns left
  else set_animation (snd left) animation_name now.

(** [start()]. At most one of the three [set_animation] calls reads the
    clock. *)
Definition start (self : t) (now : Z) : outcome t :=
  if negb (timer_active self) then
    self ←
      match current_animation self with
      | Some _ => Returns self
      | None =>
          r ← set_animation self "calm" now;
          r ← or_set_animation r "active" now;
          r ← or_set_animation r "idle" now;
          Returns (snd r)
      end;
    Returns (set_timer_active true self)
  else Returns self.

(** [stop()]. *)
Definition stop (self : t) : t := set_timer_active false self.

(** [_update_frame()], given the clock read by [advance_frame]. *)
Definition _update_frame (self : t) (now : Z) : outcome t :=
  match current_animation self with
  | Some ref =>
      a ← deref self ref;
      let '(advanced, a) := Animation.advance_frame a now in
      let self := set_heap (<[ref := a]> (heap self)) self in
      if advanced
      then frame ← Animation.get_current_frame a; Returns (emit frame self)
      else Returns self
  | None => Returns self
  end.

(** [get_current_frame()]. *)
Definition get_current_frame (self : t) : outcome QPixmap :=
  match current_animation self with
  | Some ref => a ← deref self ref; Animation.get_current_frame a
  | None => Returns NullPixmap
  end.

(** [reload_skin(skin_name)]. *)
Definition reload_skin (self : t) (skin_name : option string)
    (assets : SkinAssets) : bool * t :=
  let skin_name := default (current_skin self) skin_name in
  let self := set_animations (delete skin_name (animations self)) self in
  _load_skin self skin_name assets.

(** The calls a client and the timer make on an engine. *)
Inductive call :=
| SetSkin (skin_name : string) (assets : SkinAssets) (now : Z)
| SetAnimation (animation_name : string) (now : Z)
| Start (now : Z)
| Stop
| UpdateFrame (now : Z)
| ReloadSkin (skin_name : option string) (assets : SkinAssets).

Definition step (self : t) (c : call) : outcome t :=
  match c with
  | SetSkin skin_name assets now =>
      '(_, self) ← set_skin self skin_name assets now; Returns self
  | SetAnimation animation_name now =>
      '(_, self) ← set_animation self animation_name now; Returns self
  | Start now => start self now
  | Stop => Returns (stop self)
  | UpdateFrame now => _update_frame self now
  | ReloadSkin skin_name assets => Returns (snd (reload_skin self skin_name assets))
  end.

Fixpoint run (self : t) (calls : list call) : outcome t :=
  match calls with
  | [] => Returns self
  | c :: calls => self ← step self c; run self calls
  end.

(** [get_available_skins()], as the set of the names: the order of the
    Python list, which is the order of insertion, is not modelled. *)
Definition get_available_skins (self : t) : gset string :=
  dom (animations self).

(** [get_available_animations(skin_name)], as the set of the names. *)
Definition get_available_animations (self : t) (skin_name : option string)
    : gset string :=
  let skin_name := default (current_skin self) skin_name in
  match animations self !! skin_name with
  | Some skin_animations => dom skin_animations
  | None => ∅
  end.

End AnimationEngine.

(** ** config_manager.py *)

Module ConfigManager.

(** The configuration dictionary, by the entries the code reads: the
    ["thresholds"] and ["emotion_thresholds"] dictionaries and the entries of
    ["settings"], each of which may be missing. The ["skins"] entry is read
    by the frame loader only. *)
Record t := mk {
  thresholds : gmap string SystemMonitor.Thresholds;
  emotion_thresholds : gmap string SystemMonitor.EmotionConfig;
  setting_poll_interval_ms : option Z;
  setting_animation_mode : option string;
  setting_current_skin : option string;
  setting_tray_icon_size : option Z;
  setting_emotion_system_enabled : option bool
}.

(** [_get_default_config()]. The three entries of its ["active"]
    sub-dictionary are ranges, not cutoffs. *)
Definition _get_default_config : t :=
  {| thresholds :=
       {[ "cpu" := SystemMonitor.mkThresholds
                     {[ "idle" := 30%Q; "walk" := 80%Q ]} ∅;
          "ram" := SystemMonitor.mkThresholds
                     {[ "idle" := 40%Q; "walk" := 85%Q ]} ∅;
          "network" := SystemMonitor.mkThresholds
                     {[ "idle_kbps" := 100%Q; "walk_kbps" := 1000%Q ]} ∅ ]};
     emotion_thresholds :=
       {[ "calm" := SystemMonitor.mkEmotionConfig
            {[ "cpu_max" := 20%Q; "ram_max" := 30%Q;
               "network_max_kbps" := 50%Q ]} None;
          "active" := SystemMonitor.mkEmotionConfig ∅ None;
          "busy" := SystemMonitor.mkEmotionConfig
            {[ "single_resource_threshold" := 60%Q ]} None;
          "stressed" := SystemMonitor.mkEmotionConfig
            {[ "multiple_resources_threshold" := 70%Q; "cpu_high" := 70%Q;
               "ram_high" := 75%Q; "network_high_kbps" := 800%Q ]} None;
          "overloaded" := SystemMonitor.mkEmotionConfig
            {[ "cpu_critical" := 90%Q; "ram_critical" := 90%Q;
               "network_critical_kbps" := 2000%Q;
               "any_critical_threshold" := 85%Q ]} None ]};
     setting_poll_interval_ms := Some 500%Z;
     setting_animation_mode := Some "emotion";
     setting_current_skin := Some "default";
     setting_tray_icon_size := Some 32%Z;
     setting_emotion_system_enabled := Some true |}.

(** [get_thresholds(mode)]. *)
Definition get_thresholds (self : t) (mode : string) : SystemMonitor.Thresholds :=
  default (SystemMonitor.mkThresholds ∅ ∅) (thresholds self !! mode).

(** [get_emotion_thresholds()]. *)
Definition get_emotion_thresholds (self : t)
    : gmap string SystemMonitor.EmotionConfig :=
  emotion_thresholds self.

(** [set_emotion_thresholds(thresholds)]. *)
Definition set_emotion_thresholds (self : t)
    (new : gmap string SystemMonitor.EmotionConfig) : t :=
  mk (thresholds self) new (setting_poll_interval_ms self)
     (setting_animation_mode self) (setting_current_skin self)
     (setting_tray_icon_size self) (setting_emotion_system_enabled self).

(** The getter of the [animation_mode] property. *)
Definition animation_mode (self : t) : string :=
  default "cpu" (setting_animation_mode self).

(** The setter of the [animation_mode] property. *)
Definition set_animation_mode (self : t) (mode : string) : t :=
  if bool_decide (mode ∈ ["cpu"; "ram"; "network"; "emotion"])
  then mk (thresholds self) (emotion_thresholds self)
          (setting_poll_interval_ms self) (Some mode)
          (setting_current_skin self) (setting_tray_icon_size self)
          (setting_emotion_system_enabled self)
  else self.

(** The getter and the setter of the [current_skin] property. *)
Definition current_skin (self : t) : string :=
  default "default" (setting_current_skin self).

Definition set_current_skin (self : t) (skin_name : string) : t :=
  mk (thresholds self) (emotion_thresholds self)
     (setting_poll_interval_ms self) (setting_animation_mode self)
     (Some skin_name) (setting_tray_icon_size self)
     (setting_emotion_system_enabled self).

(** The [poll_interval] and [tray_icon_size] properties. *)
Definition poll_interval (self : t) : Z :=
  default 500%Z (setting_poll_interval_ms self).

Definition tray_icon_size (self : t) : Z :=
  default 32%Z (setting_tray_icon_size self).

(** The getter and the setter of the [emotion_system_enabled] property. *)
Definition emotion_system_enabled (self : t) : bool :=
  default true (setting_emotion_system_enabled self).

Definition set_emotion_system_enabled (self : t) (enabled : bool) : t :=
  mk (thresholds self) (emotion_thresholds self)
     (setting_poll_interval_ms self) (setting_animation_mode self)
     (setting_current_skin self) (setting_tray_icon_size self)
     (Some enabled).

(** [get_available_emotions()], as the set of the names. *)
Definition get_available_emotions (self : t) : gset string :=
  dom (get_emotion_thresholds self).

End ConfigManager.

(** ** main.py: class TuxTrayApp *)

Module TuxTrayApp.

(** The text [_update_tooltip] builds, by its kind and the numbers it
    prints: the mood with the overall stress, or one metric with one
    decimal. *)
Inductive StatsText :=
| Mood (emotion : string) (overall_stress : Q)
| CpuText (v : Q)
| RamText (v : Q)
| NetworkText (v : Q)
| Monitoring.

(** The parts of the application that a poll touches. The tooltip of the
    tray icon is kept as the mode named in its first line and the text of
    its second; [tray_icon] tells whether the tray manager has an icon. The
    [current_skin] setting, which the engine writes, is the engine's
    [config_current_skin]. *)
Record t := mk {
  config_manager : ConfigManager.t;
  system_monitor : SystemMonitor.Monitor;
  animation_engine : AnimationEngine.t;
  tray_icon : bool;
  tooltip : option (string * StatsText)
}.

(** [_update_tooltip(stats, mode)] followed by
    [TrayManager.update_tooltip(stats_text)]. *)
Definition _update_tooltip (self : t) (stats : SystemMonitor.SystemStats)
    (mode : string) : t :=
  let stats_text :=
    if decide (mode = "emotion") then
      let emotion_thresholds :=
        ConfigManager.get_emotion_thresholds (config_manager self) in
      let analysis :=
        SystemMonitor.get_emotion_analysis stats emotion_thresholds in
      Mood (SystemMonitor.emotion analysis)
           (SystemMonitor.overall_stress analysis)
    else if decide (mode = "cpu") then
      CpuText (Num.round1 (SystemMonitor.cpu_percent stats))
    else if decide (mode = "ram") then
      RamText (Num.round1 (SystemMonitor.ram_percent stats))
    else if decide (mode = "network") then
      NetworkText (Num.round1 (SystemMonitor.network_kbps stats))
    else Monitoring in
  if tray_icon self
  then mk (config_manager self) (system_monitor self) (animation_engine self)
          (tray_icon self)
          (Some (ConfigManager.animation_mode (config_manager self), stats_text))
  else self.

(** [update_system_stats()], given what the collaborators answer to the
    sampler and the clock a [set_animation] would read. *)
Definition update_system_stats (self : t) (r : SystemMonitor.Readings)
    (now : Z) : outcome t :=
  let '(stats, monitor) :=
    SystemMonitor.get_system_stats (system_monitor self) r in
  let self := mk (config_manager self) monitor (animation_engine self)
                 (tray_icon self) (tooltip self) in
  let mode := ConfigManager.animation_mode (config_manager self) in
  let new_state :=
    if bool_decide (mode = "emotion")
       && ConfigManager.emotion_system_enabled (config_manager self)
    then
      let emotion_thresholds :=
        ConfigManager.get_emotion_thresholds (config_manager self) in
      SystemMonitor.determine_emotion_state stats emotion_thresholds
    else
      let thresholds :=
        ConfigManager.get_thresholds (config_manager self) mode in
      SystemMonitor.determine_animation_state stats mode thresholds in
  self ←
    (if decide (new_state <>
                AnimationEngine.current_animation_name (animation_engine self))
     then
       r ← AnimationEngine.set_animation (animation_engine self) new_state now;
       Returns (mk (config_manager self) (system_monitor self) (snd r)
                   (tray_icon self) (tooltip self))
     else Returns self);
  Returns (_update_tooltip self stats mode).

(** A series of polls, each with the collaborators' answers and the
    clock. *)
Fixpoint poll_series (self : t) (ticks : list (SystemMonitor.Readings * Z))
    : outcome t :=
  match ticks with
  | [] => Returns self
  | (r, now) :: later =>
      self ← update_system_stats self r now; poll_series self later
  end.

End TuxTrayApp.

(** * Vocabulary of the properties *)

Section ClassifierRules.

Import SystemMonitor.

Implicit Types (stats : SystemStats) (cfg : gmap string EmotionConfig).

(** The five labels of the composite mode. *)
Definition emotion_labels : list string :=
  ["calm"; "active"; "busy"; "stressed"; "overloaded"].

(** The three labels of the single-metric modes. *)
Definition legacy_labels : list string := ["idle"; "walk"; "run"].

(** The cutoff a rule reads: the configured one, else the built-in one. *)
Definition cutoff cfg (state key : string) (builtin : Q) : Q :=
  get (cutoffs (get_config cfg state)) key builtin.

(** Rule 1: any critical cutoff is reached. *)
Definition overloaded_condition stats cfg : Prop :=
  (cutoff cfg "overloaded" "cpu_critical" 90 <= cpu_percent stats)%Q \/
  (cutoff cfg "overloaded" "ram_critical" 90 <= ram_percent stats)%Q \/
  (cutoff cfg "overloaded" "network_critical_kbps" 2000 <= network_kbps stats)%Q \/
  (cutoff cfg "overloaded" "any_critical_threshold" 85 <= cpu_percent stats)%Q \/
  (cutoff cfg "overloaded" "any_critical_threshold" 85 <= ram_percent stats)%Q.

(** Rule 2: at least two of the three metrics reach their high cutoff. *)
Definition stressed_condition stats cfg : Prop :=
  let cpu_high := (cutoff cfg "stressed" "cpu_high" 70 <= cpu_percent stats)%Q in
  let ram_high := (cutoff cfg "stressed" "ram_high" 75 <= ram_percent stats)%Q in
  let network_high :=
    (cutoff cfg "stressed" "network_high_kbps" 800 <= network_kbps stats)%Q in
  (cpu_high /\ ram_high) \/ (cpu_high /\ network_high) \/ (ram_high /\ network_high).

(** Rule 3: one metric reaches the shared cutoff, ten times it for the
    network. *)
Definition busy_condition stats cfg : Prop :=
  let single := cutoff cfg "busy" "single_resource_threshold" 60 in
  (single <= cpu_percent stats)%Q \/
  (single <= ram_percent stats)%Q \/
  (single * 10 <= network_kbps stats)%Q.

(** Rule 4: every metric is at or below its calm bound. *)
Definition calm_condition stats cfg : Prop :=
  (cpu_percent stats <= cutoff cfg "calm" "cpu_max" 20)%Q /\
  (ram_percent stats <= cutoff cfg "calm" "ram_max" 30)%Q /\
  (network_kbps stats <= cutoff cfg "calm" "network_max_kbps" 50)%Q.

(** Position of a label in the order idle < walk < run. *)
Definition legacy_rank (label : string) : nat :=
  if decide (label = "run") then 2
  else if decide (label = "walk") then 1
  else 0.

(** The metric a single-metric mode looks at. *)
Definition selected_usage (mode : string) stats : Q :=
  if decide (mode = "cpu") then cpu_percent stats
  else if decide (mode = "ram") then ram_percent stats
  else network_kbps stats.

(** The idle and walk cutoffs a single-metric mode reads. *)
Definition idle_cutoff (mode : string) (t : Thresholds) : Q :=
  if decide (mode = "cpu") then get (legacy t) "idle" 30
  else if decide (mode = "ram") then get (legacy t) "idle" 40
  else get (legacy t) "idle_kbps" 100.

Definition walk_cutoff (mode : string) (t : Thresholds) : Q :=
  if decide (mode = "cpu") then get (legacy t) "walk" 80
  else if decide (mode = "ram") then get (legacy t) "walk" 85
  else get (legacy t) "walk_kbps" 1000.

Definition legacy_mode (mode : string) : Prop :=
  mode = "cpu" \/ mode = "ram" \/ mode = "network".

(** A contradictory configuration: the bounds of calm lie above the
    critical cutoffs. *)
Definition contradictory_config : gmap string EmotionConfig :=
  {[ "calm" :=
       {| cutoffs := {[ "cpu_max" := 100%Q; "ram_max" := 100%Q;
                        "network_max_kbps" := 5000%Q ]};
          description := None |} ]}.

(** The composite thresholds of [ConfigManager._get_default_config]. *)
Definition default_emotion_thresholds : gmap string EmotionConfig :=
  {[ "calm" := mkEmotionConfig
       {[ "cpu_max" := 20%Q; "ram_max" := 30%Q; "network_max_kbps" := 50%Q ]} None;
     "busy" := mkEmotionConfig {[ "single_resource_threshold" := 60%Q ]} None;
     "stressed" := mkEmotionConfig
       {[ "multiple_resources_threshold" := 70%Q; "cpu_high" := 70%Q;
          "ram_high" := 75%Q; "network_high_kbps" := 800%Q ]} None;
     "overloaded" := mkEmotionConfig
       {[ "cpu_critical" := 90%Q; "ram_critical" := 90%Q;
          "network_critical_kbps" := 2000%Q;
          "any_critical_threshold" := 85%Q ]} None ]}.

(** The cpu thresholds of [ConfigManager._get_default_config]. *)
Definition default_cpu_thresholds : Thresholds :=
  mkThresholds {[ "idle" := 30%Q; "walk" := 80%Q ]} ∅.

End ClassifierRules.

Section SamplerVocabulary.

Import SystemMonitor.

(** The most recent reading above zero in a series of processor-load
    readings, searched from the latest one backwards. *)
Fixpoint last_good (readings : list (outcome Q)) : option Q :=
  match readings with
  | [] => None
  | reading :: later =>
      match last_good later with
      | Some v => Some v
      | None =>
          match reading with
          | Returns v => if Qlt_le_dec 0 v then Some v else None
          | Raises _ => None
          end
      end
  end.

(** A monitor holding the baseline [(sent, recv)] read at [time]. *)
Definition has_baseline (self : Monitor) (sent recv : Z) (time : Q) : Prop :=
  _last_network_io self = Some (sent, recv) /\
  _last_network_time self = Some time.

(** A monitor holding no usable baseline. *)
Definition no_baseline (self : Monitor) : Prop :=
  _last_network_io self = None \/ _last_network_time self = None.

(** The rate formula: bytes moved, in KB, per second elapsed. *)
Definition rate (d_sent d_recv : Z) (dt : Q) : Q :=
  (inject_Z (d_sent + d_recv) / 1024 / dt)%Q.

End SamplerVocabulary.

Section AnalysisVocabulary.

Import SystemMonitor.

(** The mean of the three component stresses, each capped at 100, the
    network scaled by 1/20. *)
Definition mean_stress (stats : SystemStats) : Q :=
  ((Qmin 100 (cpu_percent stats) + Qmin 100 (ram_percent stats)
    + Qmin 100 (network_kbps stats / 20)) / 3)%Q.

(** A number with at most one decimal. *)
Definition one_decimal (x : Q) : Prop :=
  exists n : Z, (x == inject_Z n / 10)%Q.

Definition names_cpu (s : Stressor) : bool :=
  match s with HighCPU _ => true | _ => false end.

Definition names_ram (s : Stressor) : bool :=
  match s with HighRAM _ => true | _ => false end.

Definition names_network (s : Stressor) : bool :=
  match s with HighNetwork _ => true | _ => false end.

End AnalysisVocabulary.

Section SchedulerVocabulary.

(** The frame index of a sequence is a position in its frame list. *)
Definition valid_index (a : Animation.t) : Prop :=
  (0 <= Animation.current_frame a
     < Z.of_nat (length (Animation.frames a)))%Z.

(** The object the current skin's catalog holds under a state name. *)
Definition catalog_lookup (e : AnimationEngine.t) (animation_name : string)
    : option nat :=
  match AnimationEngine.animations e !! AnimationEngine.current_skin e with
  | Some skin_animations => skin_animations !! animation_name
  | None => None
  end.

(** Every object of the store has a valid frame index, and the catalog
    and the active reference point into the store. *)
Definition engine_inv (e : AnimationEngine.t) : Prop :=
  Forall valid_index (AnimationEngine.heap e) /\
  (forall skin skin_animations animation_name ref,
     AnimationEngine.animations e !! skin = Some skin_animations ->
     skin_animations !! animation_name = Some ref ->
     (ref < length (AnimationEngine.heap e))%nat) /\
  (forall ref,
     AnimationEngine.current_animation e = Some ref ->
     (ref < length (AnimationEngine.heap e))%nat).

(** An engine built for a skin with a two-frame "idle" sequence and a
    "walk" entry without frames. *)
Definition demo_engine : AnimationEngine.t :=
  AnimationEngine.__init__ "default"
    (Some [AnimationEngine.mkAsset "idle" [Pixmap 0; Pixmap 1] (Some 24%Z) None;
           AnimationEngine.mkAsset "walk" [] None None]).

End SchedulerVocabulary.

Section ClassifierVocabulary.

Import SystemMonitor.

(** Position of a label in the order
    calm < active < busy < stressed < overloaded. *)
Definition emotion_rank (label : string) : nat :=
  if decide (label = "overloaded") then 4
  else if decide (label = "stressed") then 3
  else if decide (label = "busy") then 2
  else if decide (label = "active") then 1
  else 0.

(** No metric of the first sample is above that of the second. *)
Definition sample_le (stats1 stats2 : SystemStats) : Prop :=
  (cpu_percent stats1 <= cpu_percent stats2)%Q /\
  (ram_percent stats1 <= ram_percent stats2)%Q /\
  (network_kbps stats1 <= network_kbps stats2)%Q.

(** The cutoffs [determine_emotion_state] reads: sub-dictionary, key and
    built-in value. *)
Definition consulted_cutoffs : list (string * string * Q) :=
  [("overloaded", "cpu_critical", 90%Q);
   ("overloaded", "ram_critical", 90%Q);
   ("overloaded", "network_critical_kbps", 2000%Q);
   ("overloaded", "any_critical_threshold", 85%Q);
   ("stressed", "cpu_high", 70%Q);
   ("stressed", "ram_high", 75%Q);
   ("stressed", "network_high_kbps", 800%Q);
   ("busy", "single_resource_threshold", 60%Q);
   ("calm", "cpu_max", 20%Q);
   ("calm", "ram_max", 30%Q);
   ("calm", "network_max_kbps", 50%Q)].

(** A key that [determine_emotion_state] reads in a sub-dictionary. *)
Definition consulted (state key : string) : Prop :=
  exists builtin, In (state, key, builtin) consulted_cutoffs.

(** A configuration with one more entry in one of its sub-dictionaries. *)
Definition with_cutoff (cfg : gmap string EmotionConfig) (state key : string)
    (v : Q) : gmap string EmotionConfig :=
  <[state := {| cutoffs := <[key := v]> (cutoffs (get_config cfg state));
                description := description (get_config cfg state) |}]> cfg.

(** A sample without negative metrics. *)
Definition nonnegative (stats : SystemStats) : Prop :=
  (0 <= cpu_percent stats)%Q /\ (0 <= ram_percent stats)%Q /\
  (0 <= network_kbps stats)%Q.

(** A number between 0 and 100. *)
Definition percentage (x : Q) : Prop := (0 <= x <= 100)%Q.

End ClassifierVocabulary.

Section MonitorVocabulary.

Import SystemMonitor.

(** A read that delivers counters. *)
Definition counters (sent recv : Z) : net_io_reading := Returns (Some (sent, recv)).

(** A read that delivers no counters: [None] or an exception. *)
Definition failed_read (net : net_io_reading) : Prop :=
  match net with
  | Returns (Some _) => False
  | _ => True
  end.

(** Successful reads [(sent, recv, time)], as samples of [net_polls]. *)
Definition good_samples (reads : list (Z * Z * Q)) : list (net_io_reading * Q) :=
  map (fun '(sent, recv, time) => (counters sent recv, time)) reads.

(** Reads taken at strictly increasing times, the first after [time0], with
    counters whose sum never goes down, starting from [sent0 + recv0]. *)
Fixpoint steady (sent0 recv0 : Z) (time0 : Q) (reads : list (Z * Z * Q)) : Prop :=
  match reads with
  | [] => True
  | (sent, recv, time) :: later =>
      (time0 < time)%Q /\ (sent0 + recv0 <= sent + recv)%Z /\
      steady sent recv time later
  end.

(** The kilobytes accounted for by rates held over the intervals between
    the read times, the first interval starting at [time0]. *)
Fixpoint volume (time0 : Q) (rates : list Q) (reads : list (Z * Z * Q)) : Q :=
  match rates, reads with
  | kbps :: rates, (_, _, time) :: later =>
      (kbps * (time - time0) + volume time rates later)%Q
  | _, _ => 0%Q
  end.

(** The sum of the two counters at the last read, [total0] without reads. *)
Fixpoint last_total (total0 : Z) (reads : list (Z * Z * Q)) : Z :=
  match reads with
  | [] => total0
  | (sent, recv, _) :: later => last_total (sent + recv)%Z later
  end.

End MonitorVocabulary.

Section TimingVocabulary.

(** The time one frame lasts at [fps] frames per second, in milliseconds:
    the exact quotient 1000 / fps. *)
Definition frame_period (fps : Z) : Q := (1000 / inject_Z fps)%Q.

(** Clock readings each at least [duration] after the one before, the first
    at least [duration] after [last]. *)
Fixpoint due_chain (last duration : Z) (times : list Z) : Prop :=
  match times with
  | [] => True
  | t :: later => (duration <= t - last)%Z /\ due_chain t duration later
  end.

End TimingVocabulary.

Section EngineVocabulary.

(** The engine as [AnimationEngine.__init__] has it before it loads the
    configured skin. *)
Definition blank_engine (configured_skin : string) : AnimationEngine.t :=
  {| AnimationEngine.heap := [];
     AnimationEngine.animations := ∅;
     AnimationEngine.current_skin := "";
     AnimationEngine.current_animation_name := "idle";
     AnimationEngine.current_animation := None;
     AnimationEngine.timer_active := false;
     AnimationEngine.config_current_skin := configured_skin;
     AnimationEngine.frame_changed := [] |}.

(** An engine reached from its constructor by a series of calls. *)
Definition reachable (e : AnimationEngine.t) : Prop :=
  exists configured_skin assets calls,
    AnimationEngine.run (AnimationEngine.__init__ configured_skin assets) calls
    = Returns e.

(** The entries of a skin that come with frames. *)
Definition has_frames (entry : AnimationEngine.Asset) : Prop :=
  AnimationEngine.asset_frames entry <> [].

(** Every skin of the catalog holds a sequence, and every sequence of the
    catalog has frames. *)
Definition catalog_populated (e : AnimationEngine.t) : Prop :=
  forall skin skin_animations,
    AnimationEngine.animations e !! skin = Some skin_animations ->
    skin_animations <> ∅ /\
    forall animation_name ref,
      skin_animations !! animation_name = Some ref ->
      exists a, AnimationEngine.heap e !! ref = Some a /\
                Animation.frames a <> [].

(** Every frame emitted so far is a frame of a stored sequence. *)
Definition emitted_from_store (e : AnimationEngine.t) : Prop :=
  forall frame,
    In frame (AnimationEngine.frame_changed e) ->
    exists ref a,
      AnimationEngine.heap e !! ref = Some a /\ In frame (Animation.frames a).

(** The last frame emitted is the one [get_current_frame] returns; nothing
    was emitted while no sequence is active. *)
Definition display_in_sync (e : AnimationEngine.t) : Prop :=
  match last (AnimationEngine.frame_changed e) with
  | Some frame => AnimationEngine.get_current_frame e = Returns frame
  | None => AnimationEngine.current_animation e = None
  end.

(** The first of the start-up names that the current skin holds. *)
Definition startup_choice (e : AnimationEngine.t) : option string :=
  match catalog_lookup e "calm", catalog_lookup e "active",
        catalog_lookup e "idle" with
  | Some _, _, _ => Some "calm"
  | None, Some _, _ => Some "active"
  | None, None, Some _ => Some "idle"
  | None, None, None => None
  end.

(** A call that does not load a skin. *)
Definition loads_nothing (c : AnimationEngine.call) : Prop :=
  match c with
  | AnimationEngine.SetSkin _ _ _ | AnimationEngine.ReloadSkin _ _ => False
  | _ => True
  end.

(** The calls of the examples: the timer is started at time 0 and ticks at
    time 100. *)
Definition demo_calls : list AnimationEngine.call :=
  [AnimationEngine.Start 0; AnimationEngine.UpdateFrame 100].

(** The engine of the examples after those calls. *)
Definition demo_started : AnimationEngine.t :=
  match AnimationEngine.run demo_engine demo_calls with
  | Returns e => e
  | Raises _ => demo_engine
  end.

End EngineVocabulary.

Section ConfigVocabulary.

(** The modes the setter of [animation_mode] accepts. *)
Definition valid_modes : list string := ["cpu"; "ram"; "network"; "emotion"].

(** An application around the engine of the examples, with the default
    configuration. *)
Definition demo_app : TuxTrayApp.t :=
  {| TuxTrayApp.config_manager := ConfigManager._get_default_config;
     TuxTrayApp.system_monitor := SystemMonitor.mkMonitor None None 0;
     TuxTrayApp.animation_engine := demo_started;
     TuxTrayApp.tray_icon := true;
     TuxTrayApp.tooltip := None |}.

End ConfigVocabulary.

(** * Properties *)

(** ** Comparisons *)

Section Comparisons.

Lemma geq_true (a b : Q) : Num.geq a b = true <-> (b <= a)%Q.
Proof. unfold Num.geq. apply Qle_bool_iff. Qed.

Lemma geq_false (a b : Q) : Num.geq a b = false <-> (a < b)%Q.
Proof.
  unfold Num.geq. split.
  - intros H. apply Qnot_le_lt. intros Hle.
    apply Qle_bool_iff in Hle. congruence.
  - intros H. destruct (Qle_bool b a) eqn:E; [|reflexivity].
    apply Qle_bool_iff in E. exfalso. exact (Qlt_not_le _ _ H E).
Qed.

Lemma leq_true (a b : Q) : Num.leq a b = true <-> (a <= b)%Q.
Proof. unfold Num.leq. apply Qle_bool_iff. Qed.

Lemma gt_true (a b : Q) : Num.gt a b = true <-> (b < a)%Q.
Proof.
  unfold Num.gt. rewrite negb_true_iff. exact (geq_false b a).
Qed.

Lemma gt_false (a b : Q) : Num.gt a b = false <-> (a <= b)%Q.
Proof.
  unfold Num.gt. rewrite negb_false_iff. exact (geq_true b a).
Qed.

End Comparisons.

(** A strict and a reverse weak inequality among the hypotheses. *)
Ltac order_contradiction :=
  match goal with
  | H1 : (?a < ?b)%Q, H2 : (?b <= ?a)%Q |- _ => exact (Qlt_not_le _ _ H1 H2)
  end.

(** ** The state classifier *)

Section Classifier.

Import SystemMonitor.

Implicit Types (stats : SystemStats) (cfg : gmap string EmotionConfig).

Lemma overloaded_test stats cfg :
  let o := cutoffs (get_config cfg "overloaded") in
  Num.geq (cpu_percent stats) (get o "cpu_critical" 90)
  || Num.geq (ram_percent stats) (get o "ram_critical" 90)
  || Num.geq (network_kbps stats) (get o "network_critical_kbps" 2000)
  || Num.geq (cpu_percent stats) (get o "any_critical_threshold" 85)
  || Num.geq (ram_percent stats) (get o "any_critical_threshold" 85) = true
  <-> overloaded_condition stats cfg.
Proof.
  cbv zeta. unfold overloaded_condition, cutoff.
  rewrite !orb_true_iff, !geq_true. tauto.
Qed.

Lemma stressed_test stats cfg :
  let s := cutoffs (get_config cfg "stressed") in
  let n0 := 0%nat in
  let n1 := if Num.geq (cpu_percent stats) (get s "cpu_high" 70)
            then (n0 + 1)%nat else n0 in
  let n2 := if Num.geq (ram_percent stats) (get s "ram_high" 75)
            then (n1 + 1)%nat else n1 in
  let n3 := if Num.geq (network_kbps stats) (get s "network_high_kbps" 800)
            then (n2 + 1)%nat else n2 in
  (2 <=? n3)%nat = true <-> stressed_condition stats cfg.
Proof.
  cbv zeta. unfold stressed_condition, cutoff.
  destruct (Num.geq (cpu_percent stats) _) eqn:Ec;
  destruct (Num.geq (ram_percent stats) _) eqn:Er;
  destruct (Num.geq (network_kbps stats) _) eqn:En;
  cbn;
  repeat match goal with
  | H : Num.geq _ _ = true |- _ => apply geq_true in H
  | H : Num.geq _ _ = false |- _ => apply geq_false, Qlt_not_le in H
  end;
  split; try tauto; try discriminate.
Qed.

Lemma busy_test stats cfg :
  let single := get (cutoffs (get_config cfg "busy")) "single_resource_threshold" 60 in
  Num.geq (cpu_percent stats) single
  || Num.geq (ram_percent stats) single
  || Num.geq (network_kbps stats) (single * 10) = true
  <-> busy_condition stats cfg.
Proof.
  cbv zeta. unfold busy_condition, cutoff.
  rewrite !orb_true_iff, !geq_true. tauto.
Qed.

Lemma calm_test stats cfg :
  let c := cutoffs (get_config cfg "calm") in
  Num.leq (cpu_percent stats) (get c "cpu_max" 20)
  && Num.leq (ram_percent stats) (get c "ram_max" 30)
  && Num.leq (network_kbps stats) (get c "network_max_kbps" 50) = true
  <-> calm_condition stats cfg.
Proof.
  cbv zeta. unfold calm_condition, cutoff.
  rewrite !andb_true_iff, !leq_true. tauto.
Qed.

(** The cascade, one rule per case. *)
Lemma emotion_cases stats cfg :
  (overloaded_condition stats cfg /\
     determine_emotion_state stats cfg = "overloaded") \/
  (~ overloaded_condition stats cfg /\ stressed_condition stats cfg /\
     determine_emotion_state stats cfg = "stressed") \/
  (~ overloaded_condition stats cfg /\ ~ stressed_condition stats cfg /\
     busy_condition stats cfg /\
     determine_emotion_state stats cfg = "busy") \/
  (~ overloaded_condition stats cfg /\ ~ stressed_condition stats cfg /\
     ~ busy_condition stats cfg /\ calm_condition stats cfg /\
     determine_emotion_state stats cfg = "calm") \/
  (~ overloaded_condition stats cfg /\ ~ stressed_condition stats cfg /\
     ~ busy_condition stats cfg /\ ~ calm_condition stats cfg /\
     determine_emotion_state stats cfg = "active").
Proof.
  pose proof (overloaded_test stats cfg) as Ho.
  pose proof (stressed_test stats cfg) as Hs.
  pose proof (busy_test stats cfg) as Hb.
  pose proof (calm_test stats cfg) as Hc.
  cbv zeta in Ho, Hs, Hb, Hc.
  unfold determine_emotion_state. cbv zeta.
  match type of Ho with (?b = true <-> _) => destruct b end.
  { left. split; [apply Ho|]; reflexivity. }
  assert (~ overloaded_condition stats cfg) as No
    by (intros H; apply Ho in H; discriminate).
  right.
  match type of Hs with (?b = true <-> _) => destruct b end.
  { left. split; [assumption|]. split; [apply Hs|]; reflexivity. }
  assert (~ stressed_condition stats cfg) as Ns
    by (intros H; apply Hs in H; discriminate).
  right.
  match type of Hb with (?b = true <-> _) => destruct b end.
  { left. do 2 (split; [assumption|]). split; [apply Hb|]; reflexivity. }
  assert (~ busy_condition stats cfg) as Nb
    by (intros H; apply Hb in H; discriminate).
  right.
  match type of Hc with (?b = true <-> _) => destruct b end.
  { left. do 3 (split; [assumption|]). split; [apply Hc|]; reflexivity. }
  assert (~ calm_condition stats cfg) as Nc
    by (intros H; apply Hc in H; discriminate).
  right. do 4 (split; [assumption|]). reflexivity.
Qed.

(** C1. Composite-mode classification returns one of the five labels
    calm, active, busy, stressed, overloaded for every sample and every
    threshold configuration, and the rules form a priority cascade in which
    the first rule that matches decides: a sample that meets the overloaded
    condition is labelled "overloaded" whatever else it meets (the bounds
    of calm included), stressed is decided only when overloaded fails, busy
    only when both fail, calm only when all three fail, and active is what
    remains. *)
Theorem determine_emotion_state_cascade stats cfg :
  let label := determine_emotion_state stats cfg in
  (In label emotion_labels /\ NoDup emotion_labels) /\
  (overloaded_condition stats cfg -> label = "overloaded") /\
  (~ overloaded_condition stats cfg -> stressed_condition stats cfg ->
     label = "stressed") /\
  (~ overloaded_condition stats cfg -> ~ stressed_condition stats cfg ->
     busy_condition stats cfg -> label = "busy") /\
  (~ overloaded_condition stats cfg -> ~ stressed_condition stats cfg ->
     ~ busy_condition stats cfg -> calm_condition stats cfg ->
     label = "calm") /\
  (~ overloaded_condition stats cfg -> ~ stressed_condition stats cfg ->
     ~ busy_condition stats cfg -> ~ calm_condition stats cfg ->
     label = "active").
Proof.
  cbv zeta.
  split.
  { split.
    - unfold emotion_labels.
      destruct (emotion_cases stats cfg)
        as [(_ & ->) | [(_ & _ & ->) | [(_ & _ & _ & ->)
            | [(_ & _ & _ & _ & ->) | (_ & _ & _ & _ & ->)]]]];
        cbn; tauto.
    - unfold emotion_labels.
      repeat (apply NoDup_cons_2; [ rewrite !list_elem_of_In; cbn; intuition discriminate |]).
      apply NoDup_nil_2. }
  destruct (emotion_cases stats cfg)
    as [(Ho & ->) | [(No & Hs & ->) | [(No & Ns & Hb & ->)
        | [(No & Ns & Nb & Hc & ->) | (No & Ns & Nb & Nc & ->)]]]];
    repeat split; intros; solve [reflexivity | contradiction].
Qed.

Lemma determine_emotion_state_cascade_witness :
  calm_condition (mkStats 95 10 5 0) contradictory_config /\
  determine_emotion_state (mkStats 95 10 5 0) contradictory_config
    = "overloaded".
Proof.
  split.
  - vm_compute. repeat split; discriminate.
  - apply (proj1 (proj2 (determine_emotion_state_cascade
                           (mkStats 95 10 5 0) contradictory_config))).
    left. vm_compute. discriminate.
Defined.

Lemma usage_state_cases (usage idle walk : Q) :
  ((walk <= usage)%Q /\ usage_state usage idle walk = "run") \/
  ((usage < walk)%Q /\ (idle <= usage)%Q /\
     usage_state usage idle walk = "walk") \/
  ((usage < walk)%Q /\ (usage < idle)%Q /\
     usage_state usage idle walk = "idle").
Proof.
  unfold usage_state.
  destruct (Num.geq usage walk) eqn:Ew.
  - left. split; [apply geq_true, Ew | reflexivity].
  - right. apply geq_false in Ew.
    destruct (Num.geq usage idle) eqn:Ei.
    + left. split; [exact Ew|]. split; [apply geq_true, Ei | reflexivity].
    + right. split; [exact Ew|]. split; [apply geq_false, Ei | reflexivity].
Qed.

Lemma determine_animation_state_legacy stats mode t :
  legacy_mode mode ->
  determine_animation_state stats mode t =
  usage_state (selected_usage mode stats) (idle_cutoff mode t) (walk_cutoff mode t).
Proof.
  unfold legacy_mode, determine_animation_state, selected_usage,
    idle_cutoff, walk_cutoff.
  intros [-> | [-> | ->]]; reflexivity.
Qed.

(** C3. In a single-metric mode (cpu, ram or network) the label follows
    the rule: the selected usage at or above the walk cutoff gives "run",
    otherwise at or above the idle cutoff gives "walk", otherwise "idle";
    the label is always one of idle, walk, run; and for fixed thresholds a
    larger usage never gives a label earlier in the order
    idle < walk < run. *)
Theorem legacy_classification_monotone (mode : string) (t : Thresholds) :
  legacy_mode mode ->
  (forall stats,
     let usage := selected_usage mode stats in
     let label := determine_animation_state stats mode t in
     In label legacy_labels /\
     ((walk_cutoff mode t <= usage)%Q -> label = "run") /\
     ((usage < walk_cutoff mode t)%Q -> (idle_cutoff mode t <= usage)%Q ->
        label = "walk") /\
     ((usage < walk_cutoff mode t)%Q -> (usage < idle_cutoff mode t)%Q ->
        label = "idle")) /\
  (forall stats1 stats2,
     (selected_usage mode stats1 <= selected_usage mode stats2)%Q ->
     (legacy_rank (determine_animation_state stats1 mode t) <=
      legacy_rank (determine_animation_state stats2 mode t))%nat).
Proof.
  intros Hmode. split.
  - intros stats. cbv zeta.
    rewrite (determine_animation_state_legacy stats mode t Hmode).
    destruct (usage_state_cases (selected_usage mode stats)
                (idle_cutoff mode t) (walk_cutoff mode t))
      as [(Hw & ->) | [(Hw & Hi & ->) | (Hw & Hi & ->)]];
      (split; [cbn; tauto|]);
      repeat split; intros;
      solve [ reflexivity | exfalso; order_contradiction ].
  - intros stats1 stats2 Hle.
    rewrite !(determine_animation_state_legacy _ mode t Hmode).
    destruct (usage_state_cases (selected_usage mode stats1)
                (idle_cutoff mode t) (walk_cutoff mode t))
      as [(Hw1 & ->) | [(Hw1 & Hi1 & ->) | (Hw1 & Hi1 & ->)]];
    destruct (usage_state_cases (selected_usage mode stats2)
                (idle_cutoff mode t) (walk_cutoff mode t))
      as [(Hw2 & ->) | [(Hw2 & Hi2 & ->) | (Hw2 & Hi2 & ->)]];
      try (vm_compute; lia); exfalso.
    + apply (Qlt_not_le _ _ Hw2). eapply Qle_trans; eassumption.
    + apply (Qlt_not_le _ _ Hw2). eapply Qle_trans; eassumption.
    + apply (Qlt_not_le _ _ Hi2). eapply Qle_trans; eassumption.
Qed.

Lemma legacy_classification_monotone_witness :
  determine_animation_state (mkStats 50 0 0 0) "cpu"
    (mkThresholds {[ "idle" := 30%Q; "walk" := 80%Q ]} ∅) = "walk" /\
  (legacy_rank (determine_animation_state (mkStats 50 0 0 0) "cpu"
                  (mkThresholds {[ "idle" := 30%Q; "walk" := 80%Q ]} ∅)) <=
   legacy_rank (determine_animation_state (mkStats 90 0 0 0) "cpu"
                  (mkThresholds {[ "idle" := 30%Q; "walk" := 80%Q ]} ∅)))%nat.
Proof.
  pose proof (legacy_classification_monotone "cpu"
                (mkThresholds {[ "idle" := 30%Q; "walk" := 80%Q ]} ∅)
                (or_introl eq_refl)) as [Hrule Hmono].
  split.
  - apply (proj1 (proj2 (proj2 (Hrule (mkStats 50 0 0 0))))).
    + vm_compute. reflexivity.
    + vm_compute. discriminate.
  - apply Hmono. vm_compute. discriminate.
Defined.

(** The four scenarios of the default configuration. *)
Example scenario_overloaded :
  determine_emotion_state (mkStats 95 10 5 0) default_emotion_thresholds
  = "overloaded".
Proof. vm_compute. reflexivity. Qed.

Example scenario_stressed :
  determine_emotion_state (mkStats 75 80 5 0) default_emotion_thresholds
  = "stressed".
Proof. vm_compute. reflexivity. Qed.

Example scenario_calm :
  determine_emotion_state (mkStats 15 20 10 0) default_emotion_thresholds
  = "calm".
Proof. vm_compute. reflexivity. Qed.

Example scenario_legacy_walk :
  determine_animation_state (mkStats 50 0 0 0) "cpu" default_cpu_thresholds
  = "walk".
Proof. vm_compute. reflexivity. Qed.

(** C10. With a mode string other than cpu, ram, network and emotion the
    label is "idle", whatever the sample and the thresholds are. *)
Theorem unknown_mode_is_idle stats (mode : string) (t : Thresholds) :
  mode <> "cpu" -> mode <> "ram" -> mode <> "network" -> mode <> "emotion" ->
  determine_animation_state stats mode t = "idle".
Proof.
  intros Hc Hr Hn He. unfold determine_animation_state.
  repeat (destruct (decide _); [contradiction|]). reflexivity.
Qed.

Lemma unknown_mode_is_idle_witness :
  determine_animation_state (mkStats 99 99 9999 0) "disk"
    (mkThresholds {[ "idle" := 1%Q ]} contradictory_config) = "idle".
Proof.
  apply unknown_mode_is_idle; discriminate.
Defined.

End Classifier.

(** ** The telemetry sampler *)

Section Sampler.

Import SystemMonitor.

Implicit Types (self : Monitor).

Lemma max_zero_nonneg (x : Q) : (0 <= Num.max 0 x)%Q.
Proof.
  unfold Num.max. destruct (Num.gt x 0) eqn:E.
  - apply gt_true in E. apply Qlt_le_weak, E.
  - apply Qle_refl.
Qed.

Lemma max_zero_id (x : Q) : (0 <= x)%Q -> (Num.max 0 x == x)%Q.
Proof.
  intros H. unfold Num.max. destruct (Num.gt x 0) eqn:E.
  - reflexivity.
  - apply gt_false in E. apply Qle_antisym; assumption.
Qed.

(** What a call does when a baseline is stored and counters are read. *)
Lemma get_network_usage_with_baseline self sent0 recv0 time0 sent recv time :
  has_baseline self sent0 recv0 time0 ->
  get_network_usage self (Returns (Some (sent, recv))) time =
  (if Num.gt (time - time0) 0
   then Num.max 0 (inject_Z ((sent - sent0) + (recv - recv0)) / 1024
                   / (time - time0))
   else 0%Q,
   {| _last_network_io := Some (sent, recv);
      _last_network_time := Some time;
      _cpu_percent_cache := _cpu_percent_cache self |}).
Proof.
  intros [Hio Ht]. unfold get_network_usage. rewrite Hio, Ht.
  destruct (Num.gt (time - time0) 0); reflexivity.
Qed.

Lemma get_network_usage_without_baseline self net time :
  no_baseline self -> get_network_usage self net time = (0%Q, self).
Proof.
  intros H. unfold get_network_usage.
  destruct net as [[[sent recv]|]|e]; try reflexivity.
  destruct H as [-> | H]; [reflexivity|].
  rewrite H. destruct (_last_network_io self) as [[? ?]|]; reflexivity.
Qed.

Lemma get_network_usage_nonneg self net time :
  (0 <= fst (get_network_usage self net time))%Q.
Proof.
  unfold get_network_usage.
  destruct net as [[[sent recv]|]|e]; cbn; try apply Qle_refl.
  destruct (_last_network_io self) as [[sent0 recv0]|]; cbn;
    try apply Qle_refl.
  destruct (_last_network_time self) as [time0|]; cbn; try apply Qle_refl.
  destruct (Num.gt _ _); cbn; [apply max_zero_nonneg | apply Qle_refl].
Qed.

Lemma rate_nonneg (d_sent d_recv : Z) (dt : Q) :
  (0 <= d_sent + d_recv)%Z -> (0 < dt)%Q -> (0 <= rate d_sent d_recv dt)%Q.
Proof.
  intros Hb Ht. unfold rate, Qdiv.
  apply Qmult_le_0_compat; [apply Qmult_le_0_compat|].
  - change 0%Q with (inject_Z 0). rewrite <- Zle_Qle. exact Hb.
  - discriminate.
  - apply Qinv_le_0_compat, Qlt_le_weak, Ht.
Qed.

Lemma elapsed_positive (time0 time : Q) :
  (time0 < time)%Q -> Num.gt (time - time0) 0 = true.
Proof.
  intros H. apply gt_true. lra.
Qed.

Lemma elapsed_degenerate (time0 time : Q) :
  (time <= time0)%Q -> Num.gt (time - time0) 0 = false.
Proof.
  intros H. apply gt_false. lra.
Qed.

Lemma rate_after_baseline self sent0 recv0 time0 sent recv time :
  has_baseline self sent0 recv0 time0 ->
  (time0 < time)%Q ->
  (0 <= (sent - sent0) + (recv - recv0))%Z ->
  (fst (get_network_usage self (Returns (Some (sent, recv))) time) ==
   rate (sent - sent0) (recv - recv0) (time - time0))%Q.
Proof.
  intros Hb Ht Hd.
  rewrite (get_network_usage_with_baseline _ _ _ _ _ _ _ Hb).
  rewrite (elapsed_positive _ _ Ht). cbn [fst].
  apply max_zero_id. apply rate_nonneg; [exact Hd|].
  apply gt_true, elapsed_positive, Ht.
Qed.

(** The first sample after a successful construction is not 0 in
    general: with counters (0, 0) read at time 0 by the constructor and
    (1024, 1024) read one second later, it is 2 KB/s. *)
Lemma first_sample_rate_counterexample :
  ~ (forall net0 time0 self net time,
       __init__ net0 time0 = Returns self ->
       (fst (get_network_usage self net time) == 0)%Q).
Proof.
  intros H.
  specialize (H (Returns (Some (0, 0)%Z)) 0%Q _
                (Returns (Some (1024, 1024)%Z)) 1%Q eq_refl).
  vm_compute in H. discriminate H.
Qed.

(** C2, amended. The throughput is 0, and the monitor is left as it was,
    whenever no baseline is stored; the constructor stores the counters it
    reads as the baseline, so the first sample after it is already a rate
    against that reading; a sample taken a time dt > 0 after the stored
    baseline, with the counters advanced by d_sent and d_recv in total not
    below zero, equals (d_sent + d_recv) / 1024 / dt; and no sample is ever
    negative. *)
Theorem network_rate_from_baseline :
  (forall self net time,
     no_baseline self -> get_network_usage self net time = (0%Q, self)) /\
  (forall sent0 recv0 time0,
     exists self,
       __init__ (Returns (Some (sent0, recv0))) time0 = Returns self /\
       has_baseline self sent0 recv0 time0) /\
  (forall self sent0 recv0 time0 sent recv time,
     has_baseline self sent0 recv0 time0 ->
     (time0 < time)%Q ->
     (0 <= (sent - sent0) + (recv - recv0))%Z ->
     (fst (get_network_usage self (Returns (Some (sent, recv))) time) ==
      rate (sent - sent0) (recv - recv0) (time - time0))%Q) /\
  (forall self net time, (0 <= fst (get_network_usage self net time))%Q).
Proof.
  split; [exact get_network_usage_without_baseline|].
  split.
  { intros sent0 recv0 time0. eexists. split; [reflexivity|].
    split; reflexivity. }
  split; [exact rate_after_baseline | exact get_network_usage_nonneg].
Qed.

Lemma network_rate_from_baseline_witness :
  (fst (get_network_usage (mkMonitor (Some (0, 0)%Z) (Some 0%Q) 0)
          (Returns (Some (1024, 1024)%Z)) 1) == 2)%Q.
Proof.
  rewrite (proj1 (proj2 (proj2 network_rate_from_baseline))
             (mkMonitor (Some (0, 0)%Z) (Some 0%Q) 0) 0%Z 0%Z 0%Q
             1024%Z 1024%Z 1%Q).
  - vm_compute. reflexivity.
  - split; reflexivity.
  - vm_compute. reflexivity.
  - vm_compute. discriminate.
Defined.

(** A monitor whose constructor could not read the counters keeps no
    baseline, also after a call that obtains counters. *)
Lemma baseline_refresh_counterexample :
  ~ (forall net0 time0 self sent recv time,
       __init__ net0 time0 = Returns self ->
       has_baseline
         (snd (get_network_usage self (Returns (Some (sent, recv))) time))
         sent recv time).
Proof.
  intros H.
  destruct (H (Raises OSError) 0%Q _ 10%Z 20%Z 5%Q eq_refl) as [Hio _].
  vm_compute in Hio. discriminate Hio.
Qed.

(** C6, amended. On every call in which counters are obtained while a
    baseline is stored, the stored baseline becomes the new counters and
    the new time, also when the elapsed time is zero or negative; in that
    case the call returns 0, and the next call measures from the refreshed
    baseline. A call on a monitor that stores no baseline returns 0 and
    stores none. *)
Theorem baseline_refreshed_when_present :
  (forall self sent0 recv0 time0 sent recv time,
     has_baseline self sent0 recv0 time0 ->
     let self' :=
       snd (get_network_usage self (Returns (Some (sent, recv))) time) in
     has_baseline self' sent recv time /\
     _cpu_percent_cache self' = _cpu_percent_cache self /\
     ((time <= time0)%Q ->
      fst (get_network_usage self (Returns (Some (sent, recv))) time) = 0%Q /\
      forall sent' recv' time',
        (time < time')%Q ->
        (0 <= (sent' - sent) + (recv' - recv))%Z ->
        (fst (get_network_usage self' (Returns (Some (sent', recv'))) time') ==
         rate (sent' - sent) (recv' - recv) (time' - time))%Q)) /\
  (forall self net time,
     no_baseline self ->
     get_network_usage self net time = (0%Q, self) /\
     no_baseline (snd (get_network_usage self net time))).
Proof.
  split.
  - intros self sent0 recv0 time0 sent recv time Hb. cbv zeta.
    rewrite (get_network_usage_with_baseline _ _ _ _ _ _ _ Hb).
    cbn [fst snd].
    assert (has_baseline
              {| _last_network_io := Some (sent, recv);
                 _last_network_time := Some time;
                 _cpu_percent_cache := _cpu_percent_cache self |}
              sent recv time) as Hb' by (split; reflexivity).
    split; [exact Hb'|]. split; [reflexivity|].
    intros Hle. rewrite (elapsed_degenerate _ _ Hle).
    split; [reflexivity|].
    intros sent' recv' time' Hlt Hd.
    exact (rate_after_baseline _ _ _ _ _ _ _ Hb' Hlt Hd).
  - intros self net time Hn.
    rewrite (get_network_usage_without_baseline _ _ _ Hn).
    split; [reflexivity | exact Hn].
Qed.

Lemma baseline_refreshed_when_present_witness :
  has_baseline
    (snd (get_network_usage (mkMonitor (Some (100, 200)%Z) (Some 7%Q) 0)
            (Returns (Some (150, 260)%Z)) 7))
    150 260 7 /\
  fst (get_network_usage (mkMonitor (Some (100, 200)%Z) (Some 7%Q) 0)
         (Returns (Some (150, 260)%Z)) 7) = 0%Q.
Proof.
  destruct (proj1 baseline_refreshed_when_present
              (mkMonitor (Some (100, 200)%Z) (Some 7%Q) 0)
              100%Z 200%Z 7%Q 150%Z 260%Z 7%Q)
    as (Hb & _ & Hz).
  - split; reflexivity.
  - split; [exact Hb|]. apply Hz. vm_compute. discriminate.
Defined.

Lemma get_cpu_usage_returns_cache self reading :
  fst (get_cpu_usage self reading) =
  _cpu_percent_cache (snd (get_cpu_usage self reading)).
Proof.
  unfold get_cpu_usage. destruct reading as [v|e]; reflexivity.
Qed.

Lemma get_cpu_usage_cache self reading :
  _cpu_percent_cache (snd (get_cpu_usage self reading)) =
  default (_cpu_percent_cache self) (last_good [reading]).
Proof.
  unfold get_cpu_usage. destruct reading as [v|e]; cbn; [|reflexivity].
  destruct (Qlt_le_dec 0 v) as [Hlt | Hle].
  - apply gt_true in Hlt. rewrite Hlt. reflexivity.
  - apply gt_false in Hle. rewrite Hle. reflexivity.
Qed.

Lemma cpu_polls_cache readings : forall self,
  _cpu_percent_cache (cpu_polls self readings) =
  default (_cpu_percent_cache self) (last_good readings).
Proof.
  induction readings as [|reading later IH]; intros self; [reflexivity|].
  unfold cpu_polls in *. cbn [foldl last_good].
  rewrite IH, get_cpu_usage_cache. cbn [last_good].
  destruct (last_good later); reflexivity.
Qed.

Lemma last_good_positive readings v :
  last_good readings = Some v -> (0 < v)%Q /\ In (Returns v) readings.
Proof.
  induction readings as [|reading later IH]; [discriminate|].
  cbn [last_good]. destruct (last_good later) as [w|].
  - intros Hv. injection Hv as <-.
    destruct (IH eq_refl) as [Hpos Hin]. split; [exact Hpos | right; exact Hin].
  - destruct reading as [w|e]; [|discriminate].
    destruct (Qlt_le_dec 0 w) as [Hlt|Hle]; [|discriminate].
    intros Hv. injection Hv as <-. split; [exact Hlt | left; reflexivity].
Qed.

Lemma init_cache net0 time0 self :
  __init__ net0 time0 = Returns self -> _cpu_percent_cache self = 0%Q.
Proof.
  unfold __init__, _init_network_baseline.
  destruct net0 as [[[bytes_sent bytes_recv]|]|[]]; intros H;
    try discriminate H; injection H as <-; reflexivity.
Qed.

Lemma get_cpu_usage_fallback self final :
  final = Returns 0%Q \/ (exists e, final = Raises e) ->
  get_cpu_usage self final = (_cpu_percent_cache self, self).
Proof.
  intros [-> | [e ->]]; reflexivity.
Qed.

(** A reported load of 0 does not always yield a reading other than 0: the
    constructor sets the cache to 0, so on the first call of a monitor just
    built a reported 0 is returned as 0. *)
Lemma cold_first_call_counterexample :
  ~ (forall net0 time0 self,
       __init__ net0 time0 = Returns self ->
       ~ (fst (get_cpu_usage self (Returns 0%Q)) == 0)%Q).
Proof.
  intros H. apply (H (Returns None) 0%Q _ eq_refl).
  vm_compute. reflexivity.
Qed.

(** C8, amended. Sampling never raises: [get_system_stats] returns a sample
    whatever the collaborators do. When the processor-load read fails, the
    reading is the cached value; when the memory read fails, the reading is
    0; and when the collaborator reports a processor load of 0, the cached
    value is returned in its place. The cached value is the latest reading
    above zero of the calls so far, if there is one; on a monitor that has
    had no reading above zero since its construction, as on a cold first
    call, it is 0, and 0 is what the call returns. *)
Theorem sampling_degrades_to_defaults :
  (forall self r, exists stats self', get_system_stats self r = (stats, self')) /\
  (forall self e1 e2 e3 t1 t2,
     get_system_stats self (mkReadings (Raises e1) (Raises e2) (Raises e3) t1 t2)
     = (mkStats (_cpu_percent_cache self) 0 0 t2, self)) /\
  (forall self e,
     get_cpu_usage self (Raises e) = (_cpu_percent_cache self, self)) /\
  (forall self e, get_ram_usage self (Raises e) = (0%Q, self)) /\
  (forall self,
     get_cpu_usage self (Returns 0%Q) = (_cpu_percent_cache self, self)) /\
  (forall self readings final,
     final = Returns 0%Q \/ (exists e, final = Raises e) ->
     fst (get_cpu_usage (cpu_polls self readings) final) =
     default (_cpu_percent_cache self) (last_good readings)) /\
  (forall self readings final v,
     final = Returns 0%Q \/ (exists e, final = Raises e) ->
     last_good readings = Some v ->
     fst (get_cpu_usage (cpu_polls self readings) final) = v /\
     (0 < v)%Q /\ In (Returns v) readings) /\
  (forall net0 time0 self readings final,
     __init__ net0 time0 = Returns self ->
     final = Returns 0%Q \/ (exists e, final = Raises e) ->
     last_good readings = None ->
     fst (get_cpu_usage (cpu_polls self readings) final) = 0%Q) /\
  (forall net0 time0 self final,
     __init__ net0 time0 = Returns self ->
     final = Returns 0%Q \/ (exists e, final = Raises e) ->
     get_cpu_usage self final = (0%Q, self)).
Proof.
  split.
  { intros self r. destruct (get_system_stats self r) as [stats self'].
    eauto. }
  split; [reflexivity|]. split; [reflexivity|]. split; [reflexivity|].
  split; [reflexivity|].
  split.
  { intros self readings final Hfinal.
    rewrite (get_cpu_usage_fallback _ _ Hfinal). cbn [fst].
    apply cpu_polls_cache. }
  split.
  { intros self readings final v Hfinal Hgood.
    rewrite (get_cpu_usage_fallback _ _ Hfinal). cbn [fst].
    rewrite cpu_polls_cache, Hgood.
    split; [reflexivity | exact (last_good_positive readings v Hgood)]. }
  split.
  { intros net0 time0 self readings final Hinit Hfinal Hnone.
    rewrite (get_cpu_usage_fallback _ _ Hfinal). cbn [fst].
    rewrite cpu_polls_cache, Hnone. cbn [default].
    exact (init_cache net0 time0 self Hinit). }
  intros net0 time0 self final Hinit Hfinal.
  rewrite (get_cpu_usage_fallback _ _ Hfinal).
  rewrite (init_cache net0 time0 self Hinit). reflexivity.
Qed.

Lemma sampling_degrades_to_defaults_witness :
  fst (get_cpu_usage
         (cpu_polls (mkMonitor None None 0)
            [Returns 0%Q; Returns 37%Q; Raises OSError])
         (Returns 0%Q)) = 37%Q /\
  get_cpu_usage (mkMonitor None None 0) (Returns 0%Q)
  = (0%Q, mkMonitor None None 0).
Proof.
  destruct sampling_degrades_to_defaults
    as (_ & _ & _ & _ & _ & _ & Hwarm & _ & Hcold).
  split.
  - apply (Hwarm (mkMonitor None None 0)
             [Returns 0%Q; Returns 37%Q; Raises OSError] (Returns 0%Q) 37%Q).
    + left. reflexivity.
    + reflexivity.
  - apply (Hcold (Returns None) 0%Q (mkMonitor None None 0) (Returns 0%Q)).
    + reflexivity.
    + left. reflexivity.
Defined.

End Sampler.

(** ** The stress analysis *)

Section Analysis.

Import SystemMonitor.

Lemma min_is_Qmin (a b : Q) : Num.min a b = Qmin a b.
Proof.
  unfold Num.min, Qmin, GenericMinMax.gmin.
  destruct (a ?= b)%Q eqn:E.
  - apply Qeq_alt in E.
    assert (Num.gt a b = false) as -> by (apply gt_false; lra).
    reflexivity.
  - apply Qlt_alt in E.
    assert (Num.gt a b = false) as -> by (apply gt_false; lra).
    reflexivity.
  - apply Qgt_alt in E.
    assert (Num.gt a b = true) as -> by (apply gt_true; lra).
    reflexivity.
Qed.

Lemma round_half_even_near (x : Q) :
  (- (1 # 2) <= inject_Z (Num.round_half_even x) - x <= 1 # 2)%Q.
Proof.
  unfold Num.round_half_even. cbv zeta.
  pose proof (Qfloor_le x) as Hlo.
  pose proof (Qlt_floor x) as Hhi.
  rewrite inject_Z_plus in Hhi. change (inject_Z 1) with 1%Q in Hhi.
  destruct (x - inject_Z (Qfloor x) ?= 1 # 2)%Q eqn:E.
  - apply Qeq_alt in E.
    destruct (Z.even (Qfloor x));
      [|rewrite inject_Z_plus; change (inject_Z 1) with 1%Q]; lra.
  - apply Qlt_alt in E. lra.
  - apply Qgt_alt in E. rewrite inject_Z_plus.
    change (inject_Z 1) with 1%Q. lra.
Qed.

Lemma round1_near (x : Q) :
  one_decimal (Num.round1 x) /\
  (- (1 # 20) <= Num.round1 x - x <= 1 # 20)%Q.
Proof.
  split.
  - exists (Num.round_half_even (x * 10)). reflexivity.
  - unfold Num.round1.
    pose proof (round_half_even_near (x * 10)) as H.
    set (n := inject_Z (Num.round_half_even (x * 10))) in *.
    assert (n / 10 == n * (1 # 10))%Q as -> by reflexivity.
    lra.
Qed.

Lemma stressors_cases stats :
  let l := _identify_active_stressors stats in
  (existsb names_cpu l = Num.gt (cpu_percent stats) 70) /\
  (existsb names_ram l = Num.gt (ram_percent stats) 75) /\
  (existsb names_network l = Num.gt (network_kbps stats) 800).
Proof.
  cbv zeta. unfold _identify_active_stressors.
  destruct (Num.gt (cpu_percent stats) 70);
    destruct (Num.gt (ram_percent stats) 75);
    destruct (Num.gt (network_kbps stats) 800); cbn; auto.
Qed.

(** The returned overall stress is not the mean itself: for cpu 10,
    ram 10 and network 1 the mean is 401/60 and the analysis holds 6.7. *)
Lemma overall_stress_counterexample :
  ~ (forall stats cfg,
       (overall_stress (get_emotion_analysis stats cfg) == mean_stress stats)%Q).
Proof.
  intros H. specialize (H (mkStats 10 10 1 0) ∅).
  vm_compute in H. discriminate H.
Qed.

(** C7, amended. For every sample, the overall stress that
    [get_emotion_analysis] returns is the mean of min(100, cpu),
    min(100, ram) and min(100, network / 20) rounded to one decimal: it has
    one decimal and lies within 0.05 of the mean. The active stressors do
    not depend on the threshold configuration: the list names the processor
    exactly when cpu > 70, the memory exactly when ram > 75, and the
    network exactly when network > 800. *)
Theorem emotion_analysis_stress stats cfg :
  let analysis := get_emotion_analysis stats cfg in
  one_decimal (overall_stress analysis) /\
  (- (1 # 20) <= overall_stress analysis - mean_stress stats <= 1 # 20)%Q /\
  (forall cfg',
     active_stressors (get_emotion_analysis stats cfg') =
     active_stressors analysis) /\
  (existsb names_cpu (active_stressors analysis) = true <->
     (70 < cpu_percent stats)%Q) /\
  (existsb names_ram (active_stressors analysis) = true <->
     (75 < ram_percent stats)%Q) /\
  (existsb names_network (active_stressors analysis) = true <->
     (800 < network_kbps stats)%Q).
Proof.
  cbv zeta. unfold get_emotion_analysis. cbn [overall_stress active_stressors].
  rewrite !min_is_Qmin. fold (mean_stress stats).
  destruct (round1_near (mean_stress stats)) as [Hdec Hnear].
  split; [exact Hdec|]. split; [exact Hnear|]. split; [reflexivity|].
  destruct (stressors_cases stats) as (-> & -> & ->).
  rewrite !gt_true. tauto.
Qed.

Lemma emotion_analysis_stress_witness :
  existsb names_cpu
    (active_stressors (get_emotion_analysis (mkStats 80 10 1 0) contradictory_config))
  = true.
Proof.
  apply (proj1 (proj2 (proj2 (proj2
           (emotion_analysis_stress (mkStats 80 10 1 0) contradictory_config))))).
  vm_compute. reflexivity.
Defined.

End Analysis.

(** ** One animation sequence *)

Section Sequence.

Implicit Types (a : Animation.t).

Lemma index_in_range {A : Type} (l : list A) (i : Z) :
  (0 <= i < Z.of_nat (length l))%Z ->
  exists x, Py.index l i = Returns x /\ l !! Z.to_nat i = Some x.
Proof.
  intros [Hlo Hhi]. unfold Py.index. cbv zeta.
  destruct (i <? 0)%Z eqn:Eneg; [apply Z.ltb_lt in Eneg; lia|].
  assert ((0 <=? i)%Z && (i <? Z.of_nat (length l))%Z = true) as ->.
  { apply andb_true_iff. split; [apply Z.leb_le | apply Z.ltb_lt]; lia. }
  destruct (l !! Z.to_nat i) as [x|] eqn:E.
  - exists x. split; reflexivity.
  - apply lookup_ge_None in E. lia.
Qed.

Lemma get_current_frame_valid a :
  valid_index a ->
  exists frame,
    Animation.get_current_frame a = Returns frame /\
    Animation.frames a !! Z.to_nat (Animation.current_frame a) = Some frame.
Proof.
  intros Hv. unfold Animation.get_current_frame.
  destruct (Animation.frames a) as [|f fs] eqn:E.
  - unfold valid_index in Hv. rewrite E in Hv. cbn in Hv. lia.
  - rewrite <- E. apply index_in_range. exact Hv.
Qed.

Lemma get_current_frame_empty a :
  Animation.frames a = [] -> Animation.get_current_frame a = Returns NullPixmap.
Proof. intros E. unfold Animation.get_current_frame. rewrite E. reflexivity. Qed.

Lemma get_current_frame_reset a now :
  Animation.get_current_frame (Animation.reset a now) =
  Returns (hd NullPixmap (Animation.frames a)).
Proof.
  unfold Animation.get_current_frame, Animation.reset. cbn.
  destruct (Animation.frames a) as [|f fs]; reflexivity.
Qed.

Lemma advance_frame_frames a now :
  Animation.frames (snd (Animation.advance_frame a now)) = Animation.frames a.
Proof.
  unfold Animation.advance_frame.
  destruct (_ >=? _)%Z; [|reflexivity].
  destruct (Animation.frames a) eqn:E; cbn; congruence.
Qed.

Lemma advance_frame_valid a now :
  valid_index a -> valid_index (snd (Animation.advance_frame a now)).
Proof.
  intros Hv. unfold Animation.advance_frame.
  destruct (_ >=? _)%Z; [|exact Hv].
  destruct (Animation.frames a) as [|f fs] eqn:E; [exact Hv|].
  unfold valid_index. cbn [snd Animation.current_frame Animation.frames].
  rewrite <- E. apply Z.mod_pos_bound.
  unfold valid_index in Hv. lia.
Qed.

Lemma reset_valid a now :
  Animation.frames a <> [] -> valid_index (Animation.reset a now).
Proof.
  intros Hne. unfold valid_index, Animation.reset. cbn.
  destruct (Animation.frames a); [contradiction|]. cbn. lia.
Qed.

Lemma valid_index_nonempty a : valid_index a -> Animation.frames a <> [].
Proof.
  unfold valid_index. intros Hv E. rewrite E in Hv. cbn in Hv. lia.
Qed.

Lemma step_valid a c : valid_index a -> valid_index (Animation.step a c).
Proof.
  intros Hv. destruct c as [now | now]; cbn.
  - apply reset_valid, valid_index_nonempty, Hv.
  - apply advance_frame_valid, Hv.
Qed.

Lemma step_frames a c : Animation.frames (Animation.step a c) = Animation.frames a.
Proof.
  destruct c as [now | now]; cbn; [reflexivity | apply advance_frame_frames].
Qed.

Lemma run_valid calls : forall a,
  valid_index a ->
  valid_index (Animation.run a calls) /\
  Animation.frames (Animation.run a calls) = Animation.frames a.
Proof.
  induction calls as [|c calls IH]; intros a Hv; [split; [exact Hv | reflexivity]|].
  unfold Animation.run in *. cbn [foldl].
  destruct (IH (Animation.step a c) (step_valid a c Hv)) as [Hv' Hf].
  split; [exact Hv'|]. rewrite Hf. apply step_frames.
Qed.

Lemma init_valid name frames fps loop :
  frames <> [] -> valid_index (Animation.__init__ name frames fps loop).
Proof.
  intros Hne. unfold valid_index, Animation.__init__. cbn.
  destruct frames; [contradiction|]. cbn. lia.
Qed.

Lemma duration_below_period fps :
  (0 < fps)%Z ->
  (inject_Z (1000 / fps) <= frame_period fps)%Q /\
  (frame_period fps < inject_Z (1000 / fps) + 1)%Q.
Proof.
  intros Hpos. unfold frame_period.
  assert (0 < inject_Z fps)%Q as Hq
    by (change 0%Q with (inject_Z 0); rewrite <- Zlt_Qlt; exact Hpos).
  pose proof (Z.mul_div_le 1000 fps Hpos) as Hlo.
  pose proof (Z.mul_succ_div_gt 1000 fps Hpos) as Hhi.
  split.
  - apply Qle_shift_div_l; [exact Hq|].
    rewrite <- inject_Z_mult. change 1000%Q with (inject_Z 1000).
    rewrite <- Zle_Qle. lia.
  - apply Qlt_shift_div_r; [exact Hq|].
    change 1%Q with (inject_Z 1).
    rewrite <- inject_Z_plus, <- inject_Z_mult.
    change 1000%Q with (inject_Z 1000).
    rewrite <- Zlt_Qlt. lia.
Qed.

Lemma duration_is_period_iff fps :
  (0 < fps)%Z ->
  (inject_Z (1000 / fps) == frame_period fps)%Q <-> (1000 mod fps = 0)%Z.
Proof.
  intros Hpos. unfold frame_period.
  assert (~ inject_Z fps == 0)%Q as Hq.
  { change 0%Q with (inject_Z 0). rewrite inject_Z_injective. lia. }
  rewrite <- (Z.div_exact 1000 fps) by lia.
  split.
  - intros H.
    assert (inject_Z (1000 / fps) * inject_Z fps == 1000)%Q as Hm
      by (rewrite H; field; exact Hq).
    rewrite <- inject_Z_mult in Hm. change 1000%Q with (inject_Z 1000) in Hm.
    rewrite inject_Z_injective in Hm. lia.
  - intros H.
    assert (inject_Z (1000 / fps) * inject_Z fps == 1000)%Q as Hm.
    { rewrite <- inject_Z_mult. change 1000%Q with (inject_Z 1000).
      rewrite inject_Z_injective. lia. }
    rewrite <- Hm. field. exact Hq.
Qed.

(** The duration a sequence holds is not 1000 / fps in general: at the
    default 24 frames per second [__init__] stores 41, and 1000 / 24 is
    41 + 2/3, so a call 41 ms after the last change already advances. *)
Lemma frame_duration_counterexample :
  ~ (forall name frames fps loop,
       (0 < fps)%Z ->
       (inject_Z (Animation.frame_duration_ms
                    (Animation.__init__ name frames fps loop))
        == frame_period fps)%Q).
Proof.
  intros H. specialize (H "idle" [Pixmap 0] 24%Z true eq_refl).
  vm_compute in H. discriminate H.
Qed.

(** C4, amended. For a sequence with at least one frame, [advance_frame]
    called before [frame_duration_ms] has elapsed since [last_frame_time]
    changes nothing and returns false; called when at least
    [frame_duration_ms] has elapsed, it returns true, moves [current_frame]
    to the next position modulo the number of frames and records the time,
    whatever the [loop] flag is: from the last frame it goes back to the
    first. The duration is int(1000 / fps) when fps > 0, that is 1000 / fps
    rounded down to whole milliseconds: it never exceeds 1000 / fps, falls
    short of it by less than one millisecond, and equals it exactly when fps
    divides 1000. It is 42 when fps <= 0. *)
Theorem advance_frame_when_due a (now : Z) :
  Animation.frames a <> [] ->
  ((now - Animation.last_frame_time a < Animation.frame_duration_ms a)%Z ->
     Animation.advance_frame a now = (false, a)) /\
  ((Animation.frame_duration_ms a <= now - Animation.last_frame_time a)%Z ->
     let a' := snd (Animation.advance_frame a now) in
     fst (Animation.advance_frame a now) = true /\
     Animation.current_frame a' =
       ((Animation.current_frame a + 1)
          mod Z.of_nat (length (Animation.frames a)))%Z /\
     (Animation.current_frame a + 1 = Z.of_nat (length (Animation.frames a)) ->
        Animation.current_frame a' = 0%Z)%Z /\
     Animation.last_frame_time a' = now /\
     Animation.frames a' = Animation.frames a /\
     Animation.loop a' = Animation.loop a /\
     Animation.frame_duration_ms a' = Animation.frame_duration_ms a) /\
  (forall name frames fps loop,
     let d := Animation.frame_duration_ms
                (Animation.__init__ name frames fps loop) in
     ((0 < fps)%Z -> d = (1000 / fps)%Z /\
                     (d * fps <= 1000 < (d + 1) * fps)%Z /\
                     (inject_Z d <= frame_period fps)%Q /\
                     (frame_period fps < inject_Z d + 1)%Q /\
                     ((inject_Z d == frame_period fps)%Q <->
                      (1000 mod fps = 0)%Z)) /\
     ((fps <= 0)%Z -> d = 42%Z)).
Proof.
  intros Hne. split; [|split].
  - intros Hearly. unfold Animation.advance_frame.
    destruct (_ >=? _)%Z eqn:E; [|reflexivity].
    apply Z.geb_le in E. lia.
  - intros Hdue. cbv zeta. unfold Animation.advance_frame.
    destruct (_ >=? _)%Z eqn:E.
    + destruct (Animation.frames a) as [|f fs] eqn:Ef; [contradiction|].
      cbn [fst snd Animation.current_frame Animation.last_frame_time
           Animation.frames Animation.loop Animation.frame_duration_ms].
      repeat split.
      intros Hlast. rewrite Hlast. apply Z.mod_same. cbn. lia.
    + rewrite Z.geb_leb in E. apply Z.leb_gt in E. lia.
  - intros name frames fps loop. cbv zeta.
    cbn [Animation.frame_duration_ms Animation.__init__]. split.
    + intros Hpos. assert ((fps >? 0)%Z = true) as -> by lia.
      split; [reflexivity|].
      split.
      { pose proof (Z.mul_div_le 1000 fps Hpos).
        pose proof (Z.mul_succ_div_gt 1000 fps Hpos). lia. }
      split; [exact (proj1 (duration_below_period fps Hpos))|].
      split; [exact (proj2 (duration_below_period fps Hpos))|].
      exact (duration_is_period_iff fps Hpos).
    + intros Hneg. assert ((fps >? 0)%Z = false) as -> by lia. reflexivity.
Qed.

Lemma advance_frame_when_due_witness :
  Animation.advance_frame
    (Animation.reset
       (Animation.__init__ "idle" [Pixmap 0; Pixmap 1; Pixmap 2] 24 false) 1000)
    1040
  = (false,
     Animation.reset
       (Animation.__init__ "idle" [Pixmap 0; Pixmap 1; Pixmap 2] 24 false) 1000).
Proof.
  apply (proj1 (advance_frame_when_due
                  (Animation.reset
                     (Animation.__init__ "idle" [Pixmap 0; Pixmap 1; Pixmap 2]
                        24 false) 1000)
                  1040 ltac:(discriminate))).
  vm_compute. reflexivity.
Defined.

End Sequence.

(** ** The animation engine *)

Section Engine.

Import AnimationEngine.

Implicit Types (e : AnimationEngine.t).

Lemma set_animation_absent e animation_name now :
  catalog_lookup e animation_name = None ->
  set_animation e animation_name now = Returns (false, e).
Proof.
  unfold catalog_lookup, set_animation.
  destruct (animations e !! current_skin e) as [skin_animations|];
    [|reflexivity].
  intros ->. reflexivity.
Qed.

Lemma set_animation_present e animation_name now ref a :
  catalog_lookup e animation_name = Some ref ->
  heap e !! ref = Some a ->
  set_animation e animation_name now =
  Returns (true,
           emit (hd NullPixmap (Animation.frames a))
             (set_current ref animation_name
                (set_heap (<[ref := Animation.reset a now]> (heap e)) e))).
Proof.
  unfold catalog_lookup, set_animation.
  destruct (animations e !! current_skin e) as [skin_animations|];
    [|discriminate].
  intros -> Ha. unfold deref. rewrite Ha. cbn.
  rewrite get_current_frame_reset. reflexivity.
Qed.

(** *** The invariant of the engine *)

Lemma inv_deref e ref :
  engine_inv e -> (ref < length (heap e))%nat ->
  exists a, deref e ref = Returns a /\ heap e !! ref = Some a /\ valid_index a.
Proof.
  intros (Hall & _ & _) Hlt. unfold deref.
  destruct (lookup_lt_is_Some_2 _ _ Hlt) as [a Ha].
  exists a. rewrite Ha. split; [reflexivity|]. split; [reflexivity|].
  rewrite Forall_lookup in Hall. exact (Hall _ _ Ha).
Qed.

Lemma inv_store e ref a :
  engine_inv e -> valid_index a ->
  engine_inv (set_heap (<[ref := a]> (heap e)) e).
Proof.
  intros (Hall & Hcat & Hcur) Hv. unfold engine_inv. cbn.
  rewrite length_insert. split; [|split; assumption].
  destruct (decide (ref < length (heap e))%nat) as [Hlt | Hge].
  - apply Forall_insert; assumption.
  - rewrite list_insert_ge by lia. exact Hall.
Qed.

Lemma inv_set_current e ref animation_name :
  engine_inv e -> (ref < length (heap e))%nat ->
  engine_inv (set_current ref animation_name e).
Proof.
  intros (Hall & Hcat & Hcur) Hlt. unfold engine_inv. cbn.
  split; [exact Hall|]. split; [exact Hcat|].
  intros ref' [= <-]. exact Hlt.
Qed.

Lemma inv_emit e frame : engine_inv e -> engine_inv (emit frame e).
Proof. intros H. exact H. Qed.

Lemma inv_catalog e animation_name ref :
  engine_inv e -> catalog_lookup e animation_name = Some ref ->
  (ref < length (heap e))%nat.
Proof.
  intros (_ & Hcat & _). unfold catalog_lookup.
  destruct (animations e !! current_skin e) as [m|] eqn:E; [|discriminate].
  intros Hm. exact (Hcat _ _ _ _ E Hm).
Qed.

Lemma set_animation_inv e animation_name now :
  engine_inv e ->
  exists ok e',
    set_animation e animation_name now = Returns (ok, e') /\ engine_inv e'.
Proof.
  intros Hinv.
  destruct (catalog_lookup e animation_name) as [ref|] eqn:Hcat.
  - pose proof (inv_catalog _ _ _ Hinv Hcat) as Hlt.
    destruct (inv_deref _ _ Hinv Hlt) as (a & _ & Ha & Hv).
    rewrite (set_animation_present _ _ _ _ _ Hcat Ha).
    eexists _, _. split; [reflexivity|].
    apply inv_emit, inv_set_current.
    + apply inv_store; [exact Hinv|].
      apply reset_valid, valid_index_nonempty, Hv.
    + cbn. rewrite length_insert. exact Hlt.
  - rewrite (set_animation_absent _ _ _ Hcat).
    eexists _, _. split; [reflexivity | exact Hinv].
Qed.

Lemma load_entry_inv acc entry :
  Forall valid_index (snd acc) ->
  (forall animation_name ref,
     fst acc !! animation_name = Some ref -> (ref < length (snd acc))%nat) ->
  Forall valid_index (snd (load_entry acc entry)) /\
  (forall animation_name ref,
     fst (load_entry acc entry) !! animation_name = Some ref ->
     (ref < length (snd (load_entry acc entry)))%nat) /\
  (length (snd acc) <= length (snd (load_entry acc entry)))%nat.
Proof.
  destruct acc as [m h]. cbn [fst snd]. intros Hall Hm.
  unfold load_entry.
  destruct (asset_frames entry) as [|f fs] eqn:Ef; cbn [fst snd].
  { split; [exact Hall|]. split; [exact Hm | lia]. }
  rewrite length_app. cbn [length].
  split; [|split; [|lia]].
  - apply Forall_app. split; [exact Hall|].
    apply Forall_cons. split; [|apply Forall_nil_2].
    rewrite <- Ef. apply init_valid. rewrite Ef. discriminate.
  - intros animation_name ref.
    destruct (decide (asset_name entry = animation_name)) as [-> | Hne].
    + rewrite lookup_insert_eq. intros [= <-]. lia.
    + rewrite lookup_insert_ne by exact Hne. intros H.
      specialize (Hm _ _ H). lia.
Qed.

Lemma load_entries_inv entries : forall acc,
  Forall valid_index (snd acc) ->
  (forall animation_name ref,
     fst acc !! animation_name = Some ref -> (ref < length (snd acc))%nat) ->
  Forall valid_index (snd (foldl load_entry acc entries)) /\
  (forall animation_name ref,
     fst (foldl load_entry acc entries) !! animation_name = Some ref ->
     (ref < length (snd (foldl load_entry acc entries)))%nat) /\
  (length (snd acc) <= length (snd (foldl load_entry acc entries)))%nat.
Proof.
  induction entries as [|entry entries IH]; intros acc Hall Hm; cbn [foldl].
  { split; [exact Hall|]. split; [exact Hm | lia]. }
  destruct (load_entry_inv acc entry Hall Hm) as (Hall' & Hm' & Hlen).
  destruct (IH _ Hall' Hm') as (Hall'' & Hm'' & Hlen').
  split; [exact Hall''|]. split; [exact Hm'' | lia].
Qed.

Lemma _load_skin_inv e skin_name assets :
  engine_inv e -> engine_inv (snd (_load_skin e skin_name assets)).
Proof.
  intros Hinv. pose proof Hinv as (Hall & Hcat & Hcur).
  unfold _load_skin.
  destruct assets as [entries|]; [|exact Hinv].
  destruct (load_entries_inv entries (∅, heap e) Hall) as (Hall' & Hm' & Hlen).
  { intros animation_name ref. cbn. rewrite lookup_empty. discriminate. }
  destruct (foldl load_entry (∅, heap e) entries) as [m h].
  cbn [fst snd] in *.
  destruct (decide (m = ∅)); [exact Hinv|].
  unfold engine_inv. cbn.
  split; [exact Hall'|]. split.
  - intros skin skin_animations animation_name ref.
    destruct (decide (skin_name = skin)) as [-> | Hne].
    + rewrite lookup_insert_eq. intros [= <-]. apply Hm'.
    + rewrite lookup_insert_ne by exact Hne. intros Hs Hr.
      specialize (Hcat _ _ _ _ Hs Hr). lia.
  - intros ref Hr. specialize (Hcur _ Hr). lia.
Qed.

Lemma reload_skin_inv e skin_name assets :
  engine_inv e -> engine_inv (snd (reload_skin e skin_name assets)).
Proof.
  intros (Hall & Hcat & Hcur). unfold reload_skin.
  apply _load_skin_inv. unfold engine_inv. cbn.
  split; [exact Hall|]. split; [|exact Hcur].
  intros skin skin_animations animation_name ref Hs.
  apply lookup_delete_Some in Hs as [_ Hs]. exact (Hcat _ _ _ _ Hs).
Qed.

Lemma set_skin_inv e skin_name assets now :
  engine_inv e ->
  exists ok e',
    set_skin e skin_name assets now = Returns (ok, e') /\ engine_inv e'.
Proof.
  intros Hinv. unfold set_skin.
  assert (exists loaded e1,
            match animations e !! skin_name with
            | Some _ => (true, e)
            | None => _load_skin e skin_name assets
            end = (loaded, e1) /\ engine_inv e1) as (loaded & e1 & -> & Hinv1).
  { destruct (animations e !! skin_name).
    - eexists _, _. split; [reflexivity | exact Hinv].
    - pose proof (_load_skin_inv e skin_name assets Hinv) as H.
      destruct (_load_skin e skin_name assets) as [b e1].
      eexists _, _. split; [reflexivity | exact H]. }
  destruct loaded; cbn [negb].
  - destruct (set_animation_inv
                (set_config_current_skin skin_name
                   (set_current_skin skin_name e1))
                (current_animation_name
                   (set_config_current_skin skin_name
                      (set_current_skin skin_name e1))) now)
      as (ok & e2 & Hset & Hinv2); [exact Hinv1|].
    rewrite Hset. cbn. eexists _, _. split; [reflexivity | exact Hinv2].
  - eexists _, _. split; [reflexivity | exact Hinv1].
Qed.

Lemma or_set_animation_inv left animation_name now :
  engine_inv (snd left) ->
  exists ok e',
    or_set_animation left animation_name now = Returns (ok, e') /\
    engine_inv e'.
Proof.
  intros Hinv. unfold or_set_animation. destruct left as [[|] e]; cbn [fst snd] in *.
  - eexists _, _. split; [reflexivity | exact Hinv].
  - apply set_animation_inv, Hinv.
Qed.

Lemma start_inv e now :
  engine_inv e -> exists e', start e now = Returns e' /\ engine_inv e'.
Proof.
  intros Hinv. unfold start.
  destruct (timer_active e); cbn [negb];
    [eexists; split; [reflexivity | exact Hinv]|].
  destruct (current_animation e).
  { cbn. eexists. split; [reflexivity | exact Hinv]. }
  destruct (set_animation_inv e "calm" now Hinv) as (ok1 & e1 & -> & H1).
  cbn.
  destruct (or_set_animation_inv (ok1, e1) "active" now H1)
    as (ok2 & e2 & -> & H2).
  cbn.
  destruct (or_set_animation_inv (ok2, e2) "idle" now H2)
    as (ok3 & e3 & -> & H3).
  cbn. eexists. split; [reflexivity | exact H3].
Qed.

Lemma _update_frame_inv e now :
  engine_inv e -> exists e', _update_frame e now = Returns e' /\ engine_inv e'.
Proof.
  intros Hinv. pose proof Hinv as (_ & _ & Hcur). unfold _update_frame.
  destruct (current_animation e) as [ref|];
    [|eexists; split; [reflexivity | exact Hinv]].
  destruct (inv_deref _ _ Hinv (Hcur _ eq_refl)) as (a & -> & Ha & Hv).
  cbn.
  pose proof (advance_frame_valid a now Hv) as Hv'.
  destruct (Animation.advance_frame a now) as [advanced a'].
  cbn [snd] in Hv'.
  pose proof (inv_store e ref a' Hinv Hv') as Hinv'.
  destruct advanced.
  - destruct (get_current_frame_valid a' Hv') as (frame & -> & _).
    cbn. eexists. split; [reflexivity|]. apply inv_emit, Hinv'.
  - eexists. split; [reflexivity | exact Hinv'].
Qed.

Lemma step_inv e c :
  engine_inv e -> exists e', step e c = Returns e' /\ engine_inv e'.
Proof.
  intros Hinv. destruct c; cbn [step].
  - destruct (set_skin_inv e skin_name assets now Hinv) as (ok & e' & -> & H).
    cbn. eauto.
  - destruct (set_animation_inv e animation_name now Hinv)
      as (ok & e' & -> & H).
    cbn. eauto.
  - apply start_inv, Hinv.
  - eexists. split; [reflexivity | exact Hinv].
  - apply _update_frame_inv, Hinv.
  - eexists. split; [reflexivity|]. apply reload_skin_inv, Hinv.
Qed.

Lemma run_inv calls : forall e,
  engine_inv e -> exists e', run e calls = Returns e' /\ engine_inv e'.
Proof.
  induction calls as [|c calls IH]; intros e Hinv; cbn [run].
  - eauto.
  - destruct (step_inv e c Hinv) as (e1 & -> & H1). cbn. apply IH, H1.
Qed.

Lemma init_inv configured_skin assets :
  engine_inv (__init__ configured_skin assets).
Proof.
  unfold __init__. apply _load_skin_inv. unfold engine_inv. cbn.
  split; [apply Forall_nil_2|]. split.
  - intros skin skin_animations animation_name ref.
    rewrite lookup_empty. discriminate.
  - discriminate.
Qed.

Lemma get_current_frame_inv e :
  engine_inv e -> exists frame, get_current_frame e = Returns frame.
Proof.
  intros Hinv. pose proof Hinv as (_ & _ & Hcur). unfold get_current_frame.
  destruct (current_animation e) as [ref|]; [|eauto].
  destruct (inv_deref _ _ Hinv (Hcur _ eq_refl)) as (a & -> & _ & Hv).
  cbn. destruct (get_current_frame_valid a Hv) as (frame & -> & _). eauto.
Qed.

(** C5. For a state name that the current skin's catalog does not hold,
    [set_animation] returns false and leaves the whole engine as it was:
    the active sequence, its frame index and the current animation name
    included. For a name the catalog holds, it returns true, the target
    sequence is at frame index 0 with the time just read, it is the active
    sequence under that name, no other sequence is touched, and its first
    frame is emitted through the change notification. In an engine reached
    from its constructor, every name the catalog holds refers to a sequence
    of the store. *)
Theorem set_animation_effect e (animation_name : string) (now : Z) :
  (catalog_lookup e animation_name = None ->
     set_animation e animation_name now = Returns (false, e)) /\
  (forall ref a,
     catalog_lookup e animation_name = Some ref ->
     heap e !! ref = Some a ->
     exists e' a',
       set_animation e animation_name now = Returns (true, e') /\
       current_animation e' = Some ref /\
       current_animation_name e' = animation_name /\
       heap e' !! ref = Some a' /\
       Animation.current_frame a' = 0%Z /\
       Animation.last_frame_time a' = now /\
       Animation.frames a' = Animation.frames a /\
       (forall ref', ref' <> ref -> heap e' !! ref' = heap e !! ref') /\
       frame_changed e' =
         (frame_changed e ++ [hd NullPixmap (Animation.frames a)])%list /\
       animations e' = animations e /\
       current_skin e' = current_skin e) /\
  (forall configured_skin assets calls ref,
     run (__init__ configured_skin assets) calls = Returns e ->
     catalog_lookup e animation_name = Some ref ->
     exists a, heap e !! ref = Some a).
Proof.
  split; [apply set_animation_absent|].
  split.
  2:{ intros configured_skin assets calls ref Hrun Hcat.
      destruct (run_inv calls _ (init_inv configured_skin assets))
        as (e1 & Hrun1 & Hinv).
      assert (e1 = e) as -> by congruence.
      destruct (inv_deref _ _ Hinv (inv_catalog _ _ _ Hinv Hcat))
        as (a & _ & Ha & _).
      eauto. }
  intros ref a Hcat Ha.
  eexists. exists (Animation.reset a now).
  split; [apply (set_animation_present _ _ _ _ _ Hcat Ha)|].
  cbn. split; [reflexivity|]. split; [reflexivity|].
  split.
  { apply list_lookup_insert_eq. apply lookup_lt_Some in Ha. exact Ha. }
  do 3 (split; [reflexivity|]).
  split.
  { intros ref' Hne. apply list_lookup_insert_ne. congruence. }
  repeat split.
Qed.

Lemma set_animation_effect_witness :
  set_animation demo_engine "run" 5 = Returns (false, demo_engine).
Proof.
  apply (proj1 (set_animation_effect demo_engine "run" 5)).
  vm_compute. reflexivity.
Defined.

(** C9. [get_current_frame] never fails: on every engine reached from
    its constructor by any series of calls, with any loader answers and
    clock readings, every call returns and [get_current_frame] returns a
    frame; it returns the empty placeholder when no sequence is active or
    the active sequence has no frames. For a sequence built with at least
    one frame, [current_frame] stays a position of the frame list after any
    interleaving of [reset] and [advance_frame], so the frame lookup is in
    bounds. *)
Theorem get_current_frame_total :
  (forall configured_skin assets calls,
     exists e frame,
       run (__init__ configured_skin assets) calls = Returns e /\
       get_current_frame e = Returns frame) /\
  (forall e,
     current_animation e = None -> get_current_frame e = Returns NullPixmap) /\
  (forall e ref a,
     current_animation e = Some ref -> heap e !! ref = Some a ->
     Animation.frames a = [] -> get_current_frame e = Returns NullPixmap) /\
  (forall a,
     Animation.frames a = [] ->
     Animation.get_current_frame a = Returns NullPixmap) /\
  (forall name frames fps loop calls,
     frames <> [] ->
     let a := Animation.run (Animation.__init__ name frames fps loop) calls in
     (0 <= Animation.current_frame a < Z.of_nat (length (Animation.frames a)))%Z /\
     Animation.frames a = frames /\
     exists frame,
       Animation.get_current_frame a = Returns frame /\
       frames !! Z.to_nat (Animation.current_frame a) = Some frame) /\
  (forall a calls,
     (0 <= Animation.current_frame a < Z.of_nat (length (Animation.frames a)))%Z ->
     let a' := Animation.run a calls in
     (0 <= Animation.current_frame a' < Z.of_nat (length (Animation.frames a')))%Z).
Proof.
  split.
  { intros configured_skin assets calls.
    destruct (run_inv calls _ (init_inv configured_skin assets))
      as (e & Hrun & Hinv).
    destruct (get_current_frame_inv e Hinv) as (frame & Hframe).
    eauto. }
  split.
  { intros e Hnone. unfold get_current_frame. rewrite Hnone. reflexivity. }
  split.
  { intros e ref a Hcur Ha Hempty. unfold get_current_frame, deref.
    rewrite Hcur, Ha. cbn. apply get_current_frame_empty, Hempty. }
  split; [exact get_current_frame_empty|].
  split.
  { intros name frames fps loop calls Hne. cbv zeta.
    destruct (run_valid calls _ (init_valid name frames fps loop Hne))
      as [Hv Hf].
    split; [exact Hv|]. split; [exact Hf|].
    destruct (get_current_frame_valid _ Hv) as (frame & Hget & Hlook).
    exists frame. split; [exact Hget|]. rewrite Hf in Hlook. exact Hlook. }
  intros a calls Hv. exact (proj1 (run_valid calls a Hv)).
Qed.

Lemma get_current_frame_total_witness :
  Animation.frames
    (Animation.run
       (Animation.__init__ "idle" [Pixmap 0; Pixmap 1; Pixmap 2] 24 true)
       [Animation.AdvanceFrame 100; Animation.AdvanceFrame 200;
        Animation.Reset 250; Animation.AdvanceFrame 300])
  = [Pixmap 0; Pixmap 1; Pixmap 2].
Proof.
  apply (proj2 (proj2 (proj2 (proj2 get_current_frame_total)))).
  discriminate.
Defined.

End Engine.

(** * Further properties *)

(** ** Timing of one sequence *)

Section SequenceTiming.

Implicit Types (a : Animation.t).

Lemma advance_frame_due a (now : Z) :
  valid_index a ->
  (Animation.frame_duration_ms a <= now - Animation.last_frame_time a)%Z ->
  let a' := snd (Animation.advance_frame a now) in
  fst (Animation.advance_frame a now) = true /\
  valid_index a' /\
  Animation.current_frame a' =
    ((Animation.current_frame a + 1)
       mod Z.of_nat (length (Animation.frames a)))%Z /\
  Animation.last_frame_time a' = now /\
  Animation.frames a' = Animation.frames a /\
  Animation.frame_duration_ms a' = Animation.frame_duration_ms a.
Proof.
  intros Hv Hdue. cbv zeta.
  pose proof (advance_frame_valid a now Hv) as Hv'.
  pose proof (valid_index_nonempty a Hv) as Hne.
  unfold Animation.advance_frame in *.
  assert ((now - Animation.last_frame_time a >=? Animation.frame_duration_ms a)%Z
          = true) as E by (apply Z.geb_le; lia).
  rewrite E in *.
  destruct (Animation.frames a) as [|f fs] eqn:Ef; [contradiction|].
  cbn [fst snd] in *. split; [reflexivity|]. split; [exact Hv'|].
  cbn. repeat split.
Qed.

(** X1. Advances made when due compose: after k calls of [advance_frame],
    each at least [frame_duration_ms] after the previous advance, the frame
    index has moved by k modulo the number of frames, and the last call's
    time is the recorded one; as many such calls as there are frames bring
    the index back to where it was. *)
Theorem due_advances_compose (times : list Z) : forall a,
  valid_index a ->
  due_chain (Animation.last_frame_time a) (Animation.frame_duration_ms a) times ->
  let a' := Animation.run a (map Animation.AdvanceFrame times) in
  Animation.current_frame a' =
    ((Animation.current_frame a + Z.of_nat (length times))
       mod Z.of_nat (length (Animation.frames a)))%Z /\
  Animation.last_frame_time a' = default (Animation.last_frame_time a) (last times) /\
  (length times = length (Animation.frames a) ->
   Animation.current_frame a' = Animation.current_frame a).
Proof.
  assert (forall a, valid_index a ->
            due_chain (Animation.last_frame_time a)
              (Animation.frame_duration_ms a) times ->
            Animation.current_frame
              (Animation.run a (map Animation.AdvanceFrame times)) =
            ((Animation.current_frame a + Z.of_nat (length times))
               mod Z.of_nat (length (Animation.frames a)))%Z /\
            Animation.last_frame_time
              (Animation.run a (map Animation.AdvanceFrame times)) =
            default (Animation.last_frame_time a) (last times)) as Hmain.
  { induction times as [|t later IH]; intros a Hv Hchain.
    - cbn. split; [|reflexivity].
      rewrite Z.add_0_r. symmetry. apply Z.mod_small. exact Hv.
    - destruct Hchain as [Hdue Hlater].
      destruct (advance_frame_due a t Hv Hdue)
        as (_ & Hv1 & Hcf & Hlast & Hfr & Hd).
      unfold Animation.run in *. cbn [map foldl Animation.step].
      destruct (IH (snd (Animation.advance_frame a t)) Hv1) as [Hcf' Hlast'].
      { rewrite Hlast, Hd. exact Hlater. }
      split.
      + rewrite Hcf', Hcf, Hfr.
        rewrite Zplus_mod_idemp_l. f_equal. cbn [length]. lia.
      + rewrite Hlast', Hlast, last_cons. destruct (last later); reflexivity. }
  intros a Hv Hchain. cbv zeta.
  destruct (Hmain a Hv Hchain) as [Hcf Hlast].
  split; [exact Hcf|]. split; [exact Hlast|].
  intros Hlen. rewrite Hcf, Hlen.
  rewrite <- (Z.mul_1_l (Z.of_nat (length (Animation.frames a)))) at 1.
  rewrite Z.mod_add by (unfold valid_index in Hv; lia).
  apply Z.mod_small. exact Hv.
Qed.

Lemma due_advances_compose_witness :
  Animation.current_frame
    (Animation.run
       (Animation.__init__ "run" [Pixmap 0; Pixmap 1; Pixmap 2] 20 true)
       (map Animation.AdvanceFrame [50; 100; 175; 300]%Z))
  = 1%Z.
Proof.
  rewrite (proj1 (due_advances_compose [50; 100; 175; 300]%Z
                    (Animation.__init__ "run" [Pixmap 0; Pixmap 1; Pixmap 2]
                       20 true)
                    ltac:(vm_compute; split; [discriminate | reflexivity])
                    ltac:(vm_compute; intuition discriminate))).
  reflexivity.
Defined.




End SequenceTiming.

(** ** Invariants of reachable engines *)

Section EngineInvariant.

Import AnimationEngine.

Variable P : AnimationEngine.t -> Prop.

Hypothesis P_load : forall e skin_name assets,
  engine_inv e -> P e -> P (snd (_load_skin e skin_name assets)).
Hypothesis P_set_animation : forall e animation_name now ok e',
  engine_inv e -> P e ->
  set_animation e animation_name now = Returns (ok, e') -> P e'.
Hypothesis P_update : forall e now e',
  engine_inv e -> P e -> _update_frame e now = Returns e' -> P e'.
Hypothesis P_current_skin : forall e skin_name,
  P e -> P (set_current_skin skin_name e).
Hypothesis P_config : forall e skin_name,
  P e -> P (set_config_current_skin skin_name e).
Hypothesis P_timer : forall e b, P e -> P (set_timer_active b e).
Hypothesis P_forget : forall e skin_name,
  P e -> P (set_animations (delete skin_name (animations e)) e).
Hypothesis P_blank : forall configured_skin, P (blank_engine configured_skin).

Lemma inv_field_updates e skin_name b :
  engine_inv e ->
  engine_inv (set_current_skin skin_name e) /\
  engine_inv (set_config_current_skin skin_name e) /\
  engine_inv (set_timer_active b e).
Proof. intros H. repeat split; apply H. Qed.

Lemma P_set_skin e skin_name assets now ok e' :
  engine_inv e -> P e ->
  set_skin e skin_name assets now = Returns (ok, e') -> P e'.
Proof.
  intros Hinv HP. unfold set_skin.
  assert (exists loaded e1,
            match animations e !! skin_name with
            | Some _ => (true, e)
            | None => _load_skin e skin_name assets
            end = (loaded, e1) /\ engine_inv e1 /\ P e1)
    as (loaded & e1 & -> & Hinv1 & HP1).
  { destruct (animations e !! skin_name).
    - eexists _, _. split; [reflexivity|]. split; assumption.
    - pose proof (_load_skin_inv e skin_name assets Hinv) as H.
      pose proof (P_load e skin_name assets Hinv HP) as H'.
      destruct (_load_skin e skin_name assets) as [b e1].
      eexists _, _. split; [reflexivity|]. split; assumption. }
  destruct loaded; cbn [negb].
  - set (e2 := set_config_current_skin skin_name (set_current_skin skin_name e1)).
    destruct (set_animation e2 (current_animation_name e2) now)
      as [[ok2 e3]|err] eqn:Hset; cbn; [|discriminate].
    intros [= _ <-].
    refine (P_set_animation e2 _ _ _ _ _ _ Hset); [apply Hinv1|].
    apply P_config, P_current_skin, HP1.
  - intros [= <- <-]. exact HP1.
Qed.

Lemma P_or_set_animation left animation_name now ok e' :
  engine_inv (snd left) -> P (snd left) ->
  or_set_animation left animation_name now = Returns (ok, e') -> P e'.
Proof.
  intros Hinv HP. unfold or_set_animation.
  destruct left as [[|] e]; cbn [fst snd] in *.
  - intros [= <- <-]. exact HP.
  - apply P_set_animation; assumption.
Qed.

Lemma P_start e now e' :
  engine_inv e -> P e -> start e now = Returns e' -> P e'.
Proof.
  intros Hinv HP. unfold start.
  destruct (timer_active e); cbn [negb]; [intros [= <-]; exact HP|].
  destruct (current_animation e).
  { cbn. intros [= <-]. apply P_timer, HP. }
  destruct (set_animation_inv e "calm" now Hinv) as (ok1 & e1 & H1 & Hi1).
  rewrite H1. cbn.
  pose proof (P_set_animation _ _ _ _ _ Hinv HP H1) as HP1.
  destruct (or_set_animation_inv (ok1, e1) "active" now Hi1)
    as (ok2 & e2 & H2 & Hi2).
  rewrite H2. cbn.
  pose proof (P_or_set_animation (ok1, e1) _ _ _ _ Hi1 HP1 H2) as HP2.
  destruct (or_set_animation_inv (ok2, e2) "idle" now Hi2)
    as (ok3 & e3 & H3 & Hi3).
  rewrite H3. cbn.
  pose proof (P_or_set_animation (ok2, e2) _ _ _ _ Hi2 HP2 H3) as HP3.
  intros [= <-]. apply P_timer, HP3.
Qed.

Lemma P_step e c e' :
  engine_inv e -> P e -> step e c = Returns e' -> P e'.
Proof.
  intros Hinv HP. destruct c; cbn [step].
  - destruct (set_skin e skin_name assets now) as [[ok e1]|err] eqn:E;
      cbn; [|discriminate].
    intros [= <-]. exact (P_set_skin _ _ _ _ _ _ Hinv HP E).
  - destruct (set_animation e animation_name now) as [[ok e1]|err] eqn:E;
      cbn; [|discriminate].
    intros [= <-]. exact (P_set_animation _ _ _ _ _ Hinv HP E).
  - apply P_start; assumption.
  - intros [= <-]. apply P_timer, HP.
  - apply P_update; assumption.
  - intros [= <-]. unfold reload_skin.
    apply P_load; [|apply P_forget, HP].
    destruct Hinv as (Hall & Hcat & Hcur). unfold engine_inv. cbn.
    split; [exact Hall|]. split; [|exact Hcur].
    intros skin skin_animations animation_name ref Hs.
    apply lookup_delete_Some in Hs as [_ Hs]. exact (Hcat _ _ _ _ Hs).
Qed.

Lemma P_run calls : forall e e',
  engine_inv e -> P e -> run e calls = Returns e' -> P e'.
Proof.
  induction calls as [|c calls IH]; intros e e' Hinv HP; cbn [run].
  - intros [= <-]. exact HP.
  - destruct (step_inv e c Hinv) as (e1 & Hstep & Hinv1).
    rewrite Hstep. cbn. apply IH; [exact Hinv1|].
    exact (P_step _ _ _ Hinv HP Hstep).
Qed.

Lemma P_reachable e : reachable e -> P e.
Proof.
  intros (configured_skin & assets & calls & Hrun).
  apply (P_run calls (__init__ configured_skin assets) e
           (init_inv configured_skin assets)); [|exact Hrun].
  unfold __init__. fold (blank_engine configured_skin). apply P_load; [|apply P_blank].
  unfold engine_inv. cbn.
  split; [apply Forall_nil_2|]. split.
  - intros skin skin_animations animation_name ref.
    rewrite lookup_empty. discriminate.
  - discriminate.
Qed.

End EngineInvariant.

(** ** Loading a skin *)

Section Loading.

Import AnimationEngine.

Implicit Types (e : AnimationEngine.t) (entry : Asset).

(** The object [_load_skin] builds for an entry. *)
Lemma load_entry_frames acc entry :
  has_frames entry ->
  load_entry acc entry =
  (<[asset_name entry := length (snd acc)]> (fst acc),
   (snd acc ++ [Animation.__init__ (asset_name entry) (asset_frames entry)
                  (default 24%Z (asset_fps entry))
                  (default true (asset_loop entry))])%list).
Proof.
  unfold has_frames, load_entry. destruct acc as [m h].
  destruct (asset_frames entry); [contradiction | reflexivity].
Qed.

Lemma load_entry_no_frames acc entry :
  ~ has_frames entry -> load_entry acc entry = acc.
Proof.
  unfold has_frames, load_entry. destruct acc as [m h].
  destruct (asset_frames entry); [reflexivity|].
  intros H. exfalso. apply H. discriminate.
Qed.

Lemma has_frames_dec entry : {has_frames entry} + {~ has_frames entry}.
Proof.
  unfold has_frames. destruct (asset_frames entry).
  - right. intros H. apply H. reflexivity.
  - left. discriminate.
Qed.

Lemma load_entries_prefix entries : forall acc ref,
  (ref < length (snd acc))%nat ->
  snd (foldl load_entry acc entries) !! ref = snd acc !! ref.
Proof.
  induction entries as [|entry entries IH]; intros acc ref Hlt; [reflexivity|].
  cbn [foldl]. destruct (has_frames_dec entry) as [Hf | Hf].
  - rewrite (load_entry_frames acc entry Hf).
    rewrite IH by (cbn; rewrite length_app; cbn; lia).
    cbn. apply lookup_app_l. exact Hlt.
  - rewrite (load_entry_no_frames acc entry Hf). apply IH, Hlt.
Qed.

Lemma load_entries_objects entries : forall acc animation_name ref,
  fst (foldl load_entry acc entries) !! animation_name = Some ref ->
  fst acc !! animation_name = Some ref \/
  exists entry,
    In entry entries /\ asset_name entry = animation_name /\
    has_frames entry /\
    snd (foldl load_entry acc entries) !! ref =
    Some (Animation.__init__ animation_name (asset_frames entry)
            (default 24%Z (asset_fps entry))
            (default true (asset_loop entry))).
Proof.
  induction entries as [|entry entries IH]; intros acc animation_name ref;
    cbn [foldl]; [left; assumption|].
  intros Hres. destruct (IH _ _ _ Hres) as [Hacc | (entry' & Hin & Hrest)].
  2:{ right. exists entry'. split; [right; exact Hin | exact Hrest]. }
  destruct (has_frames_dec entry) as [Hf | Hf].
  - rewrite (load_entry_frames acc entry Hf) in Hacc. cbn [fst] in Hacc.
    destruct (decide (asset_name entry = animation_name)) as [Heq | Hne].
    + rewrite Heq, lookup_insert_eq in Hacc. injection Hacc as <-.
      right. exists entry. split; [left; reflexivity|].
      split; [exact Heq|]. split; [exact Hf|].
      rewrite load_entries_prefix.
      * rewrite (load_entry_frames acc entry Hf). cbn [snd].
        rewrite lookup_app_r by lia. rewrite Nat.sub_diag, Heq. reflexivity.
      * rewrite (load_entry_frames acc entry Hf). cbn [snd].
        rewrite length_app. cbn. lia.
    + rewrite lookup_insert_ne in Hacc by exact Hne. left. exact Hacc.
  - rewrite (load_entry_no_frames acc entry Hf) in Hacc. left. exact Hacc.
Qed.

Lemma load_entries_names entries : forall acc animation_name,
  is_Some (fst (foldl load_entry acc entries) !! animation_name) <->
  is_Some (fst acc !! animation_name) \/
  exists entry,
    In entry entries /\ asset_name entry = animation_name /\ has_frames entry.
Proof.
  induction entries as [|entry entries IH]; intros acc animation_name;
    cbn [foldl].
  { split; [intros H; left; exact H|].
    intros [H | (entry & [] & _)]. exact H. }
  rewrite IH. destruct (has_frames_dec entry) as [Hf | Hf].
  - rewrite (load_entry_frames acc entry Hf). cbn [fst].
    rewrite lookup_insert_is_Some. split.
    + intros [[Heq | [_ Hacc]] | (entry' & Hin & Hrest)].
      * right. exists entry. split; [left; reflexivity|]. split; assumption.
      * left. exact Hacc.
      * right. exists entry'. split; [right; exact Hin | exact Hrest].
    + intros [Hacc | (entry' & [<- | Hin] & Hname & Hf')].
      * left. destruct (decide (asset_name entry = animation_name));
          [left; assumption | right; split; assumption].
      * left. left. exact Hname.
      * right. exists entry'. split; [exact Hin|]. split; assumption.
  - rewrite (load_entry_no_frames acc entry Hf). split.
    + intros [Hacc | (entry' & Hin & Hrest)]; [left; exact Hacc|].
      right. exists entry'. split; [right; exact Hin | exact Hrest].
    + intros [Hacc | (entry' & [<- | Hin] & Hname & Hf')];
        [left; exact Hacc | contradiction |].
      right. exists entry'. split; [exact Hin|]. split; assumption.
Qed.

Lemma load_entries_nonempty entries h :
  fst (foldl load_entry (∅, h) entries) <> ∅ <->
  exists entry, In entry entries /\ has_frames entry.
Proof.
  split.
  - intros Hne. apply map_choose in Hne as (animation_name & ref & Href).
    assert (is_Some (fst (foldl load_entry (∅, h) entries) !! animation_name))
      as Hsome by (rewrite Href; eauto).
    apply load_entries_names in Hsome as [Hempty | (entry & Hin & _ & Hf)].
    + cbn in Hempty. rewrite lookup_empty in Hempty.
      destruct Hempty as [? ?]. discriminate.
    + exists entry. split; assumption.
  - intros (entry & Hin & Hf) Hempty.
    assert (is_Some (fst (foldl load_entry (∅, h) entries) !! asset_name entry))
      as Hsome.
    { apply load_entries_names. right. exists entry.
      split; [exact Hin|]. split; [reflexivity | exact Hf]. }
    rewrite Hempty, lookup_empty in Hsome. destruct Hsome as [? ?]. discriminate.
Qed.

(** X3. [_load_skin] succeeds exactly when the skin is found and at least
    one of its entries comes with frames; when it fails, the engine is left
    as it was. When it succeeds, the skin becomes the current one; its
    catalog holds exactly the names of the entries with frames, each
    referring to a sequence built from such an entry with [fps] 24 and
    [loop] true where the entry is silent, standing at frame 0; the other
    skins, the sequences already stored, the active sequence and the
    emitted frames are untouched. *)
Theorem load_skin_outcome e (skin_name : string) (assets : SkinAssets) :
  let loaded := fst (_load_skin e skin_name assets) in
  let e' := snd (_load_skin e skin_name assets) in
  (loaded = true <->
     exists entries,
       assets = Some entries /\
       exists entry, In entry entries /\ has_frames entry) /\
  (loaded = false -> e' = e) /\
  (forall entries,
     assets = Some entries -> loaded = true ->
     current_skin e' = skin_name /\
     (forall ref, (ref < length (heap e))%nat -> heap e' !! ref = heap e !! ref) /\
     (forall other, other <> skin_name ->
        animations e' !! other = animations e !! other) /\
     current_animation e' = current_animation e /\
     current_animation_name e' = current_animation_name e /\
     frame_changed e' = frame_changed e /\
     exists skin_animations,
       animations e' !! skin_name = Some skin_animations /\
       (forall animation_name,
          is_Some (skin_animations !! animation_name) <->
          exists entry,
            In entry entries /\ asset_name entry = animation_name /\
            has_frames entry) /\
       (forall animation_name ref,
          skin_animations !! animation_name = Some ref ->
          exists entry,
            In entry entries /\ asset_name entry = animation_name /\
            has_frames entry /\
            heap e' !! ref =
            Some (Animation.__init__ animation_name (asset_frames entry)
                    (default 24%Z (asset_fps entry))
                    (default true (asset_loop entry))))).
Proof.
  cbv zeta. unfold _load_skin.
  destruct assets as [entries|].
  2:{ cbn. split; [|split]; [split | reflexivity | discriminate].
      - discriminate.
      - intros (entries & Hd & _). discriminate. }
  pose proof (load_entries_nonempty entries (heap e)) as Hne.
  pose proof (load_entries_names entries (∅, heap e)) as Hnames.
  pose proof (load_entries_objects entries (∅, heap e)) as Hobj.
  pose proof (load_entries_prefix entries (∅, heap e)) as Hpre.
  destruct (foldl load_entry (∅, heap e) entries) as [m h].
  cbn [fst snd] in *.
  destruct (decide (m = ∅)) as [Hempty | Hfull]; cbn [fst snd].
  - split; [|split]; [split | reflexivity | discriminate].
    + discriminate.
    + intros (entries' & [= <-] & Hex). apply Hne in Hex. contradiction.
  - split; [|split]; [split | discriminate |].
    + intros _. exists entries. split; [reflexivity|]. apply Hne, Hfull.
    + reflexivity.
    + intros entries' [= <-] _. cbn.
      split; [reflexivity|]. split; [exact Hpre|].
      split; [intros other Hother; apply lookup_insert_ne; congruence|].
      do 3 (split; [reflexivity|]).
      exists m. split; [apply lookup_insert_eq|]. split.
      * intros animation_name. rewrite Hnames. split.
        -- intros [Hempty | H]; [|exact H].
           rewrite lookup_empty in Hempty. destruct Hempty as [? ?]. discriminate.
        -- intros H. right. exact H.
      * intros animation_name ref Href.
        destruct (Hobj _ _ Href) as [Hempty | H]; [|exact H].
        rewrite lookup_empty in Hempty. discriminate.
Qed.

Lemma load_skin_outcome_witness :
  fst (_load_skin (blank_engine "default") "default"
         (Some [mkAsset "idle" [] None None;
                mkAsset "walk" [Pixmap 7] None None])) = true.
Proof.
  apply (proj1 (load_skin_outcome (blank_engine "default") "default"
                  (Some [mkAsset "idle" [] None None;
                         mkAsset "walk" [Pixmap 7] None None]))).
  eexists. split; [reflexivity|].
  exists (mkAsset "walk" [Pixmap 7] None None).
  split; [right; left; reflexivity | discriminate].
Defined.

End Loading.

(** ** What the calls do to a well-formed engine *)

Section EngineCalls.

Import AnimationEngine.

Implicit Types (e : AnimationEngine.t).

Lemma set_heap_same e : set_heap (heap e) e = e.
Proof. destruct e. reflexivity. Qed.

Lemma advance_frame_not_advanced a now :
  fst (Animation.advance_frame a now) = false ->
  snd (Animation.advance_frame a now) = a.
Proof.
  unfold Animation.advance_frame.
  destruct (_ >=? _)%Z; [|reflexivity].
  destruct (Animation.frames a); [reflexivity | discriminate].
Qed.

Lemma set_animation_shape e animation_name now ok e' :
  engine_inv e ->
  set_animation e animation_name now = Returns (ok, e') ->
  (ok = false /\ catalog_lookup e animation_name = None /\ e' = e) \/
  (exists ref a,
     ok = true /\ catalog_lookup e animation_name = Some ref /\
     heap e !! ref = Some a /\ valid_index a /\
     e' = emit (hd NullPixmap (Animation.frames a))
            (set_current ref animation_name
               (set_heap (<[ref := Animation.reset a now]> (heap e)) e))).
Proof.
  intros Hinv.
  destruct (catalog_lookup e animation_name) as [ref|] eqn:Hcat.
  - destruct (inv_deref _ _ Hinv (inv_catalog _ _ _ Hinv Hcat))
      as (a & _ & Ha & Hv).
    rewrite (set_animation_present _ _ _ _ _ Hcat Ha).
    intros [= <- <-]. right. exists ref, a. auto 10.
  - rewrite (set_animation_absent _ _ _ Hcat).
    intros [= <- <-]. left. auto.
Qed.

Lemma update_frame_shape e now e' :
  engine_inv e ->
  _update_frame e now = Returns e' ->
  (current_animation e = None /\ e' = e) \/
  (exists ref a,
     current_animation e = Some ref /\ heap e !! ref = Some a /\
     valid_index a /\
     ((fst (Animation.advance_frame a now) = false /\ e' = e) \/
      (fst (Animation.advance_frame a now) = true /\
       exists frame,
         Animation.get_current_frame (snd (Animation.advance_frame a now))
         = Returns frame /\
         e' = emit frame
                (set_heap (<[ref := snd (Animation.advance_frame a now)]> (heap e))
                   e)))).
Proof.
  intros Hinv. pose proof Hinv as (_ & _ & Hcur). unfold _update_frame.
  destruct (current_animation e) as [ref|] eqn:Ecur.
  2:{ intros [= <-]. left. split; reflexivity. }
  destruct (inv_deref _ _ Hinv (Hcur _ eq_refl)) as (a & -> & Ha & Hv).
  cbn. intros Hres. right. exists ref, a.
  split; [reflexivity|]. split; [exact Ha|]. split; [exact Hv|].
  pose proof (advance_frame_not_advanced a now) as Hsame.
  pose proof (advance_frame_valid a now Hv) as Hv'.
  destruct (Animation.advance_frame a now) as [[|] a']; cbn [fst snd] in *.
  - right. split; [reflexivity|].
    destruct (get_current_frame_valid a' Hv') as (frame & Hget & _).
    rewrite Hget in Hres. cbn in Hres. injection Hres as <-.
    exists frame. split; [exact Hget | reflexivity].
  - left. split; [reflexivity|]. injection Hres as <-.
    rewrite (Hsame eq_refl), (list_insert_id _ _ _ Ha). apply set_heap_same.
Qed.

Lemma heap_insert_same_frames (h : list Animation.t) ref0 a0 a0' ref a :
  h !! ref0 = Some a0 ->
  Animation.frames a0' = Animation.frames a0 ->
  h !! ref = Some a ->
  exists a', <[ref0 := a0']> h !! ref = Some a' /\
             Animation.frames a' = Animation.frames a.
Proof.
  intros H0 Hf Ha. destruct (decide (ref0 = ref)) as [-> | Hne].
  - exists a0'. split.
    + apply list_lookup_insert_eq. apply lookup_lt_Some in H0. exact H0.
    + rewrite Hf. congruence.
  - exists a. split; [|reflexivity].
    rewrite list_lookup_insert_ne by exact Hne. exact Ha.
Qed.

Lemma load_skin_effect e skin_name assets :
  let e' := snd (_load_skin e skin_name assets) in
  frame_changed e' = frame_changed e /\
  current_animation e' = current_animation e /\
  (forall ref a, heap e !! ref = Some a -> heap e' !! ref = Some a) /\
  (forall skin skin_animations,
     animations e' !! skin = Some skin_animations ->
     animations e !! skin = Some skin_animations \/
     (skin = skin_name /\ skin_animations <> ∅ /\
      forall animation_name ref,
        skin_animations !! animation_name = Some ref ->
        exists a, heap e' !! ref = Some a /\ Animation.frames a <> [])).
Proof.
  cbv zeta. unfold _load_skin.
  destruct assets as [entries|]; [|cbn; auto].
  pose proof (load_entries_objects entries (∅, heap e)) as Hobj.
  pose proof (load_entries_prefix entries (∅, heap e)) as Hpre.
  destruct (foldl load_entry (∅, heap e) entries) as [m h].
  cbn [fst snd] in *.
  destruct (decide (m = ∅)) as [Hempty | Hfull]; cbn [fst snd]; [auto|].
  cbn. split; [reflexivity|]. split; [reflexivity|]. split.
  - intros ref a Ha. rewrite Hpre; [exact Ha|].
    apply lookup_lt_Some in Ha. exact Ha.
  - intros skin skin_animations.
    destruct (decide (skin_name = skin)) as [-> | Hne].
    + rewrite lookup_insert_eq. intros [= <-]. right.
      split; [reflexivity|]. split; [exact Hfull|].
      intros animation_name ref Href.
      destruct (Hobj _ _ Href) as [Hempty | (entry & _ & _ & Hf & Hlook)].
      { rewrite lookup_empty in Hempty. discriminate. }
      eexists. split; [exact Hlook|]. exact Hf.
    + rewrite lookup_insert_ne by exact Hne. intros H. left. exact H.
Qed.

Lemma catalog_populated_store e ref0 a0 a0' :
  heap e !! ref0 = Some a0 ->
  Animation.frames a0' = Animation.frames a0 ->
  catalog_populated e ->
  catalog_populated (set_heap (<[ref0 := a0']> (heap e)) e).
Proof.
  intros H0 Hf Hpop skin skin_animations Hskin.
  destruct (Hpop skin skin_animations Hskin) as [Hne Hrefs].
  split; [exact Hne|].
  intros animation_name ref Href.
  destruct (Hrefs _ _ Href) as (a & Ha & Hfr).
  destruct (heap_insert_same_frames _ _ _ _ _ _ H0 Hf Ha) as (a' & Ha' & Hf').
  exists a'. split; [exact Ha' | congruence].
Qed.

Lemma reachable_catalog e : reachable e -> catalog_populated e.
Proof.
  apply (P_reachable catalog_populated).
  - intros e0 skin_name assets Hinv Hpop skin skin_animations Hskin.
    destruct (load_skin_effect e0 skin_name assets) as (_ & _ & Hheap & Hcat).
    destruct (Hcat _ _ Hskin) as [Hold | (_ & Hne & Hrefs)].
    + destruct (Hpop _ _ Hold) as [Hne Hrefs]. split; [exact Hne|].
      intros animation_name ref Href.
      destruct (Hrefs _ _ Href) as (a & Ha & Hf). eauto.
    + split; assumption.
  - intros e0 animation_name now ok e' Hinv Hpop Hset.
    destruct (set_animation_shape _ _ _ _ _ Hinv Hset)
      as [(_ & _ & ->) | (ref & a & _ & _ & Ha & _ & ->)]; [exact Hpop|].
    exact (catalog_populated_store e0 ref a (Animation.reset a now)
             Ha eq_refl Hpop).
  - intros e0 now e' Hinv Hpop Hupd.
    destruct (update_frame_shape _ _ _ Hinv Hupd)
      as [[_ ->] | (ref & a & _ & Ha & _ & [[_ ->] | (_ & frame & _ & ->)])];
      try exact Hpop.
    exact (catalog_populated_store e0 ref a
             (snd (Animation.advance_frame a now)) Ha
             (advance_frame_frames a now) Hpop).
  - intros e0 skin_name H. exact H.
  - intros e0 skin_name H. exact H.
  - intros e0 b H. exact H.
  - intros e0 skin_name Hpop skin skin_animations Hskin. cbn in Hskin.
    apply lookup_delete_Some in Hskin as [_ Hskin]. exact (Hpop _ _ Hskin).
  - intros configured_skin skin skin_animations Hskin. cbn in Hskin.
    rewrite lookup_empty in Hskin. discriminate.
Qed.

Lemma emitted_from_store_store e ref0 a0 a0' :
  heap e !! ref0 = Some a0 ->
  Animation.frames a0' = Animation.frames a0 ->
  emitted_from_store e ->
  emitted_from_store (set_heap (<[ref0 := a0']> (heap e)) e).
Proof.
  intros H0 Hf Hem frame Hin.
  destruct (Hem frame Hin) as (ref & a & Ha & Hfr).
  destruct (heap_insert_same_frames _ _ _ _ _ _ H0 Hf Ha) as (a' & Ha' & Hf').
  exists ref, a'. split; [exact Ha' | rewrite Hf'; exact Hfr].
Qed.

Lemma emitted_from_store_emit e frame ref a :
  heap e !! ref = Some a -> In frame (Animation.frames a) ->
  emitted_from_store e -> emitted_from_store (emit frame e).
Proof.
  intros Ha Hfr Hem frame' Hin. cbn in Hin.
  apply in_app_or in Hin as [Hold | [<- | []]].
  - exact (Hem _ Hold).
  - exists ref, a. split; assumption.
Qed.

Lemma reachable_inv e : reachable e -> engine_inv e.
Proof.
  intros (configured_skin & assets & calls & Hrun).
  destruct (run_inv calls _ (init_inv configured_skin assets))
    as (e1 & Hrun1 & Hinv).
  congruence.
Qed.

End EngineCalls.

(** ** Properties of reachable engines *)

Section EngineProperties.

Import AnimationEngine.

Implicit Types (e : AnimationEngine.t).

(** The engine of the examples is reached from its constructor. *)
Ltac demo_reachable :=
  exists "default",
         (Some [mkAsset "idle" [Pixmap 0; Pixmap 1] (Some 24%Z) None;
                mkAsset "walk" [] None None]),
         (@nil call);
  reflexivity.

Ltac demo_started_reachable :=
  exists "default",
         (Some [mkAsset "idle" [Pixmap 0; Pixmap 1] (Some 24%Z) None;
                mkAsset "walk" [] None None]),
         demo_calls;
  vm_compute; reflexivity.

(** X4. In every engine reached from its constructor, every skin of the
    catalog holds at least one sequence and every sequence of the catalog is
    stored with at least one frame: a skin without frames is never kept, and
    no listed skin has an empty list of animations. *)
Theorem catalog_always_populated e :
  reachable e ->
  (forall skin skin_animations,
     animations e !! skin = Some skin_animations ->
     skin_animations <> ∅ /\
     forall animation_name ref,
       skin_animations !! animation_name = Some ref ->
       exists a, heap e !! ref = Some a /\ Animation.frames a <> []) /\
  (forall skin,
     skin ∈ get_available_skins e ->
     get_available_animations e (Some skin) <> ∅).
Proof.
  intros Hreach. pose proof (reachable_catalog e Hreach) as Hpop.
  split; [exact Hpop|].
  intros skin Hskin. unfold get_available_skins in Hskin.
  apply elem_of_dom in Hskin as [skin_animations Hskin].
  unfold get_available_animations. cbn. rewrite Hskin.
  destruct (Hpop _ _ Hskin) as [Hne _].
  intros Hdom. apply dom_empty_iff_L in Hdom. contradiction.
Qed.

Lemma catalog_always_populated_witness :
  get_available_animations demo_engine (Some "default") <> ∅.
Proof.
  apply (proj2 (catalog_always_populated demo_engine ltac:(demo_reachable))).
  vm_compute. reflexivity.
Defined.

(** X5. In every engine reached from its constructor, every frame emitted
    through the change notification is a frame of a stored sequence: the
    engine never notifies a frame that the loader did not deliver. *)
Theorem emitted_frames_are_stored e :
  reachable e ->
  forall frame,
    In frame (frame_changed e) ->
    exists ref a, heap e !! ref = Some a /\ In frame (Animation.frames a).
Proof.
  change (reachable e -> emitted_from_store e).
  apply (P_reachable emitted_from_store).
  - intros e0 skin_name assets Hinv Hem frame Hin.
    destruct (load_skin_effect e0 skin_name assets) as (Hfc & _ & Hheap & _).
    rewrite Hfc in Hin. destruct (Hem frame Hin) as (ref & a & Ha & Hfr).
    exists ref, a. split; [apply Hheap, Ha | exact Hfr].
  - intros e0 animation_name now ok e' Hinv Hem Hset.
    destruct (set_animation_shape _ _ _ _ _ Hinv Hset)
      as [(_ & _ & ->) | (ref & a & _ & _ & Ha & Hv & ->)]; [exact Hem|].
    apply (emitted_from_store_emit _ _ ref (Animation.reset a now)).
    + cbn. apply list_lookup_insert_eq. apply lookup_lt_Some in Ha. exact Ha.
    + cbn. pose proof (valid_index_nonempty a Hv) as Hne.
      destruct (Animation.frames a); [contradiction | left; reflexivity].
    + exact (emitted_from_store_store e0 ref a (Animation.reset a now)
               Ha eq_refl Hem).
  - intros e0 now e' Hinv Hem Hupd.
    destruct (update_frame_shape _ _ _ Hinv Hupd)
      as [[_ ->] | (ref & a & _ & Ha & Hv & [[_ ->] | (_ & frame & Hget & ->)])];
      try exact Hem.
    apply (emitted_from_store_emit _ _ ref (snd (Animation.advance_frame a now))).
    + cbn. apply list_lookup_insert_eq. apply lookup_lt_Some in Ha. exact Ha.
    + destruct (get_current_frame_valid _ (advance_frame_valid a now Hv))
        as (frame' & Hget' & Hlook).
      rewrite Hget in Hget'. injection Hget' as <-.
      apply list_elem_of_In. apply list_elem_of_lookup. eauto.
    + exact (emitted_from_store_store e0 ref a
               (snd (Animation.advance_frame a now)) Ha
               (advance_frame_frames a now) Hem).
  - intros e0 skin_name H. exact H.
  - intros e0 skin_name H. exact H.
  - intros e0 b H. exact H.
  - intros e0 skin_name H. exact H.
  - intros configured_skin frame [].
Qed.

Lemma emitted_frames_are_stored_witness :
  exists ref a,
    heap demo_started !! ref = Some a /\ In (Pixmap 1) (Animation.frames a).
Proof.
  apply (emitted_frames_are_stored demo_started ltac:(demo_started_reachable)).
  vm_compute. right. left. reflexivity.
Defined.

(** X6. In every engine reached from its constructor, the frame emitted
    last is the frame [get_current_frame] returns, and as long as nothing
    was emitted no sequence is active: a display that only follows the
    notifications shows the current frame. *)
Theorem display_follows_notifications e :
  reachable e ->
  match last (frame_changed e) with
  | Some frame => get_current_frame e = Returns frame
  | None => current_animation e = None
  end.
Proof.
  change (reachable e -> display_in_sync e).
  apply (P_reachable display_in_sync).
  - intros e0 skin_name assets Hinv Hsync.
    destruct (load_skin_effect e0 skin_name assets) as (Hfc & Hcur & Hheap & _).
    unfold display_in_sync in *. rewrite Hfc.
    destruct (last (frame_changed e0)) as [frame|]; [|congruence].
    unfold get_current_frame in *. rewrite Hcur.
    destruct (current_animation e0) as [ref|] eqn:Ecur; [|exact Hsync].
    destruct Hinv as (Hall & Hcat & Hlt).
    destruct (lookup_lt_is_Some_2 _ _ (Hlt _ Ecur)) as [a Ha].
    unfold deref in *. rewrite (Hheap _ _ Ha). rewrite Ha in Hsync. exact Hsync.
  - intros e0 animation_name now ok e' Hinv Hsync Hset.
    destruct (set_animation_shape _ _ _ _ _ Hinv Hset)
      as [(_ & _ & ->) | (ref & a & _ & _ & Ha & Hv & ->)]; [exact Hsync|].
    unfold display_in_sync. cbn [frame_changed emit]. rewrite last_snoc.
    unfold get_current_frame, deref. cbn.
    rewrite list_lookup_insert_eq by (apply lookup_lt_Some in Ha; exact Ha).
    cbn. apply get_current_frame_reset.
  - intros e0 now e' Hinv Hsync Hupd.
    destruct (update_frame_shape _ _ _ Hinv Hupd)
      as [[_ ->] | (ref & a & Ecur & Ha & Hv & [[_ ->] | (_ & frame & Hget & ->)])];
      try exact Hsync.
    unfold display_in_sync. cbn [frame_changed emit]. rewrite last_snoc.
    unfold get_current_frame, deref. cbn. rewrite Ecur.
    rewrite list_lookup_insert_eq by (apply lookup_lt_Some in Ha; exact Ha).
    cbn. exact Hget.
  - intros e0 skin_name H. exact H.
  - intros e0 skin_name H. exact H.
  - intros e0 b H. exact H.
  - intros e0 skin_name H. exact H.
  - intros configured_skin. reflexivity.
Qed.

Lemma display_follows_notifications_witness :
  get_current_frame demo_started = Returns (Pixmap 1).
Proof.
  exact (display_follows_notifications demo_started
           ltac:(demo_started_reachable)).
Defined.

(** X7. In an engine reached from its constructor, the names listed by
    [get_available_animations] for the current skin are exactly the names
    [set_animation] accepts. *)
Theorem available_iff_accepted e (animation_name : string) (now : Z) :
  reachable e ->
  (animation_name ∈ get_available_animations e None <->
   exists e', set_animation e animation_name now = Returns (true, e')).
Proof.
  intros Hreach. pose proof (reachable_inv e Hreach) as Hinv.
  assert (animation_name ∈ get_available_animations e None <->
          is_Some (catalog_lookup e animation_name)) as ->.
  { unfold get_available_animations, catalog_lookup. cbn.
    destruct (animations e !! current_skin e) as [skin_animations|].
    - apply elem_of_dom.
    - split; [intros H; apply not_elem_of_empty in H; contradiction|].
      intros [? ?]. discriminate. }
  split.
  - intros [ref Hcat].
    destruct (inv_deref _ _ Hinv (inv_catalog _ _ _ Hinv Hcat))
      as (a & _ & Ha & _).
    rewrite (set_animation_present _ _ _ _ _ Hcat Ha). eauto.
  - intros [e' Hset].
    destruct (set_animation_shape _ _ _ _ _ Hinv Hset)
      as [(Hok & _) | (ref & a & _ & Hcat & _)]; [discriminate|].
    rewrite Hcat. eauto.
Qed.

Lemma available_iff_accepted_witness :
  exists e', set_animation demo_engine "idle" 5 = Returns (true, e').
Proof.
  apply (proj1 (available_iff_accepted demo_engine "idle" 5
                  ltac:(demo_reachable))).
  vm_compute. reflexivity.
Defined.

Lemma advance_frame_early a (now : Z) :
  (now - Animation.last_frame_time a < Animation.frame_duration_ms a)%Z ->
  Animation.advance_frame a now = (false, a).
Proof.
  intros Hearly. unfold Animation.advance_frame.
  destruct (_ >=? _)%Z eqn:E; [|reflexivity].
  apply Z.geb_le in E. lia.
Qed.

Lemma current_frame_after_store e ref a :
  current_animation e = Some ref ->
  (ref < length (heap e))%nat ->
  get_current_frame (set_heap (<[ref := a]> (heap e)) e) =
  Animation.get_current_frame a.
Proof.
  intros Hcur Hlt. unfold get_current_frame, deref. cbn. rewrite Hcur.
  rewrite list_lookup_insert_eq by exact Hlt. reflexivity.
Qed.

(** X8. A timer tick on an engine reached from its constructor always
    returns and leaves the catalog, the skin, the active sequence and its
    name as they are. Without an active sequence it changes nothing; before
    the active sequence is due it changes nothing; when the sequence is due
    it moves that sequence alone to the next frame, modulo the number of
    frames, and emits exactly that frame, which [get_current_frame] then
    returns. *)
Theorem update_frame_outcome e (now : Z) :
  reachable e ->
  exists e',
    _update_frame e now = Returns e' /\
    animations e' = animations e /\
    current_skin e' = current_skin e /\
    current_animation e' = current_animation e /\
    current_animation_name e' = current_animation_name e /\
    (current_animation e = None -> e' = e) /\
    (forall ref a,
       current_animation e = Some ref -> heap e !! ref = Some a ->
       ((now - Animation.last_frame_time a < Animation.frame_duration_ms a)%Z ->
          e' = e) /\
       ((Animation.frame_duration_ms a <= now - Animation.last_frame_time a)%Z ->
          exists frame,
            Animation.frames a
              !! Z.to_nat ((Animation.current_frame a + 1)
                             mod Z.of_nat (length (Animation.frames a)))
            = Some frame /\
            frame_changed e' = (frame_changed e ++ [frame])%list /\
            get_current_frame e' = Returns frame /\
            forall ref', ref' <> ref -> heap e' !! ref' = heap e !! ref')).
Proof.
  intros Hreach. pose proof (reachable_inv e Hreach) as Hinv.
  destruct (_update_frame_inv e now Hinv) as (e' & Hupd & _).
  exists e'. split; [exact Hupd|].
  destruct (update_frame_shape _ _ _ Hinv Hupd)
    as [[Hnone ->] | (ref & a & Hcur & Ha & Hv & Hcase)].
  { do 4 (split; [reflexivity|]). split; [reflexivity|].
    intros ref a Hcur. congruence. }
  assert (animations e' = animations e /\ current_skin e' = current_skin e /\
          current_animation e' = current_animation e /\
          current_animation_name e' = current_animation_name e) as Hsame.
  { destruct Hcase as [[_ ->] | (_ & frame & _ & ->)]; repeat split. }
  destruct Hsame as (H1 & H2 & H3 & H4).
  do 4 (split; [assumption|]). split; [congruence|].
  intros ref' a' Hcur' Ha'.
  assert (ref' = ref) as -> by congruence.
  assert (a' = a) as -> by congruence.
  split.
  - intros Hearly. rewrite (advance_frame_early a now Hearly) in Hcase.
    destruct Hcase as [[_ ->] | (Hf & _)]; [reflexivity | discriminate].
  - intros Hdue.
    destruct (advance_frame_due a now Hv Hdue)
      as (Hok & Hv' & Hcf & _ & Hfr & _).
    destruct Hcase as [[Hf _] | (_ & frame & Hget & ->)]; [congruence|].
    destruct (get_current_frame_valid _ Hv') as (frame' & Hget' & Hlook).
    assert (frame' = frame) as -> by congruence.
    exists frame. rewrite Hfr, Hcf in Hlook.
    split; [exact Hlook|]. split; [reflexivity|]. split.
    + change (get_current_frame
                (set_heap (<[ref := snd (Animation.advance_frame a now)]> (heap e)) e)
              = Returns frame).
      rewrite current_frame_after_store; [exact Hget | exact Hcur |].
      apply lookup_lt_Some in Ha. exact Ha.
    + intros ref'' Hne. cbn. apply list_lookup_insert_ne. congruence.
Qed.

Lemma update_frame_outcome_witness :
  exists e', _update_frame demo_started 110 = Returns e' /\
             animations e' = animations demo_started.
Proof.
  destruct (update_frame_outcome demo_started 110
              ltac:(demo_started_reachable)) as (e' & Hupd & Hcat & _).
  exists e'. split; assumption.
Defined.

Lemma set_animation_chosen e animation_name now ref :
  engine_inv e ->
  catalog_lookup e animation_name = Some ref ->
  exists e' frame,
    set_animation e animation_name now = Returns (true, e') /\
    animations e' = animations e /\
    current_skin e' = current_skin e /\
    timer_active e' = timer_active e /\
    current_animation_name e' = animation_name /\
    current_animation e' = Some ref /\
    frame_changed e' = (frame_changed e ++ [frame])%list /\
    get_current_frame e' = Returns frame /\
    exists a, heap e' !! ref = Some a /\
              Animation.current_frame a = 0%Z /\
              Animation.last_frame_time a = now.
Proof.
  intros Hinv Hcat.
  destruct (inv_deref _ _ Hinv (inv_catalog _ _ _ Hinv Hcat))
    as (a & _ & Ha & _).
  pose proof (lookup_lt_Some _ _ _ Ha) as Hlt.
  eexists _, _. split; [apply (set_animation_present _ _ _ _ _ Hcat Ha)|].
  cbn. do 6 (split; [reflexivity|]).
  split.
  - unfold get_current_frame, deref. cbn.
    rewrite list_lookup_insert_eq by exact Hlt. cbn.
    apply get_current_frame_reset.
  - exists (Animation.reset a now).
    split; [apply list_lookup_insert_eq, Hlt|]. split; reflexivity.
Qed.

Lemma start_with_choice e now animation_name ref :
  engine_inv e ->
  timer_active e = false ->
  current_animation e = None ->
  startup_choice e = Some animation_name ->
  catalog_lookup e animation_name = Some ref ->
  exists e1,
    set_animation e animation_name now = Returns (true, e1) /\
    start e now = Returns (set_timer_active true e1).
Proof.
  intros Hinv Htimer Hcur Hchoice Hcat.
  destruct (set_animation_chosen e animation_name now ref Hinv Hcat)
    as (e1 & frame & Hset & _).
  exists e1. split; [exact Hset|].
  unfold start. rewrite Htimer, Hcur. cbn [negb].
  unfold startup_choice in Hchoice.
  destruct (catalog_lookup e "calm") as [r1|] eqn:E1.
  { injection Hchoice as <-. rewrite Hset. reflexivity. }
  rewrite (set_animation_absent _ _ now E1). cbn.
  destruct (catalog_lookup e "active") as [r2|] eqn:E2.
  { injection Hchoice as <-. rewrite Hset. reflexivity. }
  rewrite (set_animation_absent _ _ now E2). cbn.
  destruct (catalog_lookup e "idle") as [r3|] eqn:E3; [|discriminate].
  injection Hchoice as <-. rewrite Hset. reflexivity.
Qed.

(** X9. [start] on an engine reached from its constructor always returns.
    With the timer running it changes nothing. Otherwise it starts the timer
    and keeps the catalog and the skin; a sequence that is already active is
    left alone, neither reset nor emitted again; without an active sequence
    the first of "calm", "active" and "idle" that the current skin holds
    becomes the active one, is reset (it stands at its first frame, with
    the time of the call as the time of its last change) and its first frame
    is emitted; when the skin holds none of them the timer starts all the
    same with no sequence active. *)
Theorem start_outcome e (now : Z) :
  reachable e ->
  (timer_active e = true -> start e now = Returns e) /\
  (timer_active e = false ->
   exists e',
     start e now = Returns e' /\
     timer_active e' = true /\
     animations e' = animations e /\
     current_skin e' = current_skin e /\
     (is_Some (current_animation e) -> e' = set_timer_active true e) /\
     (current_animation e = None ->
      match startup_choice e with
      | Some animation_name =>
          current_animation_name e' = animation_name /\
          current_animation e' = catalog_lookup e animation_name /\
          (exists ref a,
             current_animation e' = Some ref /\
             heap e' !! ref = Some a /\
             Animation.current_frame a = 0%Z /\
             Animation.last_frame_time a = now) /\
          exists frame,
            frame_changed e' = (frame_changed e ++ [frame])%list /\
            get_current_frame e' = Returns frame
      | None => e' = set_timer_active true e
      end)).
Proof.
  intros Hreach. pose proof (reachable_inv e Hreach) as Hinv.
  split.
  { intros Htimer. unfold start. rewrite Htimer. reflexivity. }
  intros Htimer.
  destruct (current_animation e) as [cur|] eqn:Hcur.
  { exists (set_timer_active true e).
    split; [unfold start; rewrite Htimer, Hcur; reflexivity|].
    do 3 (split; [reflexivity|]). split; [reflexivity | discriminate]. }
  destruct (startup_choice e) as [animation_name|] eqn:Hchoice.
  - assert (exists ref, catalog_lookup e animation_name = Some ref) as [ref Hcat].
    { unfold startup_choice in Hchoice.
      destruct (catalog_lookup e "calm") as [r1|] eqn:E1;
        [injection Hchoice as <-; eauto|].
      destruct (catalog_lookup e "active") as [r2|] eqn:E2;
        [injection Hchoice as <-; eauto|].
      destruct (catalog_lookup e "idle") as [r3|] eqn:E3;
        [injection Hchoice as <-; eauto | discriminate]. }
    destruct (start_with_choice e now animation_name ref
                Hinv Htimer Hcur Hchoice Hcat) as (e1 & Hset & Hstart).
    destruct (set_animation_chosen e animation_name now ref Hinv Hcat)
      as (e1' & frame & Hset' & Hanim & Hskin & _ & Hname & Hcur1 & Hfc & Hget
          & a & Hheap & Hfirst & Htime).
    assert (e1' = e1) as -> by congruence.
    exists (set_timer_active true e1). split; [exact Hstart|].
    split; [reflexivity|]. split; [exact Hanim|]. split; [exact Hskin|].
    split; [intros [? ?]; discriminate|]. intros _.
    split; [exact Hname|]. split; [rewrite Hcat; exact Hcur1|].
    split.
    { exists ref, a. split; [exact Hcur1|]. split; [exact Hheap|].
      split; [exact Hfirst | exact Htime]. }
    exists frame. split; [exact Hfc | exact Hget].
  - exists (set_timer_active true e).
    split.
    { unfold start. rewrite Htimer, Hcur. cbn [negb].
      unfold startup_choice in Hchoice.
      destruct (catalog_lookup e "calm") eqn:E1; [discriminate|].
      destruct (catalog_lookup e "active") eqn:E2; [discriminate|].
      destruct (catalog_lookup e "idle") eqn:E3; [discriminate|].
      rewrite (set_animation_absent _ _ now E1). cbn.
      rewrite (set_animation_absent _ _ now E2). cbn.
      rewrite (set_animation_absent _ _ now E3). reflexivity. }
    do 3 (split; [reflexivity|]). split; reflexivity.
Qed.

Lemma start_outcome_witness : start demo_started 500 = Returns demo_started.
Proof.
  apply (proj1 (start_outcome demo_started 500 ltac:(demo_started_reachable))).
  vm_compute. reflexivity.
Defined.

Lemma load_skin_failed e skin_name assets :
  fst (_load_skin e skin_name assets) = false ->
  snd (_load_skin e skin_name assets) = e.
Proof.
  unfold _load_skin. destruct assets as [entries|]; [|reflexivity].
  destruct (foldl load_entry (∅, heap e) entries) as [m h].
  destruct (decide (m = ∅)); [reflexivity | discriminate].
Qed.

Lemma set_skin_cached e skin_name assets now skin_animations :
  animations e !! skin_name = Some skin_animations ->
  set_skin e skin_name assets now =
  r ← set_animation
        (set_config_current_skin skin_name (set_current_skin skin_name e))
        (current_animation_name e) now;
  Returns (true, snd r).
Proof.
  intros Hskin. unfold set_skin. rewrite Hskin. cbn.
  destruct (set_animation _ _ now) as [[ok e1]|err]; reflexivity.
Qed.

(** X10. [set_skin] on an engine reached from its constructor: for a skin
    that is not in the catalog and cannot be loaded it returns false and
    changes nothing. For a skin already in the catalog it never consults the
    loader and returns true; the skin becomes the current one in the engine
    and in the configuration, and the current animation name is kept. When
    the skin holds a sequence of that name, that sequence becomes the active
    one, reset to frame 0 at the time read; when it holds none, the
    sequence of the previous skin stays active and nothing is emitted. *)
Theorem set_skin_outcome e (skin_name : string) (assets : SkinAssets) (now : Z) :
  reachable e ->
  (animations e !! skin_name = None ->
   fst (_load_skin e skin_name assets) = false ->
   set_skin e skin_name assets now = Returns (false, e)) /\
  (forall skin_animations,
     animations e !! skin_name = Some skin_animations ->
     (forall assets',
        set_skin e skin_name assets' now = set_skin e skin_name assets now) /\
     exists e',
       set_skin e skin_name assets now = Returns (true, e') /\
       current_skin e' = skin_name /\
       config_current_skin e' = skin_name /\
       animations e' = animations e /\
       current_animation_name e' = current_animation_name e /\
       (skin_animations !! current_animation_name e = None ->
        current_animation e' = current_animation e /\
        heap e' = heap e /\
        frame_changed e' = frame_changed e) /\
       (forall ref,
          skin_animations !! current_animation_name e = Some ref ->
          current_animation e' = Some ref /\
          exists a, heap e' !! ref = Some a /\
                    Animation.current_frame a = 0%Z /\
                    Animation.last_frame_time a = now)).
Proof.
  intros Hreach. pose proof (reachable_inv e Hreach) as Hinv. split.
  { intros Hnone Hfail. unfold set_skin. rewrite Hnone.
    pose proof (load_skin_failed e skin_name assets Hfail) as Hsame.
    destruct (_load_skin e skin_name assets) as [loaded e1].
    cbn [fst snd] in *. subst. reflexivity. }
  intros skin_animations Hskin. split.
  { intros assets'.
    rewrite !(set_skin_cached _ _ _ _ _ Hskin). reflexivity. }
  rewrite (set_skin_cached _ _ _ _ _ Hskin).
  set (e2 := set_config_current_skin skin_name (set_current_skin skin_name e)).
  assert (engine_inv e2) as Hinv2 by exact Hinv.
  assert (catalog_lookup e2 (current_animation_name e) =
          skin_animations !! current_animation_name e) as Hlook.
  { unfold catalog_lookup. cbn. rewrite Hskin. reflexivity. }
  destruct (skin_animations !! current_animation_name e) as [ref|] eqn:Hname.
  - destruct (set_animation_chosen e2 (current_animation_name e) now ref
                Hinv2 Hlook)
      as (e3 & frame & Hset & Hanim & Hcs & _ & Hn & Hcur & _ & _ & a & Ha).
    rewrite Hset. cbn. exists e3. split; [reflexivity|].
    split; [exact Hcs|].
    split.
    { destruct (set_animation_shape _ _ _ _ _ Hinv2 Hset)
        as [(_ & _ & ->) | (? & ? & _ & _ & _ & _ & ->)]; reflexivity. }
    split; [exact Hanim|]. split; [exact Hn|].
    split; [discriminate|].
    intros ref' [= <-]. split; [exact Hcur|]. exists a. exact Ha.
  - rewrite (set_animation_absent _ _ now Hlook). cbn.
    exists e2. split; [reflexivity|].
    do 4 (split; [reflexivity|]).
    split; [intros _; repeat split | discriminate].
Qed.

Lemma set_skin_outcome_witness :
  set_skin demo_started "missing" None 700 = Returns (false, demo_started).
Proof.
  apply (proj1 (set_skin_outcome demo_started "missing" None 700
                  ltac:(demo_started_reachable))).
  - vm_compute. reflexivity.
  - reflexivity.
Defined.

(** X11. [reload_skin] on an engine reached from its constructor never
    disturbs what is shown: the active sequence, its name, the emitted frames
    and the frame [get_current_frame] returns are as before. When the reload
    fails, the skin is gone from the catalog and the current skin is as
    before, so after a failed reload of the current skin every
    [set_animation] is refused while the old sequence stays active. *)
Theorem reload_skin_outcome e (skin_name : option string) (assets : SkinAssets) :
  reachable e ->
  let e' := snd (reload_skin e skin_name assets) in
  get_current_frame e' = get_current_frame e /\
  current_animation e' = current_animation e /\
  current_animation_name e' = current_animation_name e /\
  frame_changed e' = frame_changed e /\
  (fst (reload_skin e skin_name assets) = false ->
   animations e' !! default (current_skin e) skin_name = None /\
   current_skin e' = current_skin e /\
   (skin_name = None ->
    forall animation_name now,
      set_animation e' animation_name now = Returns (false, e'))).
Proof.
  intros Hreach. pose proof (reachable_inv e Hreach) as Hinv. cbv zeta.
  unfold reload_skin.
  set (target := default (current_skin e) skin_name).
  set (e2 := set_animations (delete target (animations e)) e).
  destruct (load_skin_effect e2 target assets) as (Hfc & Hcur & Hheap & _).
  split.
  { unfold get_current_frame. rewrite Hcur.
    change (current_animation e2) with (current_animation e).
    destruct (current_animation e) as [ref|] eqn:Ecur; [|reflexivity].
    destruct Hinv as (_ & _ & Hlt).
    destruct (lookup_lt_is_Some_2 _ _ (Hlt _ Ecur)) as [a Ha].
    unfold deref. rewrite (Hheap ref a Ha), Ha. reflexivity. }
  split; [exact Hcur|].
  split.
  { unfold _load_skin. destruct assets as [entries|]; [|reflexivity].
    destruct (foldl load_entry (∅, heap e2) entries) as [m h].
    destruct (decide (m = ∅)); reflexivity. }
  split; [exact Hfc|].
  intros Hfail. rewrite (load_skin_failed e2 target assets Hfail).
  split; [cbn; apply lookup_delete_eq|]. split; [reflexivity|].
  intros -> animation_name now. apply set_animation_absent.
  unfold catalog_lookup. cbn. subst target. cbn.
  rewrite lookup_delete_eq. reflexivity.
Qed.

Lemma reload_skin_outcome_witness :
  get_current_frame (snd (reload_skin demo_started None None))
  = get_current_frame demo_started.
Proof.
  apply (reload_skin_outcome demo_started None None
           ltac:(demo_started_reachable)).
Defined.

Lemma skinless_step e c :
  animations e = ∅ -> current_animation e = None -> loads_nothing c ->
  exists e',
    step e c = Returns e' /\
    animations e' = ∅ /\ current_animation e' = None /\
    frame_changed e' = frame_changed e.
Proof.
  intros Hcat Hcur Hc.
  assert (forall animation_name now,
            set_animation e animation_name now = Returns (false, e)) as Hset.
  { intros animation_name now. apply set_animation_absent.
    unfold catalog_lookup. rewrite Hcat, lookup_empty. reflexivity. }
  destruct c; cbn [step]; try contradiction.
  - rewrite Hset. cbn. eauto.
  - unfold start. destruct (timer_active e); cbn [negb]; [eauto|].
    rewrite Hcur, Hset. cbn. rewrite Hset. cbn. rewrite Hset. cbn.
    eexists. split; [reflexivity|]. cbn. auto.
  - eexists. split; [reflexivity|]. cbn. auto.
  - unfold _update_frame. rewrite Hcur. eauto.
Qed.

(** X12. When the configured skin cannot be loaded, the engine is inert
    until a skin is loaded: whatever is asked of it short of [set_skin] and
    [reload_skin], every call returns, no sequence becomes active, no frame
    is emitted, and [get_current_frame] returns the empty placeholder. *)
Theorem engine_without_skin_is_inert configured_skin assets calls :
  fst (_load_skin (blank_engine configured_skin) configured_skin assets) = false ->
  Forall loads_nothing calls ->
  exists e,
    run (__init__ configured_skin assets) calls = Returns e /\
    current_animation e = None /\
    frame_changed e = [] /\
    get_current_frame e = Returns NullPixmap /\
    get_available_skins e = ∅.
Proof.
  intros Hfail Hcalls.
  assert (__init__ configured_skin assets = blank_engine configured_skin) as ->.
  { unfold __init__. fold (blank_engine configured_skin).
    apply load_skin_failed, Hfail. }
  assert (forall e,
            animations e = ∅ -> current_animation e = None ->
            frame_changed e = [] ->
            exists e',
              run e calls = Returns e' /\ animations e' = ∅ /\
              current_animation e' = None /\ frame_changed e' = []) as Hrun.
  { induction Hcalls as [|c calls Hc Hrest IH]; intros e Hcat Hcur Hfc.
    - exists e. cbn. auto.
    - destruct (skinless_step e c Hcat Hcur Hc)
        as (e1 & Hstep & Hcat1 & Hcur1 & Hfc1).
      cbn [run]. rewrite Hstep. cbn. apply IH; congruence. }
  destruct (Hrun (blank_engine configured_skin) eq_refl eq_refl eq_refl)
    as (e & Hres & Hcat & Hcur & Hfc).
  exists e. split; [exact Hres|]. split; [exact Hcur|]. split; [exact Hfc|].
  split.
  - unfold get_current_frame. rewrite Hcur. reflexivity.
  - unfold get_available_skins. rewrite Hcat. apply dom_empty_L.
Qed.

Lemma engine_without_skin_is_inert_witness :
  exists e,
    run (__init__ "default" (Some [mkAsset "idle" [] (Some 24%Z) None]))
      [Start 0; SetAnimation "idle" 10; UpdateFrame 100; Stop]
    = Returns e /\
    current_animation e = None.
Proof.
  destruct (engine_without_skin_is_inert "default"
              (Some [mkAsset "idle" [] (Some 24%Z) None])
              [Start 0; SetAnimation "idle" 10; UpdateFrame 100; Stop])
    as (e & Hrun & Hcur & _).
  - reflexivity.
  - repeat constructor.
  - exists e. split; assumption.
Defined.

End EngineProperties.

(** ** Series of samples *)

Section SampleSeries.

Import SystemMonitor.

Implicit Types (self : Monitor).

Lemma net_polls_cons self net time later :
  net_polls self ((net, time) :: later) =
  (fst (get_network_usage self net time)
     :: fst (net_polls (snd (get_network_usage self net time)) later),
   snd (net_polls (snd (get_network_usage self net time)) later)).
Proof.
  cbn [net_polls].
  destruct (get_network_usage self net time) as [kbps self1].
  cbn [fst snd].
  destruct (net_polls self1 later) as [rates self2]. reflexivity.
Qed.

Lemma net_polls_app samples1 : forall self samples2,
  net_polls self (samples1 ++ samples2) =
  ((fst (net_polls self samples1)
    ++ fst (net_polls (snd (net_polls self samples1)) samples2))%list,
   snd (net_polls (snd (net_polls self samples1)) samples2)).
Proof.
  induction samples1 as [|[net time] later IH]; intros self samples2.
  - cbn. destruct (net_polls self samples2). reflexivity.
  - rewrite <- app_comm_cons, !net_polls_cons, IH. reflexivity.
Qed.

Lemma failed_read_ignored self net time :
  failed_read net -> get_network_usage self net time = (0%Q, self).
Proof.
  unfold failed_read, get_network_usage.
  destruct net as [[[sent recv]|]|err]; [contradiction | reflexivity..].
Qed.

(** X13. A read of the network counters that fails or delivers nothing is
    invisible to the measurement: in any series of samples, the failed one is
    reported as 0, and every other sample and the monitor at the end are what
    they are in the series without it. *)
Theorem failed_read_is_skipped self before net time after :
  failed_read net ->
  fst (net_polls self (before ++ (net, time) :: after)) =
    (fst (net_polls self before) ++
     0%Q :: fst (net_polls (snd (net_polls self before)) after))%list /\
  fst (net_polls self (before ++ after)) =
    (fst (net_polls self before) ++
     fst (net_polls (snd (net_polls self before)) after))%list /\
  snd (net_polls self (before ++ (net, time) :: after)) =
    snd (net_polls self (before ++ after)).
Proof.
  intros Hfail. rewrite !net_polls_app, net_polls_cons.
  rewrite (failed_read_ignored _ _ _ Hfail). cbn [fst snd].
  split; [reflexivity|]. split; reflexivity.
Qed.

Lemma failed_read_is_skipped_witness :
  snd (net_polls (mkMonitor (Some (0, 0)%Z) (Some 0%Q) 0)
         ([(counters 10 10, 1%Q)] ++ (Raises OSError, 2%Q)
            :: [(counters 30 30, 3%Q)])) =
  snd (net_polls (mkMonitor (Some (0, 0)%Z) (Some 0%Q) 0)
         ([(counters 10 10, 1%Q)] ++ [(counters 30 30, 3%Q)])).
Proof.
  apply (failed_read_is_skipped (mkMonitor (Some (0, 0)%Z) (Some 0%Q) 0)
           [(counters 10 10, 1%Q)] (Raises OSError) 2%Q
           [(counters 30 30, 3%Q)]).
  exact I.
Defined.

Lemma init_without_counters net0 time0 :
  failed_read net0 ->
  (exists self, __init__ net0 time0 = Returns self /\ no_baseline self) \/
  (exists err, __init__ net0 time0 = Raises err).
Proof.
  unfold failed_read, __init__, _init_network_baseline.
  destruct net0 as [[[sent recv]|]|err]; [contradiction | |].
  - intros _. left. eexists. split; [reflexivity|]. left. reflexivity.
  - intros _. destruct err;
      solve [ left; eexists; split; [reflexivity | left; reflexivity]
            | right; eexists; reflexivity ].
Qed.

Lemma net_polls_without_baseline samples : forall self,
  no_baseline self ->
  net_polls self samples = (map (fun _ => 0%Q) samples, self).
Proof.
  induction samples as [|[net time] later IH]; intros self Hno; [reflexivity|].
  rewrite net_polls_cons, (get_network_usage_without_baseline _ _ _ Hno).
  cbn [fst snd]. rewrite (IH self Hno). reflexivity.
Qed.

(** X14. When the constructor obtains no network counters (the read
    returns nothing or raises), and the monitor is built at all, network
    monitoring stays off for the life of the monitor: every later sample is
    0, whatever the collaborator delivers, and the monitor never changes. *)
Theorem network_stays_off net0 time0 self samples :
  failed_read net0 ->
  __init__ net0 time0 = Returns self ->
  net_polls self samples = (map (fun _ => 0%Q) samples, self).
Proof.
  intros Hfail Hinit. apply net_polls_without_baseline.
  destruct (init_without_counters net0 time0 Hfail)
    as [(self' & Hinit' & Hno) | (err & Herr)]; congruence.
Qed.

Lemma network_stays_off_witness :
  net_polls (mkMonitor None None 0)
    [(counters 0 0, 1%Q); (counters 5000 5000, 2%Q)] =
  ([0%Q; 0%Q], mkMonitor None None 0).
Proof.
  apply (network_stays_off (Raises OSError) 0%Q (mkMonitor None None 0)
           [(counters 0 0, 1%Q); (counters 5000 5000, 2%Q)]).
  - exact I.
  - reflexivity.
Defined.

Lemma good_sample_step self sent0 recv0 time0 sent recv time :
  has_baseline self sent0 recv0 time0 ->
  (time0 < time)%Q ->
  (sent0 + recv0 <= sent + recv)%Z ->
  (fst (get_network_usage self (counters sent recv) time) * (time - time0)
   == inject_Z ((sent + recv) - (sent0 + recv0)) / 1024)%Q /\
  has_baseline (snd (get_network_usage self (counters sent recv) time))
    sent recv time.
Proof.
  intros Hb Ht Hd. split.
  - unfold counters.
    rewrite (rate_after_baseline _ _ _ _ sent recv time Hb Ht) by lia.
    unfold rate.
    replace (sent - sent0 + (recv - recv0))%Z
      with (sent + recv - (sent0 + recv0))%Z by lia.
    field. lra.
  - unfold counters.
    rewrite (get_network_usage_with_baseline _ _ _ _ _ _ _ Hb).
    split; reflexivity.
Qed.

(** X15. Across consecutive successful samples no traffic is lost or
    counted twice: for reads at increasing times with counters that do not
    go down, the rates returned, each held over the interval since the
    previous read, add up to the kilobytes between the baseline and the last
    read. *)
Theorem traffic_accounted_once (reads : list (Z * Z * Q)) :
  forall self sent0 recv0 time0,
    has_baseline self sent0 recv0 time0 ->
    steady sent0 recv0 time0 reads ->
    (volume time0 (fst (net_polls self (good_samples reads))) reads
     == inject_Z (last_total (sent0 + recv0) reads - (sent0 + recv0)) / 1024)%Q.
Proof.
  induction reads as [|[[sent recv] time] later IH];
    intros self sent0 recv0 time0 Hb Hsteady.
  - cbn. rewrite Z.sub_diag. reflexivity.
  - destruct Hsteady as (Ht & Hd & Hlater).
    destruct (good_sample_step self sent0 recv0 time0 sent recv time Hb Ht Hd)
      as [Hstep Hb'].
    cbn [good_samples map]. fold (good_samples later).
    rewrite net_polls_cons. cbn [fst volume last_total].
    rewrite Hstep, (IH _ sent recv time Hb' Hlater).
    replace (last_total (sent + recv) later - (sent0 + recv0))%Z
      with (sent + recv - (sent0 + recv0)
            + (last_total (sent + recv) later - (sent + recv)))%Z by lia.
    rewrite inject_Z_plus. field.
Qed.

Lemma traffic_accounted_once_witness :
  (volume 0
     (fst (net_polls (mkMonitor (Some (0, 0)%Z) (Some 0%Q) 0)
             (good_samples [(1024, 0, 2%Q); (1024, 2048, 3%Q)]%Z)))
     [(1024, 0, 2%Q); (1024, 2048, 3%Q)]%Z
   == 3)%Q.
Proof.
  rewrite (traffic_accounted_once [(1024, 0, 2%Q); (1024, 2048, 3%Q)]%Z
             (mkMonitor (Some (0, 0)%Z) (Some 0%Q) 0) 0%Z 0%Z 0%Q).
  - vm_compute. reflexivity.
  - split; reflexivity.
  - vm_compute. intuition discriminate.
Defined.

(** X16. When the counters come back lower than the baseline, as after a
    reset of the interface counters, the sample is 0, not a negative rate,
    and the baseline follows the new counters, so the next sample measures
    from them. *)
Theorem counter_reset_reports_zero self sent0 recv0 time0 sent recv time :
  has_baseline self sent0 recv0 time0 ->
  (time0 < time)%Q ->
  (sent + recv <= sent0 + recv0)%Z ->
  fst (get_network_usage self (counters sent recv) time) = 0%Q /\
  has_baseline (snd (get_network_usage self (counters sent recv) time))
    sent recv time.
Proof.
  intros Hb Ht Hd. unfold counters.
  rewrite (get_network_usage_with_baseline _ _ _ _ _ _ _ Hb).
  rewrite (elapsed_positive _ _ Ht). cbn [fst snd].
  split; [|split; reflexivity].
  unfold Num.max.
  match goal with |- (if Num.gt ?k 0 then _ else _) = _ =>
    assert (Num.gt k 0 = false) as ->; [|reflexivity]
  end.
  apply gt_false.
  pose proof (rate_nonneg (sent0 - sent) (recv0 - recv) (time - time0)) as Hr.
  unfold rate in Hr.
  assert (0 <= inject_Z (sent0 - sent + (recv0 - recv)) / 1024 / (time - time0))%Q
    as Hpos by (apply Hr; [lia | lra]).
  assert (inject_Z (sent - sent0 + (recv - recv0)) / 1024 / (time - time0)
          == - (inject_Z (sent0 - sent + (recv0 - recv)) / 1024 / (time - time0)))%Q
    as ->.
  { replace (sent - sent0 + (recv - recv0))%Z
      with (- (sent0 - sent + (recv0 - recv)))%Z by lia.
    rewrite inject_Z_opp. field. lra. }
  lra.
Qed.

Lemma counter_reset_reports_zero_witness :
  fst (get_network_usage (mkMonitor (Some (5000, 7000)%Z) (Some 10%Q) 0)
         (counters 100 200) 11) = 0%Q.
Proof.
  apply (counter_reset_reports_zero
           (mkMonitor (Some (5000, 7000)%Z) (Some 10%Q) 0)
           5000%Z 7000%Z 10%Q 100%Z 200%Z 11%Q).
  - split; reflexivity.
  - reflexivity.
  - vm_compute. discriminate.
Defined.

Lemma polls_cons self r later :
  polls self (r :: later) =
  (fst (get_system_stats self r)
     :: fst (polls (snd (get_system_stats self r)) later),
   snd (polls (snd (get_system_stats self r)) later)).
Proof.
  cbn [polls].
  destruct (get_system_stats self r) as [stats self1]. cbn [fst snd].
  destruct (polls self1 later) as [samples self2]. reflexivity.
Qed.

Lemma get_system_stats_fields self r :
  cpu_percent (fst (get_system_stats self r)) =
    _cpu_percent_cache (snd (get_system_stats self r)) /\
  _cpu_percent_cache (snd (get_system_stats self r)) =
    _cpu_percent_cache (snd (get_cpu_usage self (read_cpu r))) /\
  (0 <= network_kbps (fst (get_system_stats self r)))%Q.
Proof.
  unfold get_system_stats.
  pose proof (get_cpu_usage_returns_cache self (read_cpu r)) as Hcpu.
  destruct (get_cpu_usage self (read_cpu r)) as [cpu self1].
  cbn [fst snd] in *.
  assert (snd (get_ram_usage self1 (read_ram r)) = self1) as Hram
    by (unfold get_ram_usage; destruct (read_ram r); reflexivity).
  destruct (get_ram_usage self1 (read_ram r)) as [ram self2].
  cbn [snd] in Hram. subst self2.
  pose proof (get_network_usage_nonneg self1 (read_net r) (read_net_time r))
    as Hnet.
  assert (_cpu_percent_cache
            (snd (get_network_usage self1 (read_net r) (read_net_time r)))
          = _cpu_percent_cache self1) as Hkeep.
  { unfold get_network_usage.
    destruct (read_net r) as [[[sent recv]|]|err]; try reflexivity.
    destruct (_last_network_io self1) as [[sent0 recv0]|]; try reflexivity.
    destruct (_last_network_time self1); try reflexivity.
    destruct (Num.gt _ _); reflexivity. }
  destruct (get_network_usage self1 (read_net r) (read_net_time r))
    as [net self3].
  cbn [fst snd cpu_percent network_kbps] in *.
  split; [congruence|]. split; [exact Hkeep | exact Hnet].
Qed.

Lemma cache_after_cpu_read self reading (bound : Q -> Prop) :
  (forall v, (0 < v)%Q -> bound v) ->
  bound (_cpu_percent_cache self) ->
  bound (_cpu_percent_cache (snd (get_cpu_usage self reading))).
Proof.
  intros Hpos Hold. unfold get_cpu_usage.
  destruct reading as [v|err]; cbn [snd]; [|exact Hold].
  destruct (Num.gt v 0) eqn:E; [|exact Hold].
  cbn. apply Hpos. apply gt_true, E.
Qed.

Lemma polls_bound (bound : Q -> Prop) readings : forall self,
  (forall v, (0 < v)%Q -> bound v) ->
  bound (_cpu_percent_cache self) ->
  Forall (fun stats => bound (cpu_percent stats) /\
                       (0 <= network_kbps stats)%Q)
    (fst (polls self readings)).
Proof.
  induction readings as [|r later IH]; intros self Hpos Hold;
    [apply Forall_nil_2|].
  rewrite polls_cons. cbn [fst].
  destruct (get_system_stats_fields self r) as (Hcpu & Hcache & Hnet).
  assert (bound (_cpu_percent_cache (snd (get_system_stats self r)))) as Hnew.
  { rewrite Hcache. apply cache_after_cpu_read; assumption. }
  apply Forall_cons. split.
  - split; [rewrite Hcpu; exact Hnew | exact Hnet].
  - apply IH; assumption.
Qed.

(** X17. Whatever the collaborators deliver or raise, every sample taken
    from a monitor after its constructor has a processor load and a network
    rate that are not negative; and once a read has delivered a processor
    load above zero, that sample and every later one report a load above
    zero: a failing or cold collaborator never brings the reported load back
    to 0. *)
Theorem samples_stay_in_range :
  (forall net0 time0 self readings,
     __init__ net0 time0 = Returns self ->
     Forall (fun stats => (0 <= cpu_percent stats)%Q /\
                          (0 <= network_kbps stats)%Q)
       (fst (polls self readings))) /\
  (forall self r later v,
     read_cpu r = Returns v -> (0 < v)%Q ->
     Forall (fun stats => (0 < cpu_percent stats)%Q /\
                          (0 <= network_kbps stats)%Q)
       (fst (polls self (r :: later)))).
Proof.
  split.
  - intros net0 time0 self readings Hinit.
    apply (polls_bound (fun v => (0 <= v)%Q)).
    + intros v Hv. apply Qlt_le_weak, Hv.
    + unfold __init__, _init_network_baseline in Hinit.
      destruct net0 as [[[sent recv]|]|[]]; try discriminate;
        injection Hinit as <-; cbn; apply Qle_refl.
  - intros self r later v Hread Hv.
    rewrite polls_cons. cbn [fst].
    destruct (get_system_stats_fields self r) as (Hcpu & Hcache & Hnet).
    assert (0 < _cpu_percent_cache (snd (get_system_stats self r)))%Q as Hnew.
    { rewrite Hcache, Hread. unfold get_cpu_usage.
      assert (Num.gt v 0 = true) as -> by (apply gt_true, Hv).
      cbn. exact Hv. }
    apply Forall_cons. split.
    + split; [rewrite Hcpu; exact Hnew | exact Hnet].
    + apply (polls_bound (fun v => (0 < v)%Q)); [auto | exact Hnew].
Qed.

Lemma samples_stay_in_range_witness :
  Forall (fun stats => (0 < cpu_percent stats)%Q /\
                       (0 <= network_kbps stats)%Q)
    (fst (polls (mkMonitor None None 0)
            [mkReadings (Returns 12%Q) (Returns 40%Q) (Raises OSError) 1 1;
             mkReadings (Returns 0%Q) (Raises OSError) (Returns None) 2 2;
             mkReadings (Raises OtherException) (Returns 41%Q)
               (Returns (Some (5, 5)%Z)) 3 3])).
Proof.
  apply (proj2 samples_stay_in_range (mkMonitor None None 0)
           (mkReadings (Returns 12%Q) (Returns 40%Q) (Raises OSError) 1 1)
           [mkReadings (Returns 0%Q) (Raises OSError) (Returns None) 2 2;
            mkReadings (Raises OtherException) (Returns 41%Q)
              (Returns (Some (5, 5)%Z)) 3 3]
           12%Q).
  - reflexivity.
  - reflexivity.
Defined.

End SampleSeries.

(** ** More on the classifier *)

Section ClassifierFacts.

Import SystemMonitor.

Implicit Types (stats : SystemStats) (cfg : gmap string EmotionConfig).

Lemma overloaded_mono stats1 stats2 cfg :
  sample_le stats1 stats2 ->
  overloaded_condition stats1 cfg -> overloaded_condition stats2 cfg.
Proof.
  unfold sample_le, overloaded_condition. intros (Hc & Hr & Hn) H.
  destruct H as [H | [H | [H | [H | H]]]];
    [left | right; left | do 2 right; left | do 3 right; left | do 4 right];
    eapply Qle_trans; eassumption.
Qed.

Lemma stressed_mono stats1 stats2 cfg :
  sample_le stats1 stats2 ->
  stressed_condition stats1 cfg -> stressed_condition stats2 cfg.
Proof.
  unfold sample_le, stressed_condition. cbv zeta. intros (Hc & Hr & Hn) H.
  destruct H as [[H1 H2] | [[H1 H2] | [H1 H2]]];
    [left | right; left | right; right];
    split; eapply Qle_trans; eassumption.
Qed.

Lemma busy_mono stats1 stats2 cfg :
  sample_le stats1 stats2 ->
  busy_condition stats1 cfg -> busy_condition stats2 cfg.
Proof.
  unfold sample_le, busy_condition. cbv zeta. intros (Hc & Hr & Hn) H.
  destruct H as [H | [H | H]]; [left | right; left | right; right];
    eapply Qle_trans; eassumption.
Qed.

Lemma calm_antitone stats1 stats2 cfg :
  sample_le stats1 stats2 ->
  calm_condition stats2 cfg -> calm_condition stats1 cfg.
Proof.
  unfold sample_le, calm_condition. intros (Hc & Hr & Hn) (H1 & H2 & H3).
  repeat split; eapply Qle_trans; eassumption.
Qed.

(** X18. Composite classification is monotone for every configuration:
    when no metric goes down, the label never moves back in the order
    calm < active < busy < stressed < overloaded. *)
Theorem emotion_classification_monotone stats1 stats2 cfg :
  sample_le stats1 stats2 ->
  (emotion_rank (determine_emotion_state stats1 cfg) <=
   emotion_rank (determine_emotion_state stats2 cfg))%nat.
Proof.
  intros Hle.
  pose proof (overloaded_mono stats1 stats2 cfg Hle) as Mo.
  pose proof (stressed_mono stats1 stats2 cfg Hle) as Ms.
  pose proof (busy_mono stats1 stats2 cfg Hle) as Mb.
  pose proof (calm_antitone stats1 stats2 cfg Hle) as Mc.
  destruct (emotion_cases stats1 cfg)
    as [(Ho1 & ->) | [(No1 & Hs1 & ->) | [(No1 & Ns1 & Hb1 & ->)
        | [(No1 & Ns1 & Nb1 & Hc1 & ->) | (No1 & Ns1 & Nb1 & Nc1 & ->)]]]];
  destruct (emotion_cases stats2 cfg)
    as [(Ho2 & ->) | [(No2 & Hs2 & ->) | [(No2 & Ns2 & Hb2 & ->)
        | [(No2 & Ns2 & Nb2 & Hc2 & ->) | (No2 & Ns2 & Nb2 & Nc2 & ->)]]]];
    try (vm_compute; lia); exfalso; tauto.
Qed.

Lemma emotion_classification_monotone_witness :
  (emotion_rank (determine_emotion_state (mkStats 10 10 10 0)
                   default_emotion_thresholds) <=
   emotion_rank (determine_emotion_state (mkStats 65 10 10 0)
                   default_emotion_thresholds))%nat.
Proof.
  apply emotion_classification_monotone.
  vm_compute. intuition discriminate.
Defined.

Ltac in_consulted := unfold consulted_cutoffs; cbn; tauto.

Lemma emotion_state_ext cfg1 cfg2 :
  (forall state key builtin,
     In (state, key, builtin) consulted_cutoffs ->
     cutoff cfg1 state key builtin = cutoff cfg2 state key builtin) ->
  forall stats,
    determine_emotion_state stats cfg1 = determine_emotion_state stats cfg2.
Proof.
  intros H stats. unfold cutoff in H.
  unfold determine_emotion_state. cbv zeta.
  rewrite (H "overloaded" "cpu_critical" 90%Q) by in_consulted.
  rewrite (H "overloaded" "ram_critical" 90%Q) by in_consulted.
  rewrite (H "overloaded" "network_critical_kbps" 2000%Q) by in_consulted.
  rewrite (H "overloaded" "any_critical_threshold" 85%Q) by in_consulted.
  rewrite (H "stressed" "cpu_high" 70%Q) by in_consulted.
  rewrite (H "stressed" "ram_high" 75%Q) by in_consulted.
  rewrite (H "stressed" "network_high_kbps" 800%Q) by in_consulted.
  rewrite (H "busy" "single_resource_threshold" 60%Q) by in_consulted.
  rewrite (H "calm" "cpu_max" 20%Q) by in_consulted.
  rewrite (H "calm" "ram_max" 30%Q) by in_consulted.
  rewrite (H "calm" "network_max_kbps" 50%Q) by in_consulted.
  reflexivity.
Qed.

Lemma consulted_states state key builtin :
  In (state, key, builtin) consulted_cutoffs ->
  state = "overloaded" \/ state = "stressed" \/ state = "busy" \/ state = "calm".
Proof.
  unfold consulted_cutoffs. cbn.
  intros H. repeat destruct H as [[= <- <- <-] | H]; auto. contradiction.
Qed.

(** X19. The composite label depends on the configuration only through
    the eleven cutoffs the cascade reads: two configurations that agree on
    them give every sample the same label. So a sub-dictionary under any
    other name, such as "active", and any other key of a sub-dictionary,
    such as "multiple_resources_threshold", never change a label. *)
Theorem label_reads_eleven_cutoffs :
  (forall cfg1 cfg2,
     (forall state key builtin,
        In (state, key, builtin) consulted_cutoffs ->
        cutoff cfg1 state key builtin = cutoff cfg2 state key builtin) ->
     forall stats,
       determine_emotion_state stats cfg1 = determine_emotion_state stats cfg2) /\
  (forall cfg state sub stats,
     state <> "overloaded" -> state <> "stressed" ->
     state <> "busy" -> state <> "calm" ->
     determine_emotion_state stats (<[state := sub]> cfg) =
     determine_emotion_state stats cfg) /\
  (forall cfg state key v stats,
     ~ consulted state key ->
     determine_emotion_state stats (with_cutoff cfg state key v) =
     determine_emotion_state stats cfg).
Proof.
  split; [exact emotion_state_ext|]. split.
  - intros cfg state sub stats H1 H2 H3 H4. apply emotion_state_ext.
    intros state' key builtin Hin. unfold cutoff, get_config.
    rewrite lookup_insert_ne; [reflexivity|].
    destruct (consulted_states _ _ _ Hin) as [-> | [-> | [-> | ->]]]; assumption.
  - intros cfg state key v stats Hnot. apply emotion_state_ext.
    intros state' key' builtin Hin. unfold cutoff, with_cutoff, get_config.
    destruct (decide (state = state')) as [<- | Hne].
    + rewrite lookup_insert_eq. cbn. unfold get.
      rewrite lookup_insert_ne; [reflexivity|].
      intros <-. apply Hnot. exists builtin. exact Hin.
    + rewrite lookup_insert_ne by exact Hne. reflexivity.
Qed.

Lemma label_reads_eleven_cutoffs_witness :
  determine_emotion_state (mkStats 72 76 0 0)
    (with_cutoff default_emotion_thresholds "stressed"
       "multiple_resources_threshold" 99)
  = determine_emotion_state (mkStats 72 76 0 0) default_emotion_thresholds.
Proof.
  apply (proj2 (proj2 label_reads_eleven_cutoffs)).
  intros [builtin Hin]. unfold consulted_cutoffs in Hin. cbn in Hin.
  repeat destruct Hin as [Hin | Hin]; try discriminate Hin. contradiction.
Defined.

Lemma shipped_emotion_defaults stats :
  determine_emotion_state stats
    (ConfigManager.get_emotion_thresholds ConfigManager._get_default_config) =
  determine_emotion_state stats ∅.
Proof.
  apply emotion_state_ext. intros state key builtin Hin.
  unfold consulted_cutoffs in Hin. cbn in Hin.
  repeat destruct Hin as [[= <- <- <-] | Hin]; try contradiction;
    vm_compute; reflexivity.
Qed.

(** X20. The built-in fallbacks of the classifier are the values of the
    default configuration: with the thresholds of
    [ConfigManager._get_default_config], every sample gets the label it gets
    with empty threshold dictionaries, in the composite mode and in each
    single-metric mode. *)
Theorem shipped_defaults_match_fallbacks stats :
  determine_emotion_state stats
    (ConfigManager.get_emotion_thresholds ConfigManager._get_default_config) =
    determine_emotion_state stats ∅ /\
  (forall mode,
     determine_animation_state stats mode
       (ConfigManager.get_thresholds ConfigManager._get_default_config mode) =
     determine_animation_state stats mode (mkThresholds ∅ ∅)).
Proof.
  split; [apply shipped_emotion_defaults|].
  intros mode. unfold determine_animation_state.
  destruct (decide (mode = "emotion")) as [-> | He]; [reflexivity|].
  destruct (decide (mode = "cpu")) as [-> | Hc]; [reflexivity|].
  destruct (decide (mode = "ram")) as [-> | Hr]; [reflexivity|].
  destruct (decide (mode = "network")) as [-> | Hn]; reflexivity.
Qed.

(** ** More on the stress analysis *)

Lemma round_half_even_lower (n : Z) (y : Q) :
  (inject_Z n <= y)%Q -> (n <= Num.round_half_even y)%Z.
Proof.
  intros H. apply Qfloor_resp_le in H. rewrite Qfloor_Z in H.
  unfold Num.round_half_even. cbv zeta.
  destruct (y - inject_Z (Qfloor y) ?= 1 # 2)%Q; [|lia..].
  destruct (Z.even (Qfloor y)); lia.
Qed.

Lemma round_half_even_upper (n : Z) (y : Q) :
  (y <= inject_Z n)%Q -> (Num.round_half_even y <= n)%Z.
Proof.
  intros H. pose proof (Qfloor_le y) as Hlo.
  assert (Qfloor y <= n)%Z as Hfn.
  { apply Qfloor_resp_le in H. rewrite Qfloor_Z in H. exact H. }
  assert ((1 # 2 <= y - inject_Z (Qfloor y))%Q -> (Qfloor y < n)%Z) as Hhalf.
  { intros Hfrac. rewrite Zlt_Qlt. lra. }
  unfold Num.round_half_even. cbv zeta.
  destruct (y - inject_Z (Qfloor y) ?= 1 # 2)%Q eqn:E.
  - apply Qeq_alt in E. destruct (Z.even (Qfloor y)); [lia|].
    assert (Qfloor y < n)%Z by (apply Hhalf; lra). lia.
  - lia.
  - apply Qgt_alt in E.
    assert (Qfloor y < n)%Z by (apply Hhalf; lra). lia.
Qed.

Lemma round1_percentage (x : Q) : percentage x -> percentage (Num.round1 x).
Proof.
  unfold percentage, Num.round1. intros [Hlo Hhi].
  assert (0 <= Num.round_half_even (x * 10))%Z as Hn0.
  { apply round_half_even_lower. change (inject_Z 0) with 0%Q. lra. }
  assert (Num.round_half_even (x * 10) <= 1000)%Z as Hn1.
  { apply round_half_even_upper. change (inject_Z 1000) with 1000%Q. lra. }
  rewrite Zle_Qle in Hn0, Hn1.
  change (inject_Z 0) with 0%Q in Hn0.
  change (inject_Z 1000) with 1000%Q in Hn1.
  set (n := inject_Z (Num.round_half_even (x * 10))) in *.
  assert (n / 10 == n * (1 # 10))%Q as -> by reflexivity.
  lra.
Qed.

Lemma min_percentage (v : Q) : (0 <= v)%Q -> percentage (Num.min 100 v).
Proof.
  intros Hv. unfold percentage, Num.min.
  destruct (Num.gt 100 v) eqn:E.
  - apply gt_true in E. lra.
  - lra.
Qed.

(** X21. For a sample without negative metrics, every number of the
    analysis is a percentage: the overall stress and the three resource
    levels lie between 0 and 100, whatever the load and the traffic. *)
Theorem analysis_is_in_percent stats cfg :
  nonnegative stats ->
  let analysis := get_emotion_analysis stats cfg in
  percentage (overall_stress analysis) /\
  percentage (level_cpu (resource_levels analysis)) /\
  percentage (level_ram (resource_levels analysis)) /\
  percentage (level_network (resource_levels analysis)).
Proof.
  intros (Hc & Hr & Hn). cbv zeta. unfold get_emotion_analysis.
  cbn [overall_stress resource_levels level_cpu level_ram level_network].
  pose proof (min_percentage (cpu_percent stats) Hc) as Pc.
  pose proof (min_percentage (ram_percent stats) Hr) as Pr.
  assert (0 <= network_kbps stats / 20)%Q as Hn'.
  { assert (network_kbps stats / 20 == network_kbps stats * (1 # 20))%Q
      as -> by reflexivity. lra. }
  pose proof (min_percentage (network_kbps stats / 20) Hn') as Pn.
  split; [|split; [|split]]; apply round1_percentage; try assumption.
  unfold percentage in *.
  set (a := Num.min 100 (cpu_percent stats)) in *.
  set (b := Num.min 100 (ram_percent stats)) in *.
  set (c := Num.min 100 (network_kbps stats / 20)) in *.
  assert ((a + b + c) / 3 == (a + b + c) * (1 # 3))%Q as -> by reflexivity.
  lra.
Qed.

Lemma analysis_is_in_percent_witness :
  percentage
    (overall_stress (get_emotion_analysis (mkStats 250 99 90000 0) ∅)).
Proof.
  apply (analysis_is_in_percent (mkStats 250 99 90000 0) ∅).
  vm_compute. intuition discriminate.
Defined.

Lemma cutoff_builtin (state key : string) (builtin : Q) :
  cutoff ∅ state key builtin = builtin.
Proof.
  unfold cutoff, get_config. rewrite lookup_empty. reflexivity.
Qed.

(** X22. With the default thresholds the analysis is consistent with the
    label: a sample with at least one active stressor is labelled busy,
    stressed or overloaded, and a sample with at least two is labelled
    stressed or overloaded. *)
Theorem stressors_raise_the_label stats :
  let analysis :=
    get_emotion_analysis stats
      (ConfigManager.get_emotion_thresholds ConfigManager._get_default_config) in
  (active_stressors analysis <> [] ->
     In (emotion analysis) ["busy"; "stressed"; "overloaded"]) /\
  ((2 <= length (active_stressors analysis))%nat ->
     In (emotion analysis) ["stressed"; "overloaded"]).
Proof.
  cbv zeta. unfold get_emotion_analysis. cbn [active_stressors emotion].
  rewrite shipped_emotion_defaults.
  assert ((70 < cpu_percent stats)%Q \/ (75 < ram_percent stats)%Q \/
          (800 < network_kbps stats)%Q -> busy_condition stats ∅) as Hbusy.
  { unfold busy_condition. cbv zeta. rewrite cutoff_builtin.
    intros [H | [H | H]]; [left | right; left | right; right]; lra. }
  assert (((70 < cpu_percent stats)%Q /\ (75 < ram_percent stats)%Q) \/
          ((70 < cpu_percent stats)%Q /\ (800 < network_kbps stats)%Q) \/
          ((75 < ram_percent stats)%Q /\ (800 < network_kbps stats)%Q)
          -> stressed_condition stats ∅) as Hstressed.
  { unfold stressed_condition. cbv zeta. rewrite !cutoff_builtin.
    intros [[H1 H2] | [[H1 H2] | [H1 H2]]];
      [left | right; left | right; right]; split; lra. }
  unfold _identify_active_stressors.
  destruct (Num.gt (cpu_percent stats) 70) eqn:Ec;
    destruct (Num.gt (ram_percent stats) 75) eqn:Er;
    destruct (Num.gt (network_kbps stats) 800) eqn:En;
    repeat match goal with
    | H : Num.gt _ _ = true |- _ => apply gt_true in H
    | H : Num.gt _ _ = false |- _ => clear H
    end;
    cbn [app length];
    (split; [intros Hne | intros Hlen]);
    try contradiction; try lia;
    destruct (emotion_cases stats ∅)
      as [(Ho & ->) | [(No & Hs & ->) | [(No & Ns & Hb & ->)
          | [(No & Ns & Nb & Hc & ->) | (No & Ns & Nb & Nc & ->)]]]];
    try (cbn; tauto);
    exfalso;
    solve [ apply Nb, Hbusy; tauto | apply Ns, Hstressed; tauto ].
Qed.

Lemma stressors_raise_the_label_witness :
  In (emotion (get_emotion_analysis (mkStats 72 10 900 0)
                 (ConfigManager.get_emotion_thresholds
                    ConfigManager._get_default_config)))
     ["stressed"; "overloaded"].
Proof.
  apply (proj2 (stressors_raise_the_label (mkStats 72 10 900 0))).
  vm_compute. lia.
Defined.

End ClassifierFacts.

(** ** The configuration and the poll *)

Section Polling.

Import SystemMonitor.

Implicit Types (cfg : ConfigManager.t) (app : TuxTrayApp.t).

Lemma set_animation_mode_valid cfg (mode : string) :
  mode ∈ valid_modes ->
  ConfigManager.animation_mode (ConfigManager.set_animation_mode cfg mode) = mode.
Proof.
  intros Hin. unfold ConfigManager.set_animation_mode.
  fold valid_modes. rewrite (bool_decide_eq_true_2 _ Hin). reflexivity.
Qed.

Lemma set_animation_mode_invalid cfg (mode : string) :
  mode ∉ valid_modes -> ConfigManager.set_animation_mode cfg mode = cfg.
Proof.
  intros Hin. unfold ConfigManager.set_animation_mode.
  fold valid_modes. rewrite (bool_decide_eq_false_2 _ Hin). reflexivity.
Qed.

(** X23. The setter of [animation_mode] validates: a mode outside cpu,
    ram, network and emotion leaves the configuration as it was. So after any
    series of assignments the mode read back is the last valid one assigned,
    or the mode before the series when none was valid, and no assignment
    touches the thresholds or the other settings. *)
Theorem last_valid_mode_wins (modes : list string) : forall cfg,
  let cfg' := foldl ConfigManager.set_animation_mode cfg modes in
  ConfigManager.animation_mode cfg' =
    default (ConfigManager.animation_mode cfg)
            (last (filter (fun mode => mode ∈ valid_modes) modes)) /\
  ConfigManager.thresholds cfg' = ConfigManager.thresholds cfg /\
  ConfigManager.emotion_thresholds cfg' = ConfigManager.emotion_thresholds cfg /\
  ConfigManager.current_skin cfg' = ConfigManager.current_skin cfg /\
  ConfigManager.emotion_system_enabled cfg' =
    ConfigManager.emotion_system_enabled cfg /\
  ConfigManager.poll_interval cfg' = ConfigManager.poll_interval cfg /\
  ConfigManager.tray_icon_size cfg' = ConfigManager.tray_icon_size cfg.
Proof.
  induction modes as [|mode later IH]; intros cfg; cbv zeta.
  { cbn. repeat split. }
  cbn [foldl].
  destruct (IH (ConfigManager.set_animation_mode cfg mode))
    as (Hmode & Ht & He & Hs & Hen & Hp & Hi).
  rewrite Hmode, Ht, He, Hs, Hen, Hp, Hi. clear Hmode Ht He Hs Hen Hp Hi IH.
  destruct (decide (mode ∈ valid_modes)) as [Hin | Hout].
  - rewrite filter_cons_True by exact Hin. rewrite last_cons.
    rewrite (set_animation_mode_valid cfg mode Hin).
    split; [destruct (last _); reflexivity|].
    unfold ConfigManager.set_animation_mode. fold valid_modes.
    rewrite (bool_decide_eq_true_2 _ Hin). repeat split.
  - rewrite filter_cons_False by exact Hout.
    rewrite (set_animation_mode_invalid cfg mode Hout). repeat split.
Qed.

Lemma emotion_label_in stats emotion_cfg :
  In (determine_emotion_state stats emotion_cfg) emotion_labels.
Proof.
  unfold emotion_labels.
  destruct (emotion_cases stats emotion_cfg)
    as [(_ & ->) | [(_ & _ & ->) | [(_ & _ & _ & ->)
        | [(_ & _ & _ & _ & ->) | (_ & _ & _ & _ & ->)]]]];
    cbn; tauto.
Qed.

Lemma animation_label_in stats (mode : string) (t : Thresholds) :
  (mode = "emotion" ->
     In (determine_animation_state stats mode t) emotion_labels) /\
  (legacy_mode mode ->
     In (determine_animation_state stats mode t) legacy_labels) /\
  (mode <> "emotion" -> ~ legacy_mode mode ->
     determine_animation_state stats mode t = "idle").
Proof.
  split; [|split].
  - intros ->. unfold determine_animation_state. cbn. apply emotion_label_in.
  - intros Hmode. rewrite (determine_animation_state_legacy _ _ _ Hmode).
    unfold legacy_labels.
    destruct (usage_state_cases (selected_usage mode stats)
                (idle_cutoff mode t) (walk_cutoff mode t))
      as [(_ & ->) | [(_ & _ & ->) | (_ & _ & ->)]]; cbn; tauto.
  - intros He Hl. unfold legacy_mode in Hl. unfold determine_animation_state.
    repeat (destruct (decide _); [tauto|]). reflexivity.
Qed.

Lemma run_snoc calls : forall e c,
  AnimationEngine.run e (calls ++ [c]) =
  e1 ← AnimationEngine.run e calls; AnimationEngine.step e1 c.
Proof.
  induction calls as [|c0 calls IH]; intros e c; cbn.
  - destruct (AnimationEngine.step e c); reflexivity.
  - destruct (AnimationEngine.step e c0) as [e1|err]; cbn; [apply IH | reflexivity].
Qed.

Lemma reachable_step e c e' :
  reachable e -> AnimationEngine.step e c = Returns e' -> reachable e'.
Proof.
  intros (configured_skin & assets & calls & Hrun) Hstep.
  exists configured_skin, assets, (calls ++ [c])%list.
  rewrite run_snoc, Hrun. exact Hstep.
Qed.

(** X24. A poll on an application whose engine was reached from its
    constructor always returns. It samples the monitor once and leaves the
    configuration alone. The label it computes is one of the five composite
    labels in emotion mode, also when the emotion system is switched off,
    one of idle, walk, run in the cpu, ram and network modes, and "idle" in
    any other mode. The engine is left untouched when the label is the
    current animation name, so a running animation is not restarted by a
    poll, and when the current skin holds no such sequence; otherwise the
    sequence of that name becomes the active one and one frame is emitted.
    With a tray icon the tooltip is rewritten for the mode, without one it is
    kept. *)
Theorem poll_outcome app (r : Readings) (now : Z) :
  reachable (TuxTrayApp.animation_engine app) ->
  let mode := ConfigManager.animation_mode (TuxTrayApp.config_manager app) in
  let engine := TuxTrayApp.animation_engine app in
  exists label app',
    TuxTrayApp.update_system_stats app r now = Returns app' /\
    TuxTrayApp.config_manager app' = TuxTrayApp.config_manager app /\
    TuxTrayApp.system_monitor app' =
      snd (get_system_stats (TuxTrayApp.system_monitor app) r) /\
    reachable (TuxTrayApp.animation_engine app') /\
    (mode = "emotion" -> In label emotion_labels) /\
    (legacy_mode mode -> In label legacy_labels) /\
    (mode <> "emotion" -> ~ legacy_mode mode -> label = "idle") /\
    (label = AnimationEngine.current_animation_name engine \/
     catalog_lookup engine label = None ->
     TuxTrayApp.animation_engine app' = engine) /\
    (forall ref,
       label <> AnimationEngine.current_animation_name engine ->
       catalog_lookup engine label = Some ref ->
       AnimationEngine.current_animation_name (TuxTrayApp.animation_engine app')
         = label /\
       AnimationEngine.current_animation (TuxTrayApp.animation_engine app')
         = Some ref /\
       exists frame,
         AnimationEngine.frame_changed (TuxTrayApp.animation_engine app') =
         (AnimationEngine.frame_changed engine ++ [frame])%list) /\
    (TuxTrayApp.tray_icon app = true ->
       exists text, TuxTrayApp.tooltip app' = Some (mode, text)) /\
    (TuxTrayApp.tray_icon app = false ->
       TuxTrayApp.tooltip app' = TuxTrayApp.tooltip app).
Proof.
  intros Hreach. cbv zeta.
  pose proof (reachable_inv _ Hreach) as Hinv.
  unfold TuxTrayApp.update_system_stats.
  destruct (get_system_stats (TuxTrayApp.system_monitor app) r)
    as [stats monitor].
  cbn [snd TuxTrayApp.config_manager TuxTrayApp.animation_engine
       TuxTrayApp.tray_icon TuxTrayApp.tooltip TuxTrayApp.system_monitor].
  set (mode := ConfigManager.animation_mode (TuxTrayApp.config_manager app)).
  set (engine := TuxTrayApp.animation_engine app) in *.
  set (label :=
         if bool_decide (mode = "emotion")
            && ConfigManager.emotion_system_enabled (TuxTrayApp.config_manager app)
         then determine_emotion_state stats
                (ConfigManager.get_emotion_thresholds (TuxTrayApp.config_manager app))
         else determine_animation_state stats mode
                (ConfigManager.get_thresholds (TuxTrayApp.config_manager app) mode)).
  assert ((mode = "emotion" -> In label emotion_labels) /\
          (legacy_mode mode -> In label legacy_labels) /\
          (mode <> "emotion" -> ~ legacy_mode mode -> label = "idle"))
    as (Lemo & Lleg & Lidle).
  { subst label.
    destruct (animation_label_in stats mode
                (ConfigManager.get_thresholds (TuxTrayApp.config_manager app) mode))
      as (H1 & H2 & H3).
    destruct (bool_decide (mode = "emotion")) eqn:Eb;
      destruct (ConfigManager.emotion_system_enabled
                  (TuxTrayApp.config_manager app));
      cbn [andb]; try (split; [exact H1 | split; [exact H2 | exact H3]]).
    apply bool_decide_eq_true_1 in Eb.
    split; [intros _; apply emotion_label_in|].
    split.
    - intros [H | [H | H]]; rewrite H in Eb; discriminate.
    - intros H. contradiction. }
  exists label.
  assert (forall e',
            (TuxTrayApp._update_tooltip
               (TuxTrayApp.mk (TuxTrayApp.config_manager app) monitor e'
                  (TuxTrayApp.tray_icon app) (TuxTrayApp.tooltip app))
               stats mode) =
            TuxTrayApp.mk (TuxTrayApp.config_manager app) monitor e'
              (TuxTrayApp.tray_icon app)
              (TuxTrayApp.tooltip
                 (TuxTrayApp._update_tooltip
                    (TuxTrayApp.mk (TuxTrayApp.config_manager app) monitor e'
                       (TuxTrayApp.tray_icon app) (TuxTrayApp.tooltip app))
                    stats mode)) /\
            (TuxTrayApp.tray_icon app = true ->
             exists text,
               TuxTrayApp.tooltip
                 (TuxTrayApp._update_tooltip
                    (TuxTrayApp.mk (TuxTrayApp.config_manager app) monitor e'
                       (TuxTrayApp.tray_icon app) (TuxTrayApp.tooltip app))
                    stats mode) = Some (mode, text)) /\
            (TuxTrayApp.tray_icon app = false ->
             TuxTrayApp.tooltip
               (TuxTrayApp._update_tooltip
                  (TuxTrayApp.mk (TuxTrayApp.config_manager app) monitor e'
                     (TuxTrayApp.tray_icon app) (TuxTrayApp.tooltip app))
                  stats mode) = TuxTrayApp.tooltip app)) as Htip.
  { intros e'. unfold TuxTrayApp._update_tooltip. cbn.
    destruct (TuxTrayApp.tray_icon app); cbn.
    - split; [reflexivity|]. split; [eauto | discriminate].
    - split; [reflexivity|]. split; [discriminate | reflexivity]. }
  destruct (decide (label <> AnimationEngine.current_animation_name engine))
    as [Hdiff | Hsame].
  - destruct (set_animation_inv engine label now Hinv) as (ok & e' & Hset & _).
    rewrite Hset. cbn.
    destruct (Htip e') as (Heq & Hon & Hoff).
    eexists. split; [reflexivity|].
    rewrite Heq. cbn.
    split; [reflexivity|]. split; [reflexivity|].
    split.
    { apply (reachable_step engine (AnimationEngine.SetAnimation label now)).
      - exact Hreach.
      - cbn. rewrite Hset. reflexivity. }
    do 3 (split; [assumption|]).
    split.
    { intros [Heq' | Hnone]; [contradiction|].
      rewrite (set_animation_absent _ _ now Hnone) in Hset. congruence. }
    split; [|split; assumption].
    intros ref _ Hcat.
    destruct (set_animation_chosen engine label now ref Hinv Hcat)
      as (e'' & frame & Hset' & _ & _ & _ & Hname & Hcur & Hfc & _).
    assert (e'' = e') as -> by congruence.
    split; [exact Hname|]. split; [exact Hcur|]. eauto.
  - cbn. destruct (Htip engine) as (Heq & Hon & Hoff).
    eexists. split; [reflexivity|].
    rewrite Heq. cbn.
    split; [reflexivity|]. split; [reflexivity|]. split; [exact Hreach|].
    do 3 (split; [assumption|]).
    split; [reflexivity|].
    split; [|split; assumption].
    intros ref Hdiff. contradiction.
Qed.

Ltac demo_app_reachable :=
  exists "default",
         (Some [AnimationEngine.mkAsset "idle" [Pixmap 0; Pixmap 1]
                  (Some 24%Z) None;
                AnimationEngine.mkAsset "walk" [] None None]),
         demo_calls;
  vm_compute; reflexivity.

Lemma poll_outcome_witness :
  exists app',
    TuxTrayApp.update_system_stats demo_app
      (mkReadings (Returns 5%Q) (Returns 5%Q) (Returns None) 1 1) 200
    = Returns app' /\
    TuxTrayApp.config_manager app' = TuxTrayApp.config_manager demo_app.
Proof.
  destruct (poll_outcome demo_app
              (mkReadings (Returns 5%Q) (Returns 5%Q) (Returns None) 1 1) 200
              ltac:(demo_app_reachable))
    as (label & app' & Hpoll & Hcfg & _).
  exists app'. split; assumption.
Defined.

Lemma update_tooltip_keeps app stats (mode : string) :
  TuxTrayApp.config_manager (TuxTrayApp._update_tooltip app stats mode) =
    TuxTrayApp.config_manager app /\
  TuxTrayApp.animation_engine (TuxTrayApp._update_tooltip app stats mode) =
    TuxTrayApp.animation_engine app /\
  TuxTrayApp.system_monitor (TuxTrayApp._update_tooltip app stats mode) =
    TuxTrayApp.system_monitor app.
Proof.
  unfold TuxTrayApp._update_tooltip.
  destruct (TuxTrayApp.tray_icon app); repeat split.
Qed.

Lemma poll_shape app (r : Readings) (now : Z) :
  engine_inv (TuxTrayApp.animation_engine app) ->
  exists app',
    TuxTrayApp.update_system_stats app r now = Returns app' /\
    TuxTrayApp.config_manager app' = TuxTrayApp.config_manager app /\
    (TuxTrayApp.animation_engine app' = TuxTrayApp.animation_engine app \/
     exists label,
       AnimationEngine.step (TuxTrayApp.animation_engine app)
         (AnimationEngine.SetAnimation label now)
       = Returns (TuxTrayApp.animation_engine app')).
Proof.
  intros Hinv. unfold TuxTrayApp.update_system_stats.
  destruct (get_system_stats (TuxTrayApp.system_monitor app) r)
    as [stats monitor].
  cbn [TuxTrayApp.config_manager TuxTrayApp.animation_engine
       TuxTrayApp.tray_icon TuxTrayApp.tooltip TuxTrayApp.system_monitor].
  match goal with
  | |- context [decide (?l <> _)] => set (label := l)
  end.
  destruct (decide (label <> _)) as [Hdiff | Hsame].
  - destruct (set_animation_inv (TuxTrayApp.animation_engine app) label now Hinv)
      as (ok & e' & Hset & _).
    rewrite Hset. cbn. eexists. split; [reflexivity|].
    match goal with
    | |- context [TuxTrayApp._update_tooltip ?a ?s ?m] =>
        destruct (update_tooltip_keeps a s m) as (-> & -> & _)
    end.
    cbn. split; [reflexivity|]. right. exists label. rewrite Hset. reflexivity.
  - cbn. eexists. split; [reflexivity|].
    match goal with
    | |- context [TuxTrayApp._update_tooltip ?a ?s ?m] =>
        destruct (update_tooltip_keeps a s m) as (-> & -> & _)
    end.
    cbn. split; [reflexivity|]. left. reflexivity.
Qed.

Lemma set_animation_step_keeps e label now e' :
  engine_inv e ->
  AnimationEngine.step e (AnimationEngine.SetAnimation label now) = Returns e' ->
  AnimationEngine.timer_active e' = AnimationEngine.timer_active e /\
  AnimationEngine.current_skin e' = AnimationEngine.current_skin e /\
  AnimationEngine.animations e' = AnimationEngine.animations e /\
  exists emitted,
    AnimationEngine.frame_changed e' =
      (AnimationEngine.frame_changed e ++ emitted)%list /\
    (length emitted <= 1)%nat.
Proof.
  intros Hinv. cbn.
  destruct (AnimationEngine.set_animation e label now) as [[ok e1]|err] eqn:Hset;
    cbn; [|discriminate].
  intros [= <-].
  destruct (set_animation_shape _ _ _ _ _ Hinv Hset)
    as [(_ & _ & ->) | (ref & a & _ & _ & _ & _ & ->)].
  - do 3 (split; [reflexivity|]). exists []. rewrite app_nil_r. auto.
  - cbn. do 3 (split; [reflexivity|]). eexists [_]. auto.
Qed.

(** X25. Any series of polls on an application whose engine was reached
    from its constructor returns, and the polls stay in their lane: the
    configuration, the timer, the current skin and the catalog are as
    before, and the frames emitted so far are still there, followed by at
    most one new frame per poll. *)
Theorem polls_stay_in_lane (ticks : list (Readings * Z)) : forall app,
  reachable (TuxTrayApp.animation_engine app) ->
  exists app' emitted,
    TuxTrayApp.poll_series app ticks = Returns app' /\
    TuxTrayApp.config_manager app' = TuxTrayApp.config_manager app /\
    reachable (TuxTrayApp.animation_engine app') /\
    AnimationEngine.timer_active (TuxTrayApp.animation_engine app') =
      AnimationEngine.timer_active (TuxTrayApp.animation_engine app) /\
    AnimationEngine.current_skin (TuxTrayApp.animation_engine app') =
      AnimationEngine.current_skin (TuxTrayApp.animation_engine app) /\
    AnimationEngine.animations (TuxTrayApp.animation_engine app') =
      AnimationEngine.animations (TuxTrayApp.animation_engine app) /\
    AnimationEngine.frame_changed (TuxTrayApp.animation_engine app') =
      (AnimationEngine.frame_changed (TuxTrayApp.animation_engine app)
       ++ emitted)%list /\
    (length emitted <= length ticks)%nat.
Proof.
  induction ticks as [|[r now] later IH]; intros app Hreach.
  { exists app, []. cbn. rewrite app_nil_r. repeat split; auto. }
  pose proof (reachable_inv _ Hreach) as Hinv.
  destruct (poll_shape app r now Hinv) as (app1 & Hpoll & Hcfg & Hengine).
  assert (reachable (TuxTrayApp.animation_engine app1) /\
          AnimationEngine.timer_active (TuxTrayApp.animation_engine app1) =
            AnimationEngine.timer_active (TuxTrayApp.animation_engine app) /\
          AnimationEngine.current_skin (TuxTrayApp.animation_engine app1) =
            AnimationEngine.current_skin (TuxTrayApp.animation_engine app) /\
          AnimationEngine.animations (TuxTrayApp.animation_engine app1) =
            AnimationEngine.animations (TuxTrayApp.animation_engine app) /\
          exists emitted,
            AnimationEngine.frame_changed (TuxTrayApp.animation_engine app1) =
              (AnimationEngine.frame_changed (TuxTrayApp.animation_engine app)
               ++ emitted)%list /\
            (length emitted <= 1)%nat)
    as (Hreach1 & Ht1 & Hs1 & Ha1 & emitted1 & Hf1 & Hl1).
  { destruct Hengine as [-> | [label Hstep]].
    - split; [exact Hreach|]. do 3 (split; [reflexivity|]).
      exists []. rewrite app_nil_r. auto.
    - split; [exact (reachable_step _ _ _ Hreach Hstep)|].
      exact (set_animation_step_keeps _ _ _ _ Hinv Hstep). }
  destruct (IH app1 Hreach1)
    as (app' & emitted & Hseries & Hcfg' & Hreach' & Ht & Hs & Ha & Hf & Hl).
  exists app', (emitted1 ++ emitted)%list.
  cbn [TuxTrayApp.poll_series]. rewrite Hpoll. cbn.
  split; [exact Hseries|]. split; [congruence|]. split; [exact Hreach'|].
  split; [congruence|]. split; [congruence|]. split; [congruence|].
  split.
  - rewrite Hf, Hf1, app_assoc. reflexivity.
  - rewrite length_app. cbn [length]. lia.
Qed.

Lemma polls_stay_in_lane_witness :
  exists app',
    TuxTrayApp.poll_series demo_app
      [(mkReadings (Returns 95%Q) (Returns 5%Q) (Returns None) 1 1, 200%Z);
       (mkReadings (Raises OSError) (Returns 5%Q) (Returns None) 2 2, 700%Z)]
    = Returns app' /\
    TuxTrayApp.config_manager app' = TuxTrayApp.config_manager demo_app.
Proof.
  destruct (polls_stay_in_lane
              [(mkReadings (Returns 95%Q) (Returns 5%Q) (Returns None) 1 1, 200%Z);
               (mkReadings (Raises OSError) (Returns 5%Q) (Returns None) 2 2, 700%Z)]
              demo_app ltac:(demo_app_reachable))
    as (app' & emitted & Hseries & Hcfg & _).
  exists app'. split; assumption.
Defined.

End Polling.
